(** * Genesys recording finder: a shallow embedding of [main.py]

    The development follows the source file top-down.  Library behaviour
    the program relies on (CPython's [datetime], [requests], [csv]) is
    modelled next to the code that calls it, each part in a module of its
    own. *)

From Stdlib Require Import ZArith String Ascii List Lia Bool.
From stdpp Require Import base option list gmap strings.
Import ListNotations.

Set Warnings "-register-all".

Local Open Scope string_scope.
Local Open Scope list_scope.
Local Open Scope Z_scope.

(** ** Decimal printing, as done by Python's [%0Nd] *)

Module Fmt.

Definition digit_char (d : Z) : ascii := ascii_of_nat (48 + Z.to_nat d).

Fixpoint decimal_aux (fuel : nat) (z : Z) (acc : string) : string :=
  match fuel with
  | O => acc
  | S fuel' =>
      if z <? 10 then String (digit_char z) acc
      else decimal_aux fuel' (z / 10) (String (digit_char (z mod 10)) acc)
  end.

(** [str(z)] for a non-negative integer. *)
Definition decimal (z : Z) : string :=
  decimal_aux (S (Z.to_nat (Z.log2 z))) z "".

Fixpoint zeros (n : nat) : string :=
  match n with O => "" | S n' => String "0" (zeros n') end.

(** ["%0<width>d" % z] for a non-negative integer. *)
Definition zfill (width : nat) (z : Z) : string :=
  let s := decimal z in
  zeros (width - String.length s) +:+ s.

End Fmt.

(** ** Text

    A Python [str] is a sequence of code points.  Where the program
    passes a text along, compares it or joins it, the model keeps it as
    a [string]; where the characters of a text are classified one by
    one, as [strptime] does, it is the sequence of code points. *)

Definition str : Type := list N.

(** The text of a literal in ASCII. *)
Definition chars (s : string) : str :=
  map N_of_ascii (list_ascii_of_string s).

(** ** The part of CPython's [datetime] used by [find_ids]

    Dates are proleptic Gregorian, years 1 to 9999.  Adding a
    [timedelta] goes through day ordinals, as in the library. *)

Module datetime.

Definition MINYEAR : Z := 1.
Definition MAXYEAR : Z := 9999.

Record t := mk
  { year : Z; month : Z; day : Z; hour : Z; minute : Z; second : Z }.

Definition DAYS_IN_MONTH : list Z :=
  [-1; 31; 28; 31; 30; 31; 30; 31; 31; 30; 31; 30; 31].

(** The table the library builds at import time by a running sum. *)
Definition DAYS_BEFORE_MONTH : list Z :=
  Eval cbv in
    (-1) :: fst (fold_left (fun '(acc, dbm) dim => (acc ++ [dbm], dbm + dim))
                   (tl DAYS_IN_MONTH) ([], 0)).

Definition index (tbl : list Z) (i : Z) : Z := nth (Z.to_nat i) tbl 0.

Definition is_leap (y : Z) : bool :=
  (y mod 4 =? 0) && (negb (y mod 100 =? 0) || (y mod 400 =? 0)).

Definition days_before_year (y : Z) : Z :=
  let y := y - 1 in y * 365 + y / 4 - y / 100 + y / 400.

Definition days_in_month (y m : Z) : Z :=
  if (m =? 2) && is_leap y then 29 else index DAYS_IN_MONTH m.

Definition days_before_month (y m : Z) : Z :=
  index DAYS_BEFORE_MONTH m + (if (2 <? m) && is_leap y then 1 else 0).

Definition ymd2ord (y m d : Z) : Z :=
  days_before_year y + days_before_month y m + d.

Definition DI400Y : Z := Eval cbv in days_before_year 401.
Definition DI100Y : Z := Eval cbv in days_before_year 101.
Definition DI4Y : Z := Eval cbv in days_before_year 5.
Definition MAXORDINAL : Z := Eval cbv in ymd2ord 9999 12 31.

Definition ord2ymd (n : Z) : Z * Z * Z :=
  let n := n - 1 in
  let n400 := n / DI400Y in
  let n := n mod DI400Y in
  let year := n400 * 400 + 1 in
  let n100 := n / DI100Y in
  let n := n mod DI100Y in
  let n4 := n / DI4Y in
  let n := n mod DI4Y in
  let n1 := n / 365 in
  let n := n mod 365 in
  let year := year + n100 * 100 + n4 * 4 + n1 in
  if (n1 =? 4) || (n100 =? 4) then (year - 1, 12, 31)
  else
    let leapyear := (n1 =? 3) && (negb (n4 =? 24) || (n100 =? 3)) in
    let month := Z.shiftr (n + 50) 5 in
    let preceding :=
      index DAYS_BEFORE_MONTH month
      + (if (2 <? month) && leapyear then 1 else 0) in
    let '(month, preceding) :=
      if n <? preceding then
        (month - 1,
         preceding - (index DAYS_IN_MONTH (month - 1)
                      + (if (month - 1 =? 2) && leapyear then 1 else 0)))
      else (month, preceding) in
    (year, month, n - preceding + 1).

Definition toordinal (dt : t) : Z := ymd2ord (year dt) (month dt) (day dt).

(** [dt + timedelta(days=n)]; [None] is the library's [OverflowError]. *)
Definition add_days (dt : t) (n : Z) : option t :=
  let days := toordinal dt + n in
  if (0 <? days) && (days <=? MAXORDINAL) then
    let '(y, m, d) := ord2ymd days in
    Some (mk y m d (hour dt) (minute dt) (second dt))
  else None.

(** [dt.isoformat()] for a value without microseconds. *)
Definition isoformat (dt : t) : string :=
  Fmt.zfill 4 (year dt) +:+ "-" +:+ Fmt.zfill 2 (month dt) +:+ "-"
  +:+ Fmt.zfill 2 (day dt) +:+ "T" +:+ Fmt.zfill 2 (hour dt) +:+ ":"
  +:+ Fmt.zfill 2 (minute dt) +:+ ":" +:+ Fmt.zfill 2 (second dt).

(** *** [strptime(s, '%Y-%m-%d')]

    The format compiles to the regular expression
    [(\d\d\d\d)-(1[0-2]|0[1-9]|[1-9])-(3[01]|[12]\d|0[1-9]|[1-9]| [1-9])];
    alternatives are tried in order, text left after the match is an
    error, and the fields must then form a date.

    [\d] matches every decimal digit of the Unicode database, and [int]
    reads each of them with its value; a class like [[0-2]] matches the
    characters it lists and no other. *)

(** The decimal digits (category Nd) come in blocks of ten, in the
    order of their values.  These are the zeros of the blocks of
    Unicode 14.0, the database of CPython 3.11. *)
Definition decimal_zeros : list N :=
  [0x30; 0x660; 0x6f0; 0x7c0; 0x966; 0x9e6; 0xa66; 0xae6; 0xb66; 0xbe6;
   0xc66; 0xce6; 0xd66; 0xde6; 0xe50; 0xed0; 0xf20; 0x1040; 0x1090;
   0x17e0; 0x1810; 0x1946; 0x19d0; 0x1a80; 0x1a90; 0x1b50; 0x1bb0;
   0x1c40; 0x1c50; 0xa620; 0xa8d0; 0xa900; 0xa9d0; 0xa9f0; 0xaa50;
   0xabf0; 0xff10; 0x104a0; 0x10d30; 0x11066; 0x110f0; 0x11136; 0x111d0;
   0x112f0; 0x11450; 0x114d0; 0x11650; 0x116c0; 0x11730; 0x118e0;
   0x11950; 0x11c50; 0x11d50; 0x11da0; 0x16a60; 0x16ac0; 0x16b50;
   0x1d7ce; 0x1d7d8; 0x1d7e2; 0x1d7ec; 0x1d7f6; 0x1e140; 0x1e2f0;
   0x1e950; 0x1fbf0]%N.

(** The value of a decimal digit; [None] for any other character. *)
Definition decimal (c : N) : option Z :=
  zero ← List.find (fun zero => (zero <=? c)%N && (c <? zero + 10)%N)
           decimal_zeros;
  Some (Z.of_N (c - zero)).

Definition is_digit (c : N) : bool := bool_decide (is_Some (decimal c)).

Definition is_char (a : ascii) (c : N) : bool := (c =? N_of_ascii a)%N.

Definition in_range (lo hi : ascii) (c : N) : bool :=
  (N_of_ascii lo <=? c)%N && (c <=? N_of_ascii hi)%N.

Definition digit_val (c : N) : Z := default 0 (decimal c).

Definition match_year (s : str) : option (Z * str) :=
  match s with
  | a :: b :: c :: d :: rest =>
      if is_digit a && is_digit b && is_digit c && is_digit d then
        Some (digit_val a * 1000 + digit_val b * 100
              + digit_val c * 10 + digit_val d, rest)
      else None
  | _ => None
  end.

Definition two (a b : N) : Z := digit_val a * 10 + digit_val b.

(** Every way the month group can match a prefix, in the order the
    regular expression tries them. *)
Definition match_month (s : str) : list (Z * str) :=
  match s with
  | a :: rest =>
      (match rest with
       | b :: rest' =>
           (if is_char "1" a && in_range "0" "2" b
            then [(two a b, rest')] else [])
           ++ (if is_char "0" a && in_range "1" "9" b
               then [(two a b, rest')] else [])
       | [] => []
       end)
      ++ (if in_range "1" "9" a then [(digit_val a, rest)] else [])
  | [] => []
  end.

Definition match_day (s : str) : list (Z * str) :=
  match s with
  | a :: rest =>
      (match rest with
       | b :: rest' =>
           (if is_char "3" a && in_range "0" "1" b
            then [(two a b, rest')] else [])
           ++ (if in_range "1" "2" a && is_digit b
               then [(two a b, rest')] else [])
           ++ (if is_char "0" a && in_range "1" "9" b
               then [(two a b, rest')] else [])
       | [] => []
       end)
      ++ (if in_range "1" "9" a then [(digit_val a, rest)] else [])
      ++ (match rest with
          | b :: rest' =>
              if is_char " " a && in_range "1" "9" b
              then [(digit_val b, rest')] else []
          | [] => []
          end)
  | [] => []
  end.

Definition match_dash (s : str) : option str :=
  match s with
  | c :: rest => if is_char "-" c then Some rest else None
  | [] => None
  end.

(** The first successful way of matching the whole expression, with the
    text it leaves. *)
Definition re_match (s : str) : option (Z * Z * Z * str) :=
  '(y, s1) ← match_year s;
  s2 ← match_dash s1;
  head (omap (fun '(m, s3) =>
                s4 ← match_dash s3;
                '(d, s5) ← head (match_day s4);
                Some (y, m, d, s5))
             (match_month s2)).

Definition strptime (s : str) : option t :=
  '(y, m, d, rest) ← re_match s;
  match rest with
  | _ :: _ => None
  | [] =>
      if (MINYEAR <=? y) && (y <=? MAXYEAR)
         && (1 <=? m) && (m <=? 12)
         && (1 <=? d) && (d <=? days_in_month y m)
      then Some (mk y m d 0 0 0)
      else None
  end.

End datetime.

(** ** Python values and the operations the program applies to them *)

(** A decoded JSON document, which is also the shape of every Python
    value the program handles.  Numbers are integers; an object keeps its
    members in insertion order, one binding per key. *)
Inductive json :=
| JNull
| JBool (b : bool)
| JInt (z : Z)
| JStr (s : string)
| JArr (items : list json)
| JObj (members : list (string * json)).

Inductive exn :=
| RequestException   (* with its subclasses: ConnectionError, HTTPError,
                        requests' JSONDecodeError *)
| JSONDecodeError    (* [json.JSONDecodeError], as [json.loads] raises it *)
| AttributeError
| TypeError
| KeyError
| ValueError
| OverflowError
| RecursionError
| OSError.           (* with its subclasses: FileNotFoundError,
                        IsADirectoryError, PermissionError *)

Inductive res (A : Type) :=
| Ok (a : A)
| Raise (e : exn).
Arguments Ok {A} a.
Arguments Raise {A} e.

Module Py.

Fixpoint assoc (k : string) (members : list (string * json)) : option json :=
  match members with
  | [] => None
  | (k', v) :: rest => if String.eqb k k' then Some v else assoc k rest
  end.

(** [d[k] = v] on a dict: replace in place, or add at the end. *)
Fixpoint assoc_set (k : string) (v : json) (members : list (string * json))
  : list (string * json) :=
  match members with
  | [] => [(k, v)]
  | (k', v') :: rest =>
      if String.eqb k k' then (k, v) :: rest
      else (k', v') :: assoc_set k v rest
  end.

(** [bool(v)] *)
Definition truthy (v : json) : bool :=
  match v with
  | JNull => false
  | JBool b => b
  | JInt z => negb (z =? 0)
  | JStr s => negb (String.eqb s "")
  | JArr l => match l with [] => false | _ => true end
  | JObj m => match m with [] => false | _ => true end
  end.

Definition is_dict (v : json) : bool :=
  match v with JObj _ => true | _ => false end.

Definition is_list (v : json) : bool :=
  match v with JArr _ => true | _ => false end.

(** [v.get(k, default)]: only a dict has the method. *)
Definition get (v : json) (k : string) (default : json) : res json :=
  match v with
  | JObj m => Ok (match assoc k m with Some x => x | None => default end)
  | _ => Raise AttributeError
  end.

(** [v[k]] for a string key. *)
Definition getitem (v : json) (k : string) : res json :=
  match v with
  | JObj m => match assoc k m with Some x => Ok x | None => Raise KeyError end
  | _ => Raise TypeError
  end.

Fixpoint chars (s : string) : list json :=
  match s with
  | EmptyString => []
  | String c rest => JStr (String c EmptyString) :: chars rest
  end.

(** The items a [for] loop over [v] visits. *)
Definition iter (v : json) : res (list json) :=
  match v with
  | JArr l => Ok l
  | JObj m => Ok (map (fun kv => JStr (fst kv)) m)
  | JStr s => Ok (chars s)
  | _ => Raise TypeError
  end.

Fixpoint prefix (n : nat) (s : string) : string :=
  match n, s with
  | S n', String c rest => String c (prefix n' rest)
  | _, _ => EmptyString
  end.

(** [v[:10]] *)
Definition slice10 (v : json) : res json :=
  match v with
  | JStr s => Ok (JStr (prefix 10 s))
  | JArr l => Ok (JArr (take 10 l))
  | _ => Raise TypeError
  end.

End Py.

(** ** The world the program runs in *)

(** A cell handed to [csv.writer]: a Python value, or the float
    [ms / 1000], kept as the integer it was computed from. *)
Inductive cell :=
| CVal (v : json)
| CSeconds (ms : Z).

Definition row := list cell.

(** What decoding the text of a response as JSON comes to (CPython 3.11):
    the document; [JSONDecodeError] for a text that is not JSON;
    [RecursionError] for a text nested beyond the interpreter's recursion
    limit; [ValueError] for a text with an integer literal beyond the limit
    of 4300 digits. *)
Inductive decoding :=
| Document (j : json)
| NotJSON
| TooDeep
| TooLong.

Record response := mkResponse
  { status_code : Z;
    resp_headers : json;
    text : string;
    body : decoding }.

Inductive outcome :=
| ConnectionFails            (* [requests] raises before any response *)
| Replies (r : response).

Inductive method := GET | POST.

Inductive endpoint :=
| OAuthToken                               (* {login}/oauth/token *)
| RecordingsQuery                          (* /api/v2/recordings/query *)
| ConversationRecordings (id : json)       (* /api/v2/conversations/{id}/recordings *)
| ConversationDetails (id : json).         (* /api/v2/conversations/{id} *)

Inductive level := INFO | WARNING | ERROR.

Inductive arg :=
| AVal (v : json)
| AExn (e : exn).

(** What the run does that can be seen from outside, in order.  A message
    is the text of the source's f-string with the values it interpolates. *)
Inductive event :=
| Request (m : method) (ep : endpoint) (hdrs : json)
    (payload : option json) (reply : outcome)
| Sleep (ms : Z)
| Log (lv : level) (template : string) (args : list arg)
| Print (template : string) (args : list arg).

(** The fields of the one [GenesysIDFinder] object. *)
Record finder := mkFinder
  { environment : string;
    client_id : string;
    client_secret : string;
    (** [JNull] is Python's [None] *)
    access_token : json;
    (** the token the Authorization header carries, [JNull] before the
        first authentication *)
    headers : json }.

Record world := mkWorld
  { (** replies the network gives to the coming requests, one each; when
        they run out, connections fail *)
    net : list outcome;
    (** CSV files by path, as the rows they hold *)
    files : gmap string (list row);
    self : finder;
    (** the local counter of the running [find_ids] call, kept here as it
        outlives the exceptions that end the page loop *)
    total_recordings : Z;
    (** paths that cannot be opened for writing: the directory is missing,
        the path is a directory, permission is denied *)
    locked : gset string }.

Definition seconds (n : Z) : Z := 1000 * n.

(** ** State, exceptions and the events of a run *)

Record run (A : Type) := mkRun
  { value : res A;
    after : world;
    events : list event }.
Arguments mkRun {A} value after events.
Arguments value {A} r.
Arguments after {A} r.
Arguments events {A} r.

Definition M (A : Type) : Type := world -> run A.

Definition ret {A} (a : A) : M A := fun w => mkRun (Ok a) w [].

Definition bind {A B} (c : M A) (k : A -> M B) : M B :=
  fun w =>
    let r := c w in
    match value r with
    | Ok a =>
        let r' := k a (after r) in
        mkRun (value r') (after r') (events r ++ events r')
    | Raise e => mkRun (Raise e) (after r) (events r)
    end.

Definition raise {A} (e : exn) : M A := fun w => mkRun (Raise e) w [].

Definition lift {A} (r : res A) : M A := fun w => mkRun r w [].

(** [try: c  except <catches> as e: handler e] *)
Definition try_except {A} (c : M A) (catches : exn -> bool)
  (handler : exn -> M A) : M A :=
  fun w =>
    let r := c w in
    match value r with
    | Ok a => r
    | Raise e =>
        if catches e then
          let r' := handler e (after r) in
          mkRun (value r') (after r') (events r ++ events r')
        else r
    end.

Declare Scope py_scope.
Delimit Scope py_scope with py.
Notation "x <- c ;; k" := (bind c (fun x => k))
  (at level 100, c at next level, right associativity) : py_scope.
Notation "c ;; k" := (bind c (fun _ => k))
  (at level 100, right associativity) : py_scope.
Local Open Scope py_scope.

Definition is_request_exception (e : exn) : bool :=
  match e with RequestException => true | _ => false end.

Definition any_exception (e : exn) : bool := true.

Definition emit (ev : event) : M unit := fun w => mkRun (Ok tt) w [ev].

(** [time.sleep], in milliseconds *)
Definition sleep (ms : Z) : M unit := emit (Sleep ms).
Definition logging (lv : level) (template : string) (args : list arg)
  : M unit := emit (Log lv template args).
Definition print (template : string) (args : list arg) : M unit :=
  emit (Print template args).

Definition get_self : M finder := fun w => mkRun (Ok (self w)) w [].
Definition get_headers : M json :=
  fun w => mkRun (Ok (headers (self w))) w [].

Definition set_self (f : finder) : M unit :=
  fun w =>
    mkRun (Ok tt)
      (mkWorld (net w) (files w) f (total_recordings w) (locked w)) [].

Definition get_total : M Z := fun w => mkRun (Ok (total_recordings w)) w [].
Definition set_total (n : Z) : M unit :=
  fun w => mkRun (Ok tt) (mkWorld (net w) (files w) (self w) n (locked w)) [].

Fixpoint for_each {A} (l : list A) (f : A -> M unit) : M unit :=
  match l with
  | [] => ret tt
  | x :: rest => f x;; for_each rest f
  end.

(** *** [requests] *)

Definition next_reply (w : world) : outcome * list outcome :=
  match net w with
  | [] => (ConnectionFails, [])
  | o :: rest => (o, rest)
  end.

Definition requests (m : method) (ep : endpoint) (hdrs : json)
  (payload : option json) : M response :=
  fun w =>
    let '(o, rest) := next_reply w in
    mkRun (match o with
           | ConnectionFails => Raise RequestException
           | Replies r => Ok r
           end)
      (mkWorld rest (files w) (self w) (total_recordings w) (locked w))
      [Request m ep hdrs payload o].

(** [response.raise_for_status()]: an [HTTPError] for 4xx and 5xx. *)
Definition raise_for_status (r : response) : M unit :=
  if (400 <=? status_code r) && (status_code r <? 600)
  then raise RequestException else ret tt.

(** [response.json()]: requests turns the decoder's [JSONDecodeError]
    into its own, a [RequestException]; the other exceptions of the
    decoder pass as they are. *)
Definition decode (r : response) : res json :=
  match body r with
  | Document j => Ok j
  | NotJSON => Raise RequestException
  | TooDeep => Raise RecursionError
  | TooLong => Raise ValueError
  end.

Definition response_json (r : response) : M json := lift (decode r).

(** *** Files *)

Definition os_path_exists (path : string) : M bool :=
  fun w => mkRun (Ok (bool_decide (is_Some (files w !! path)))) w [].

(** [os.path.getsize(path) == 0], for a file that exists. *)
Definition size_is_zero (path : string) : M bool :=
  fun w => mkRun (Ok (match files w !! path with
                      | Some [] => true
                      | _ => false
                      end)) w [].

Definition set_file (path : string) (rows : list row) : M unit :=
  fun w => mkRun (Ok tt)
             (mkWorld (net w) (<[path := rows]> (files w)) (self w)
                (total_recordings w) (locked w)) [].

Definition has_nul (path : string) : bool :=
  existsb (Ascii.eqb Ascii.zero) (list_ascii_of_string path).

(** The exception [open(path, mode)] ends with for a mode that writes, if
    any: [ValueError] for a path with a NUL character, [OSError] for the
    empty path and for a path that is locked. *)
Definition open_error (w : world) (path : string) : option exn :=
  if has_nul path then Some ValueError
  else if String.eqb path "" || bool_decide (path ∈ locked w)
       then Some OSError
       else None.

(** [open(path, 'w')]: the file is created or emptied. *)
Definition open_w (path : string) : M unit :=
  fun w => match open_error w path with
           | Some e => mkRun (Raise e) w []
           | None => set_file path [] w
           end.

(** [open(path, 'a')]: the file is created if missing, else kept. *)
Definition open_a (path : string) : M unit :=
  fun w => match open_error w path with
           | Some e => mkRun (Raise e) w []
           | None =>
               match files w !! path with
               | Some _ => mkRun (Ok tt) w []
               | None => set_file path [] w
               end
           end.

(** [writer.writerow(r)] on a writer over the open file [path]. *)
Definition writerow (path : string) (r : row) : M unit :=
  fun w => set_file path (default [] (files w !! path) ++ [r]) w.

(** ** [class GenesysIDFinder] *)

Definition range (n : nat) : list Z := map Z.of_nat (seq 0 n).

(** *** [authenticate] (lines 25-58) *)

Definition token_request_data (f : finder) : json :=
  JObj [("grant_type", JStr "client_credentials");
        ("client_id", JStr (client_id f));
        ("client_secret", JStr (client_secret f))].

Definition set_token (tok : json) : M unit :=
  f <- get_self;;
  set_self (mkFinder (environment f) (client_id f) (client_secret f) tok tok).

Fixpoint authenticate_attempts (attempts : list Z) (max_retries : Z)
  (data : json) : M unit :=
  match attempts with
  | [] => ret tt
  | attempt :: rest =>
      returned <-
        try_except
          (response <- requests POST OAuthToken JNull (Some data);;
           raise_for_status response;;
           token_data <- response_json response;;
           tok <- lift (Py.getitem token_data "access_token");;
           set_token tok;;
           logging INFO "Successfully authenticated with Genesys Cloud" [];;
           ret true)
          is_request_exception
          (fun e =>
             logging WARNING "Authentication attempt {attempt + 1} failed: {e}"
               [AVal (JInt (attempt + 1)); AExn e];;
             if attempt <? max_retries - 1 then
               sleep (seconds (2 ^ attempt));; ret false
             else raise e);;
      if returned then ret tt
      else authenticate_attempts rest max_retries data
  end.

Definition authenticate : M unit :=
  try_except
    (f <- get_self;;
     authenticate_attempts (range 3) 3 (token_request_data f))
    any_exception
    (fun e => logging ERROR "Authentication failed: {e}" [AExn e];; raise e).

(** [__init__] (lines 15-23) *)
Definition init (client_id client_secret environment : string) : M unit :=
  set_self (mkFinder environment client_id client_secret JNull JNull);;
  authenticate.

Definition base_url (f : finder) : string := "https://api." +:+ environment f.

(** *** [find_ids] (lines 60-148) *)

Definition strptime (s : str) : res datetime.t :=
  match datetime.strptime s with
  | Some dt => Ok dt
  | None => Raise ValueError
  end.

(** [dt + timedelta(days=n)] *)
Definition plus_days (dt : datetime.t) (n : Z) : res datetime.t :=
  match datetime.add_days dt n with
  | Some dt' => Ok dt'
  | None => Raise OverflowError
  end.

(** The [body] dict of lines 80-84. *)
Definition query_body (start_dt end_dt : datetime.t)
  : list (string * json) :=
  [("interval",
    JStr (datetime.isoformat start_dt +:+ "Z/"
          +:+ datetime.isoformat end_dt +:+ "Z"));
   ("order", JStr "desc");
   ("pageSize", JInt 100)].

Definition time_range_header : row :=
  [CVal (JStr "Conversation ID"); CVal (JStr "Recording ID");
   CVal (JStr "Start Time"); CVal (JStr "Duration (seconds)");
   CVal (JStr "Agent Name")].

(** The least integer whose quotient by 1000 is no float: the quotient
    is rounded to the nearest float, and from [2 ^ 1024 - 2 ^ 970] on that
    would be [2 ^ 1024]. *)
Definition float_limit : Z := 1000 * (2 ^ 1024 - 2 ^ 970).

(** [v / 1000], true division *)
Definition div1000 (v : json) : res cell :=
  match v with
  | JInt z =>
      if Z.abs z <? float_limit then Ok (CSeconds z) else Raise OverflowError
  | JBool b => Ok (CSeconds (if b then 1 else 0))
  | _ => Raise TypeError
  end.

(** Lines 120-127: one row for a recording of the conversation. *)
Definition write_recording (output_file : string) (conv_id recording : json)
  : M unit :=
  id <- lift (Py.get recording "id" (JStr "N/A"));;
  start_time <- lift (Py.get recording "startTime" (JStr "N/A"));;
  duration <- lift (Py.get recording "durationMilliseconds" (JInt 0));;
  secs <- lift (div1000 duration);;
  agent <- lift (Py.get recording "agent" (JObj []));;
  name <- lift (Py.get agent "name" (JStr "N/A"));;
  writerow output_file [CVal conv_id; CVal id; CVal start_time; secs; CVal name];;
  total <- get_total;;
  set_total (total + 1).

(** Lines 111-132: the body of the loop over a page's conversations. *)
Definition process_conversation (output_file : string) (conv : json)
  : M unit :=
  conv_id <- lift (Py.get conv "conversationId" JNull);;
  hdrs <- get_headers;;
  rec_response <- requests GET (ConversationRecordings conv_id) hdrs None;;
  (if status_code rec_response =? 200 then
     recordings <- response_json rec_response;;
     items <- lift (Py.iter recordings);;
     for_each items (write_recording output_file conv_id)
   else
     print "Failed to get recordings for conversation {conv_id}: {rec_response.text}"
       [AVal conv_id; AVal (JStr (text rec_response))]);;
  sleep 200.

Inductive loop_ctl :=
| Break
| Continue (body : list (string * json)) (page_count : Z).

(** Lines 96-145: one turn of the [while True] loop. *)
Definition fetch_page (output_file : string) (body : list (string * json))
  (page_count : Z) : M loop_ctl :=
  print "Fetching page {page_count}..." [AVal (JInt page_count)];;
  try_except
    (hdrs <- get_headers;;
     response <- requests POST RecordingsQuery hdrs (Some (JObj body));;
     print "Response Status Code: {response.status_code}"
       [AVal (JInt (status_code response))];;
     print "Response Headers: {response.headers}"
       [AVal (resp_headers response)];;
     print "Response Text: {response.text}" [AVal (JStr (text response))];;
     raise_for_status response;;
     data <- response_json response;;
     conversations <- lift (Py.get data "conversations" (JArr []));;
     convs <- lift (Py.iter conversations);;
     for_each convs (process_conversation output_file);;
     next_uri <- lift (Py.get data "nextUri" JNull);;
     if negb (Py.truthy next_uri) then ret Break
     else ret (Continue (Py.assoc_set "pageNumber" (JInt page_count) body)
                 (page_count + 1)))
    any_exception
    (fun e =>
       (if is_request_exception e
        then print "Request failed: {str(e)}" [AExn e]
        else print "Unexpected error: {str(e)}" [AExn e]);;
       ret Break).

(** The [while True] loop; the result tells whether the loop was left
    ([false]: the turns allowed by [fuel] were used up first). *)
Fixpoint page_loop (fuel : nat) (output_file : string)
  (body : list (string * json)) (page_count : Z) : M bool :=
  match fuel with
  | O => ret false
  | S fuel' =>
      ctl <- fetch_page output_file body page_count;;
      match ctl with
      | Break => ret true
      | Continue body' page_count' =>
          page_loop fuel' output_file body' page_count'
      end
  end.

(** Each further turn needs one more reply from the network, so one turn
    more than there are replies always leaves the loop. *)
Definition enough_fuel (w : world) : nat := S (length (net w)).

Definition find_ids (start_date end_date : str) (output_file : string)
  : M unit :=
  start_dt <- lift (strptime start_date);;
  end_dt0 <- lift (strptime end_date);;
  end_dt <- lift (plus_days end_dt0 1);;
  f <- get_self;;
  print "Base URL: {self.base_url}" [AVal (JStr (base_url f))];;
  token10 <- lift (Py.slice10 (access_token f));;
  print "Access Token: {self.access_token[:10]}..." [AVal token10];;
  print "Recordings Query URL: {recordings_url}"
    [AVal (JStr (base_url f +:+ "/api/v2/recordings/query"))];;
  let body := query_body start_dt end_dt in
  print "Query Body: {body}" [AVal (JObj body)];;
  open_w output_file;;
  writerow output_file time_range_header;;
  set_total 0;;
  (fun w => page_loop (enough_fuel w) output_file body 1 w);;
  total <- get_total;;
  print "\nCompleted! Found {total_recordings} recordings." [AVal (JInt total)];;
  print "Results saved to {output_file}" [AVal (JStr output_file)].

(** *** [find_recordings_by_conversation_id], second definition
        (lines 192-257) *)

Definition detail_header : row :=
  [CVal (JStr "Conversation ID"); CVal (JStr "Recording ID");
   CVal (JStr "Start Time"); CVal (JStr "End Time");
   CVal (JStr "Media Type"); CVal (JStr "File State");
   CVal (JStr "Download URL")].

(** Lines 208-213. *)
Definition normalize (response_json : json) : json :=
  let recordings :=
    match response_json with
    | JObj members =>
        match Py.assoc "entities" members with
        | Some v => v
        | None => response_json
        end
    | _ => response_json
    end in
  if negb (Py.is_list recordings) then JArr [recordings] else recordings.

(** The row of lines 229-238.  Python evaluates the default of the
    outer [get] on line 236, the lookup under [download], before the
    call. *)
Definition detail_row (conversation_id recording : json) : res row :=
  match Py.get recording "id" (JStr "N/A") with Raise e => Raise e | Ok id =>
  match Py.get recording "startTime" (JStr "N/A") with Raise e => Raise e | Ok start_time =>
  match Py.get recording "endTime" (JStr "N/A") with Raise e => Raise e | Ok end_time =>
  match Py.get recording "mediaType" (JStr "N/A") with Raise e => Raise e | Ok media_type =>
  match Py.get recording "media" media_type with Raise e => Raise e | Ok media =>
  match Py.get recording "fileState" (JStr "N/A") with Raise e => Raise e | Ok file_state =>
  match Py.get recording "mediaUris" (JObj []) with Raise e => Raise e | Ok media_uris =>
  match Py.get media_uris "0" (JObj []) with Raise e => Raise e | Ok uri0 =>
  match Py.get recording "download" (JObj []) with Raise e => Raise e | Ok download =>
  match Py.get download "url" (JStr "N/A") with Raise e => Raise e | Ok url =>
  match Py.get uri0 "mediaUri" url with Raise e => Raise e | Ok download_uri =>
  Ok [CVal conversation_id; CVal id; CVal start_time; CVal end_time;
      CVal media; CVal file_state; CVal download_uri]
  end end end end end end end end end end end.

(** Lines 215-240: the export of one normalized response. *)
Definition append_records (conversation_id : json) (recordings : list json)
  (output_file : string) : M unit :=
  file_exists <- os_path_exists output_file;;
  zero <- size_is_zero output_file;;
  let file_is_empty := negb file_exists || zero in
  open_a output_file;;
  (if file_is_empty then writerow output_file detail_header else ret tt);;
  for_each recordings
    (fun recording =>
       r <- lift (detail_row conversation_id recording);;
       writerow output_file r);;
  print "Added {len(recordings)} recordings for conversation {conversation_id} to {output_file}"
    [AVal (JInt (Z.of_nat (length recordings))); AVal conversation_id;
     AVal (JStr output_file)].

(** How a turn of the retry loop ends: the function returns, the loop is
    left by [break], or the next attempt follows. *)
Inductive attempt_ctl :=
| Returns (v : json)
| Breaks (recordings : json)
| Next.

Definition items_of (v : json) : list json :=
  match v with JArr l => l | _ => [] end.

Fixpoint fetch_attempts_2 (attempts : list Z) (max_retries : Z)
  (conversation_id : json) (output_file : string) (recordings : json)
  : M json :=
  match attempts with
  | [] => ret recordings
  | attempt :: rest =>
      ctl <-
        try_except
          (hdrs <- get_headers;;
           response <-
             requests GET (ConversationRecordings conversation_id) hdrs None;;
           raise_for_status response;;
           response_json <- response_json response;;
           let recordings := normalize response_json in
           append_records conversation_id (items_of recordings) output_file;;
           ret (Breaks recordings))
          is_request_exception
          (fun e =>
             logging WARNING
               "Attempt {attempt + 1} failed to retrieve recordings for {conversation_id}: {e}"
               [AVal (JInt (attempt + 1)); AVal conversation_id; AExn e];;
             if attempt <? max_retries - 1 then
               authenticate;;
               sleep (seconds (2 ^ attempt));;
               ret Next
             else
               logging ERROR
                 "Failed to retrieve recordings after {max_retries} attempts"
                 [AVal (JInt max_retries)];;
               ret (Returns (JArr [])));;
      match ctl with
      | Returns v => ret v
      | Breaks recordings' => ret recordings'
      | Next =>
          fetch_attempts_2 rest max_retries conversation_id output_file
            recordings
      end
  end.

Definition find_recordings_by_conversation_id_2 (conversation_id : json)
  (output_file : string) : M json :=
  try_except
    (f <- get_self;;
     (if negb (Py.truthy (access_token f)) then authenticate else ret tt);;
     fetch_attempts_2 (range 3) 3 conversation_id output_file (JArr []))
    any_exception
    (fun e =>
       logging ERROR
         "Error retrieving recordings for conversation {conversation_id}: {str(e)}"
         [AVal conversation_id; AExn e];;
       ret (JArr [])).

(** *** [get_conversation_details] (lines 259-286); [JNull] is [None] *)

Definition get_conversation_details (conversation_id : json) : M json :=
  try_except
    (hdrs <- get_headers;;
     response <-
       requests GET (ConversationDetails conversation_id) hdrs None;;
     if status_code response =? 200 then response_json response
     else if status_code response =? 403 then
       print "Warning: Not authorized to access conversation details. Status: {response.status_code}"
         [AVal (JInt (status_code response))];;
       print "Response Text: {response.text}" [AVal (JStr (text response))];;
       ret JNull
     else
       print "Unexpected status code when retrieving conversation details: {response.status_code}"
         [AVal (JInt (status_code response))];;
       print "Response Text: {response.text}" [AVal (JStr (text response))];;
       ret JNull)
    is_request_exception
    (fun e =>
       print "Error retrieving conversation details: {e}" [AExn e];;
       ret JNull).

(** *** The class namespace

    A class body runs top to bottom and each [def] binds its name, so a
    later [def] of a name replaces the earlier one. *)

Inductive def_site :=
| Def_init                  (* line 15 *)
| Def_authenticate          (* line 25 *)
| Def_find_ids              (* line 60 *)
| Def_find_recordings_150   (* line 150 *)
| Def_find_recordings_192   (* line 192 *)
| Def_get_conversation_details   (* line 259 *)
| Def_check_recording_status     (* line 288 *)
| Def_read_conversation_ids.     (* line 340 *)

Definition class_body : list (string * def_site) :=
  [("__init__", Def_init);
   ("authenticate", Def_authenticate);
   ("find_ids", Def_find_ids);
   ("find_recordings_by_conversation_id", Def_find_recordings_150);
   ("find_recordings_by_conversation_id", Def_find_recordings_192);
   ("get_conversation_details", Def_get_conversation_details);
   ("check_recording_status", Def_check_recording_status);
   ("read_conversation_ids", Def_read_conversation_ids)].

Definition class_namespace : gmap string def_site :=
  fold_left (fun ns '(name, d) => <[name := d]> ns) class_body ∅.

Section Pandas.

(** [pd.DataFrame(recordings).to_csv(path, mode='a', header=h,
    index=False)]: the rows the call adds to the file, or the exception
    it ends with.  The library is not part of the program. *)
Variable to_csv : json -> bool -> res (list row).

(** *** [find_recordings_by_conversation_id], first definition
        (lines 150-190) *)

Fixpoint fetch_attempts_1 (attempts : list Z) (max_retries : Z)
  (conversation_id : json) (recordings : json) : M attempt_ctl :=
  match attempts with
  | [] => ret (Breaks recordings)
  | attempt :: rest =>
      ctl <-
        try_except
          (hdrs <- get_headers;;
           response <-
             requests GET (ConversationRecordings conversation_id) hdrs None;;
           raise_for_status response;;
           response_json <- response_json response;;
           recordings <- lift (Py.get response_json "entities" (JArr []));;
           sleep 500;;
           ret (Breaks recordings))
          is_request_exception
          (fun e =>
             logging WARNING
               "Attempt {attempt + 1} failed to retrieve recordings for {conversation_id}: {e}"
               [AVal (JInt (attempt + 1)); AVal conversation_id; AExn e];;
             if attempt <? max_retries - 1 then
               authenticate;;
               sleep (seconds (2 ^ attempt));;
               ret Next
             else
               logging ERROR
                 "Failed to retrieve recordings after {max_retries} attempts"
                 [AVal (JInt max_retries)];;
               ret (Returns (JArr [])));;
      match ctl with
      | Next => fetch_attempts_1 rest max_retries conversation_id recordings
      | _ => ret ctl
      end
  end.

Definition find_recordings_by_conversation_id_1 (conversation_id : json)
  (output_file : string) : M json :=
  try_except
    (f <- get_self;;
     (if negb (Py.truthy (access_token f)) then authenticate else ret tt);;
     ctl <- fetch_attempts_1 (range 3) 3 conversation_id (JArr []);;
     match ctl with
     | Returns v => ret v
     | Next => ret (JArr [])
     | Breaks recordings =>
         (if Py.truthy recordings then
            file_exists <- os_path_exists output_file;;
            rows <- lift (to_csv recordings (negb file_exists));;
            open_a output_file;;
            for_each rows (writerow output_file)
          else ret tt);;
         ret recordings
     end)
    any_exception
    (fun e =>
       logging ERROR "Error in find_recordings_by_conversation_id: {e}"
         [AExn e];;
       ret (JArr [])).

(** The method a call [finder.find_recordings_by_conversation_id(...)]
    reaches. *)
Definition find_recordings_by_conversation_id (conversation_id : json)
  (output_file : string) : M json :=
  match class_namespace !! "find_recordings_by_conversation_id" with
  | Some Def_find_recordings_150 =>
      find_recordings_by_conversation_id_1 conversation_id output_file
  | Some Def_find_recordings_192 =>
      find_recordings_by_conversation_id_2 conversation_id output_file
  | _ => raise AttributeError
  end.

(** ** [read_conversation_ids] (lines 340-408) *)

(** A data frame as the reader uses it: its columns in order, each with
    its label and its values.  Labels are text, as those [read_csv]
    takes from a header line are. *)
Definition frame : Type := list (string * list json).

Definition columns (df : frame) : list string := map fst df.

(** [col in df.columns] *)
Definition has_column (df : frame) (col : string) : bool :=
  existsb (String.eqb col) (columns df).

(** [df[col].tolist()] *)
Fixpoint column (df : frame) (col : string) : res (list json) :=
  match df with
  | [] => Raise KeyError
  | (label, values) :: rest =>
      if String.eqb col label then Ok values else column rest col
  end.

(** [s.endswith(suffix)] *)
Definition endswith (s suffix : string) : bool :=
  let n := String.length s in
  let k := String.length suffix in
  (k <=? n)%nat && String.eqb (String.substring (n - k) k s) suffix.

Definition encodings : list string :=
  ["utf-8"; "latin-1"; "iso-8859-1"; "cp1252"].

Definition tab : string := String (ascii_of_nat 9) EmptyString.

Definition delimiters : list string := [","; ";"; tab; "|"].

Definition id_column_variations : list string :=
  ["conversation_id"; "Call ID"; "call_id"; "CallID"; "ID"; "id";
   "Recording ID"; "recording_id"; "RecordingID"].

Definition column_list (df : frame) : json := JArr (map JStr (columns df)).

(** [pd.read_csv(file_path, encoding=..., sep=..., on_bad_lines='warn')]
    and [pd.read_excel(file_path)]: the frame, or the exception the call
    ends with.  The library, and the file it reads, are not part of the
    program. *)
Variable read_csv : string -> string -> string -> res frame.
Variable read_excel : string -> res frame.

(** Lines 363-382: the loop over the delimiters.  [None] is the loop's
    [else]: no delimiter worked, go on with the next encoding. *)
Fixpoint delimiter_loop (file_path encoding : string) (todo : list string)
  : M (option frame) :=
  match todo with
  | [] => ret None
  | delimiter :: rest =>
      found <-
        try_except
          (df <- lift (read_csv file_path encoding delimiter);;
           print "Successfully read CSV with {encoding} encoding and '{delimiter}' delimiter"
             [AVal (JStr encoding); AVal (JStr delimiter)];;
           print "Available columns:" [AVal (column_list df)];;
           ret (Some df))
          any_exception
          (fun e =>
             print "Failed to read CSV with {encoding} encoding and '{delimiter}' delimiter: {e}"
               [AVal (JStr encoding); AVal (JStr delimiter); AExn e];;
             ret None);;
      match found with
      | Some df => ret (Some df)
      | None => delimiter_loop file_path encoding rest
      end
  end.

(** Lines 362-388: the loop over the encodings, with its [else]. *)
Fixpoint encoding_loop (file_path : string) (todo : list string) : M frame :=
  match todo with
  | [] => raise ValueError
  | encoding :: rest =>
      found <- delimiter_loop file_path encoding delimiters;;
      match found with
      | Some df => ret df
      | None => encoding_loop file_path rest
      end
  end.

(** Lines 396-408: from the frame to the identifiers. *)
Definition select_ids (df : frame) : M (list json) :=
  print "Final columns:" [AVal (column_list df)];;
  match List.find (has_column df) id_column_variations with
  | None => raise ValueError
  | Some id_column => lift (column df id_column)
  end.

Definition read_conversation_ids (file_path : string) : M (list json) :=
  df <-
    (if endswith file_path ".csv" then encoding_loop file_path encodings
     else if endswith file_path ".xls" || endswith file_path ".xlsx"
          then lift (read_excel file_path)
          else raise ValueError);;
  select_ids df.

(** ** [main] (lines 410-459) *)

Definition process_one (n : Z) (i : Z) (conversation_id : json)
  (all_conversation_results : list json) : M (list json) :=
  logging INFO "Processing conversation {i}/{len(conversation_ids)}: {conversation_id}"
    [AVal (JInt i); AVal (JInt n); AVal conversation_id];;
  try_except
    (recordings <-
       find_recordings_by_conversation_id conversation_id "recording_ids.csv";;
     results <-
       (if Py.truthy recordings then
          items <- lift (Py.iter recordings);;
          ret (all_conversation_results ++ items)
        else ret all_conversation_results);;
     (if i mod 50 =? 0 then
        logging INFO "Pausing to avoid rate limits..." [];;
        sleep (seconds 5)
      else ret tt);;
     ret results)
    any_exception
    (fun e =>
       logging ERROR "Error processing conversation {conversation_id}: {e}"
         [AVal conversation_id; AExn e];;
       ret all_conversation_results).

(** The loop of lines 439-454 over [enumerate(conversation_ids, 1)]. *)
Fixpoint process_all (n : Z) (i : Z) (conversation_ids : list json)
  (all_conversation_results : list json) : M (list json) :=
  match conversation_ids with
  | [] => ret all_conversation_results
  | conversation_id :: rest =>
      results <- process_one n i conversation_id all_conversation_results;;
      process_all n (i + 1) rest results
  end.

(** [logging.basicConfig(level=..., format=..., filename=path)]
    (line 412): when the root logger has no handler yet, the log file is
    opened for appending, and the exception of [open] is passed on; when
    it has one, the call does nothing.  The records themselves are the
    [Log] events of a run; [files] keeps the tables only. *)
Definition basic_config (configured : bool) (path : string) : M unit :=
  if configured then ret tt
  else fun w => match open_error w path with
                | Some e => mkRun (Raise e) w []
                | None => mkRun (Ok tt) w []
                end.

(** [os.getenv(key)] is a lookup in the environment; a variable counts
    as true when it is set and not empty. *)
Definition set_and_not_empty (o : option string) : bool :=
  match o with
  | Some s => negb (String.eqb s "")
  | None => false
  end.

(** [configured] tells whether the root logger has a handler when [main]
    is called, [environ] is the environment of the process. *)
Definition main (configured : bool) (environ : gmap string string) : M unit :=
  basic_config configured "genesys_retrieval.log";;
  try_except
    (let CLIENT_ID := environ !! "GENESYS_CLIENT_ID" in
     let CLIENT_SECRET := environ !! "GENESYS_CLIENT_SECRET" in
     let ENVIRONMENT :=
       default "mypurecloud.com" (environ !! "GENESYS_ENVIRONMENT") in
     if negb (set_and_not_empty CLIENT_ID)
        || negb (set_and_not_empty CLIENT_SECRET)
     then raise ValueError
     else
       init (default "" CLIENT_ID) (default "" CLIENT_SECRET) ENVIRONMENT;;
       conversation_ids <- read_conversation_ids "call_ids.csv";;
       let conversation_ids := take 800 conversation_ids in
       results <-
         process_all (Z.of_nat (length conversation_ids)) 1
           conversation_ids [];;
       logging INFO "Processed {len(all_conversation_results)} recordings in total"
         [AVal (JInt (Z.of_nat (length results)))])
    any_exception
    (fun e => logging ERROR "Critical error in main process: {e}" [AExn e]).

End Pandas.

(** ** The calendar, as the specification speaks of it

    These definitions do not come from the program: they say what "a
    calendar date" and "the next calendar day" mean, for comparison with
    the ordinal arithmetic above. *)

Module Calendar.

Definition leap_year (y : Z) : bool :=
  (y mod 4 =? 0) && (negb (y mod 100 =? 0) || (y mod 400 =? 0)).

Definition month_days (y m : Z) : Z :=
  if m =? 2 then (if leap_year y then 29 else 28)
  else if (m =? 4) || (m =? 6) || (m =? 9) || (m =? 11) then 30
  else 31.

Definition is_date (y m d : Z) : Prop :=
  1 <= y <= 9999 /\ 1 <= m <= 12 /\ 1 <= d <= month_days y m.

Definition next_day (y m d : Z) : Z * Z * Z :=
  if d <? month_days y m then (y, m, d + 1)
  else if m <? 12 then (y, m + 1, 1)
  else (y + 1, 1, 1).


End Calendar.

Definition ymd (dt : datetime.t) : Z * Z * Z :=
  (datetime.year dt, datetime.month dt, datetime.day dt).

(** ** What a run shows: projections of the event list *)

(** The bodies of the recordings-query POSTs, in order. *)
Fixpoint query_posts (evs : list event) : list (option json) :=
  match evs with
  | [] => []
  | Request POST RecordingsQuery _ payload _ :: rest =>
      payload :: query_posts rest
  | _ :: rest => query_posts rest
  end.

Definition interval_of (payload : option json) : option json :=
  match payload with
  | Some (JObj members) => Py.assoc "interval" members
  | _ => None
  end.

Definition page_number_of (payload : option json) : option json :=
  match payload with
  | Some (JObj members) => Py.assoc "pageNumber" members
  | _ => None
  end.

(** ** Devices for the proofs about ordinals *)

(** The tail of [ord2ymd]: month and day from the day's index in its
    year. *)
Definition month_of_yday (leapyear : bool) (n : Z) : Z * Z :=
  let month := Z.shiftr (n + 50) 5 in
  let preceding :=
    datetime.index datetime.DAYS_BEFORE_MONTH month
    + (if (2 <? month) && leapyear then 1 else 0) in
  let '(month, preceding) :=
    if n <? preceding then
      (month - 1,
       preceding - (datetime.index datetime.DAYS_IN_MONTH (month - 1)
                    + (if (month - 1 =? 2) && leapyear then 1 else 0)))
    else (month, preceding) in
  (month, n - preceding + 1).

Definition zrange (lo : Z) (n : nat) : list Z :=
  map (fun i => lo + Z.of_nat i) (seq 0 n).

Definition month_len (leap : bool) (m : Z) : Z :=
  if (m =? 2) && leap then 29 else datetime.index datetime.DAYS_IN_MONTH m.

Definition yday (leap : bool) (m d : Z) : Z :=
  datetime.index datetime.DAYS_BEFORE_MONTH m
  + (if (2 <? m) && leap then 1 else 0) + d - 1.

(** Everything the proofs need to know about one day of a year, as a
    check that can be run over all of them. *)
Definition yday_ok (leap : bool) (m d : Z) : bool :=
  let '(m', d') := month_of_yday leap (yday leap m d) in
  (m' =? m) && (d' =? d) && (0 <=? yday leap m d)
  && (yday leap m d <? 365 + (if leap then 1 else 0))
  && implb (yday leap m d =? 365) ((m =? 12) && (d =? 31))
  && implb (m <? 12) (yday leap (m + 1) 1 =? yday leap m (month_len leap m) + 1)
  && (month_len leap m =?
      (if m =? 2 then (if leap then 29 else 28)
       else if (m =? 4) || (m =? 6) || (m =? 9) || (m =? 11) then 30
       else 31))
  && implb (m =? 12) (yday leap m (month_len leap m) =?
                      364 + (if leap then 1 else 0)).

(** * Properties *)

(** ** Ordinals and the calendar *)

Section OrdinalFacts.
Import datetime.

Lemma divmod_eq (n d q r : Z) :
  0 <= r < d -> n = d * q + r -> n / d = q /\ n mod d = r.
Proof.
  intros Hr Hn. split; symmetry.
  - apply (Z.div_unique n d q r); [left; exact Hr | exact Hn].
  - apply (Z.mod_unique n d q r); [left; exact Hr | exact Hn].
Qed.

(** The four divisions of [ord2ymd] on the day number of year
    [400a + 100b + 4c + e + 1], day index [k]: either they recover the
    parts, or [k] is the 366th day and one of the two end-of-cycle tests
    fires. *)
Lemma cycle_divisions (a b c e k : Z) :
  0 <= a -> 0 <= b < 4 -> 0 <= c < 25 -> 0 <= e < 4 -> 0 <= k <= 365 ->
  (k = 365 -> e = 3 /\ (c <> 24 \/ b = 3)) ->
  let n := 146097 * a + 36524 * b + 1461 * c + 365 * e + k in
  let n400 := n / 146097 in
  let r400 := n mod 146097 in
  let n100 := r400 / 36524 in
  let r100 := r400 mod 36524 in
  let n4 := r100 / 1461 in
  let r4 := r100 mod 1461 in
  let n1 := r4 / 365 in
  let r1 := r4 mod 365 in
  (k < 365 /\ n400 = a /\ n100 = b /\ n4 = c /\ n1 = e /\ r1 = k)
  \/ (k = 365 /\ (n1 = 4 \/ n100 = 4)
      /\ n400 * 400 + n100 * 100 + n4 * 4 + n1
         = 400 * a + 100 * b + 4 * c + e + 1).
Proof.
  intros Ha Hb Hc He Hk Hleap n; cbv zeta.
  destruct (divmod_eq n 146097 a (36524 * b + 1461 * c + 365 * e + k))
    as [E400 R400]; [lia | subst n; lia |].
  rewrite E400, R400.
  assert (Hcase : k < 365 \/ (k = 365 /\ c = 24) \/ (k = 365 /\ c <> 24))
    by lia.
  destruct Hcase as [Hlt | [[-> ->] | [-> Hc24]]].
  - left.
    destruct (divmod_eq (36524 * b + 1461 * c + 365 * e + k) 36524 b
                (1461 * c + 365 * e + k)) as [E100 R100]; [lia | lia |].
    rewrite E100, R100.
    destruct (divmod_eq (1461 * c + 365 * e + k) 1461 c (365 * e + k))
      as [E4 R4]; [lia | lia |].
    rewrite E4, R4.
    destruct (divmod_eq (365 * e + k) 365 e k) as [E1 R1]; [lia | lia |].
    rewrite E1, R1. tauto.
  - right.
    destruct (divmod_eq (36524 * b + 1461 * 24 + 365 * e + 365) 36524 4 0)
      as [E100 R100]; [lia | lia |].
    rewrite E100, R100. change (0 mod 1461) with 0.
    change (0 / 1461) with 0. change (0 / 365) with 0. lia.
  - right.
    destruct (divmod_eq (36524 * b + 1461 * c + 365 * e + 365) 36524 b
                (1461 * c + 365 * e + 365)) as [E100 R100]; [lia | lia |].
    rewrite E100, R100.
    destruct (divmod_eq (1461 * c + 365 * e + 365) 1461 c (365 * e + 365))
      as [E4 R4]; [lia | lia |].
    rewrite E4, R4.
    destruct (divmod_eq (365 * e + 365) 365 4 0) as [E1 R1]; [lia | lia |].
    rewrite E1. lia.
Qed.

Lemma is_leap_spec y :
  is_leap y = true <-> (y mod 4 = 0 /\ (y mod 100 <> 0 \/ y mod 400 = 0)).
Proof.
  unfold is_leap. rewrite andb_true_iff, orb_true_iff, negb_true_iff.
  rewrite !Z.eqb_eq, Z.eqb_neq. tauto.
Qed.

Lemma days_before_year_succ y :
  days_before_year (y + 1)
  = days_before_year y + 365 + (if is_leap y then 1 else 0).
Proof.
  unfold days_before_year. cbv zeta.
  replace (y + 1 - 1) with y by lia.
  destruct (is_leap y) eqn:E.
  - apply is_leap_spec in E. Z.to_euclidean_division_equations; lia.
  - assert (H : ~ (y mod 4 = 0 /\ (y mod 100 <> 0 \/ y mod 400 = 0))).
    { rewrite <- is_leap_spec. congruence. }
    Z.to_euclidean_division_equations; lia.
Qed.

Lemma year_decompose y :
  1 <= y ->
  exists a b c e,
    0 <= a /\ 0 <= b < 4 /\ 0 <= c < 25 /\ 0 <= e < 4
    /\ y = 400 * a + 100 * b + 4 * c + e + 1
    /\ days_before_year y = 146097 * a + 36524 * b + 1461 * c + 365 * e
    /\ (is_leap y = true <-> e = 3 /\ (c <> 24 \/ b = 3)).
Proof.
  intros Hy.
  exists ((y - 1) / 400), ((y - 1) mod 400 / 100),
    ((y - 1) mod 100 / 4), ((y - 1) mod 4).
  rewrite is_leap_spec. unfold days_before_year. cbv zeta.
  Z.to_euclidean_division_equations; lia.
Qed.

Lemma zrange_In lo n x : lo <= x < lo + Z.of_nat n -> In x (zrange lo n).
Proof.
  intros H. unfold zrange. apply in_map_iff.
  exists (Z.to_nat (x - lo)). split; [lia |]. apply in_seq. lia.
Qed.

Lemma all_ydays_ok :
  forallb (fun leap =>
     forallb (fun m =>
        forallb (yday_ok leap m) (zrange 1 (Z.to_nat (month_len leap m))))
       (zrange 1 12)) [true; false] = true.
Proof. vm_compute. reflexivity. Qed.

Lemma yday_ok_valid (leap : bool) m d :
  1 <= m <= 12 -> 1 <= d <= month_len leap m -> yday_ok leap m d = true.
Proof.
  intros Hm Hd.
  pose proof all_ydays_ok as H.
  rewrite forallb_forall in H.
  assert (Hl : In leap [true; false]) by (destruct leap; simpl; auto).
  specialize (H leap Hl). rewrite forallb_forall in H.
  specialize (H m (zrange_In 1 12 m ltac:(lia))).
  rewrite forallb_forall in H. apply H, zrange_In. lia.
Qed.


Lemma yday_facts (leap : bool) m d :
  1 <= m <= 12 -> 1 <= d <= month_len leap m ->
  month_of_yday leap (yday leap m d) = (m, d)
  /\ 0 <= yday leap m d < 365 + (if leap then 1 else 0)
  /\ (yday leap m d = 365 -> m = 12 /\ d = 31)
  /\ (m < 12 -> yday leap (m + 1) 1 = yday leap m (month_len leap m) + 1)
  /\ month_len leap m
     = (if m =? 2 then (if leap then 29 else 28)
        else if (m =? 4) || (m =? 6) || (m =? 9) || (m =? 11) then 30
        else 31)
  /\ (m = 12 -> yday leap m (month_len leap m)
                = 364 + (if leap then 1 else 0)).
Proof.
  intros Hm Hd. pose proof (yday_ok_valid leap m d Hm Hd) as H.
  unfold yday_ok in H.
  destruct (month_of_yday leap (yday leap m d)) as [m' d'].
  rewrite !andb_true_iff in H.
  destruct H as [[[[[[[H1 H2] H3] H4] H5] H6] H7] H8].
  apply Z.eqb_eq in H1, H2, H7. apply Z.leb_le in H3. apply Z.ltb_lt in H4.
  subst m' d'. repeat split; try lia; try assumption.
Qed.

Lemma ord2ymd_unfold n :
  ord2ymd n =
  let n := n - 1 in
  let n400 := n / DI400Y in
  let n := n mod DI400Y in
  let n100 := n / DI100Y in
  let n := n mod DI100Y in
  let n4 := n / DI4Y in
  let n := n mod DI4Y in
  let n1 := n / 365 in
  let n := n mod 365 in
  let year := n400 * 400 + 1 + n100 * 100 + n4 * 4 + n1 in
  if (n1 =? 4) || (n100 =? 4) then (year - 1, 12, 31)
  else
    let '(mm, dd) :=
      month_of_yday ((n1 =? 3) && (negb (n4 =? 24) || (n100 =? 3))) n in
    (year, mm, dd).
Proof.
  unfold ord2ymd, month_of_yday. cbv zeta.
  destruct (_ || _); [reflexivity |].
  match goal with
  | |- context [ if ?x <? ?p then (_, _) else _ ] => destruct (x <? p)
  end; reflexivity.
Qed.

(** [ord2ymd] undoes [ymd2ord] on every date from year 1 on. *)
Lemma ord2ymd_ymd2ord y m d :
  1 <= y -> 1 <= m <= 12 -> 1 <= d <= days_in_month y m ->
  ord2ymd (ymd2ord y m d) = (y, m, d).
Proof.
  intros Hy Hm Hd.
  destruct (year_decompose y Hy)
    as (a & b & c & e & Ha & Hb & Hc & He & Ey & Edby & Eleap).
  assert (Hd' : 1 <= d <= month_len (is_leap y) m) by exact Hd.
  destruct (yday_facts (is_leap y) m d Hm Hd')
    as (Hmonth & Hk & Hk365 & _).
  set (k := yday (is_leap y) m d) in *.
  assert (En : ymd2ord y m d - 1
               = 146097 * a + 36524 * b + 1461 * c + 365 * e + k).
  { unfold ymd2ord, days_before_month, k, yday. rewrite Edby. lia. }
  assert (Hk' : 0 <= k <= 365) by (destruct (is_leap y); lia).
  assert (Hleap : k = 365 -> e = 3 /\ (c <> 24 \/ b = 3)).
  { intros E. apply Eleap. destruct (is_leap y); [reflexivity | lia]. }
  pose proof (cycle_divisions a b c e k Ha Hb Hc He Hk' Hleap) as Hchain.
  cbv zeta in Hchain. rewrite <- En in Hchain.
  rewrite ord2ymd_unfold. cbv zeta. unfold DI400Y, DI100Y, DI4Y.
  destruct Hchain
    as [(Hlt & E400 & E100 & E4 & E1 & R1) | (E365 & Hsp & Eyear)].
  - rewrite E400, E100, E4, E1, R1.
    replace ((e =? 4) || (b =? 4)) with false
      by (symmetry; apply orb_false_iff; split; apply Z.eqb_neq; lia).
    assert (El : (e =? 3) && (negb (c =? 24) || (b =? 3)) = is_leap y).
    { destruct (is_leap y) eqn:E.
      - destruct Eleap as [Eleap _]. specialize (Eleap eq_refl).
        apply andb_true_iff.
        rewrite orb_true_iff, negb_true_iff, !Z.eqb_eq, Z.eqb_neq. tauto.
      - apply not_true_iff_false. intros Hc'.
        apply andb_true_iff in Hc'.
        rewrite orb_true_iff, negb_true_iff, !Z.eqb_eq, Z.eqb_neq in Hc'.
        destruct Eleap as [_ Eleap]. specialize (Eleap Hc'). congruence. }
    rewrite El, Hmonth. f_equal. f_equal. lia.
  - destruct (Hk365 E365) as [-> ->].
    replace (_ || _) with true.
    + f_equal. f_equal. lia.
    + symmetry. apply orb_true_iff. rewrite !Z.eqb_eq. exact Hsp.
Qed.

Lemma leap_year_is_leap y : Calendar.leap_year y = is_leap y.
Proof. reflexivity. Qed.

(** The library's month table is the calendar's. *)
Lemma days_in_month_calendar y m :
  1 <= m <= 12 -> days_in_month y m = Calendar.month_days y m.
Proof.
  intros Hm.
  assert (H1 : 1 <= 1 <= month_len (is_leap y) m).
  { unfold month_len. destruct ((m =? 2) && is_leap y); [lia |].
    assert (Hc : m = 1 \/ m = 2 \/ m = 3 \/ m = 4 \/ m = 5 \/ m = 6 \/ m = 7
                 \/ m = 8 \/ m = 9 \/ m = 10 \/ m = 11 \/ m = 12) by lia.
    repeat (destruct Hc as [-> | Hc]); try subst m; vm_compute;
      split; congruence. }
  destruct (yday_facts (is_leap y) m 1 Hm H1) as (_ & _ & _ & _ & E & _).
  unfold Calendar.month_days. rewrite leap_year_is_leap. exact E.
Qed.

(** One more day in ordinals is the next calendar day. *)
Lemma ymd2ord_next_day y m d :
  Calendar.is_date y m d ->
  let '(y', m', d') := Calendar.next_day y m d in
  ymd2ord y' m' d' = ymd2ord y m d + 1
  /\ 1 <= y' /\ 1 <= m' <= 12 /\ 1 <= d' <= days_in_month y' m'
  /\ (y' = y \/ (y' = y + 1 /\ m = 12 /\ d = 31)).
Proof.
  intros (Hy & Hm & Hd). unfold Calendar.next_day.
  rewrite <- (days_in_month_calendar y m Hm) in Hd |- *.
  assert (Hd' : 1 <= d <= month_len (is_leap y) m) by exact Hd.
  destruct (yday_facts (is_leap y) m d Hm Hd') as (_ & _ & _ & Hnext & Hlen & Hlast).
  destruct (Z.ltb_spec d (days_in_month y m)) as [Hlt | Hge].
  - repeat split; try lia. unfold ymd2ord. lia.
  - assert (Ed : d = month_len (is_leap y) m)
      by (unfold month_len; unfold days_in_month in *; lia).
    destruct (Z.ltb_spec m 12) as [Hm12 | Hm12].
    + repeat split; try lia.
      * unfold ymd2ord. specialize (Hnext Hm12).
        unfold yday in Hnext. unfold days_before_month. lia.
      * rewrite (days_in_month_calendar y (m + 1)) by lia.
        unfold Calendar.month_days.
        repeat match goal with
               | |- context [ if ?c then _ else _ ] => destruct c
               end; lia.
    + assert (m = 12) by lia. subst m.
      specialize (Hlast eq_refl).
      assert (E31 : month_len (is_leap y) 12 = 31) by reflexivity.
      repeat split; try lia.
      * unfold ymd2ord. rewrite days_before_year_succ.
        unfold yday in Hlast. unfold days_before_month.
        change (index DAYS_BEFORE_MONTH 1) with 0.
        change ((2 <? 1) && is_leap (y + 1)) with false. cbv iota. lia.
      * rewrite (days_in_month_calendar (y + 1) 1) by lia.
        unfold Calendar.month_days. cbn. lia.
Qed.

Lemma ymd2ord_bounds y m d :
  1 <= y <= 9999 -> 1 <= m <= 12 -> 1 <= d <= days_in_month y m ->
  0 < ymd2ord y m d <= MAXORDINAL.
Proof.
  intros Hy Hm Hd.
  assert (Hd' : 1 <= d <= month_len (is_leap y) m) by exact Hd.
  destruct (yday_facts (is_leap y) m d Hm Hd') as (_ & Hk & _).
  unfold yday in Hk.
  assert (E : ymd2ord y m d
              = days_before_year y + yday (is_leap y) m d + 1).
  { unfold ymd2ord, days_before_month, yday. lia. }
  pose proof (days_before_year_succ y) as Hs.
  assert (H0 : 0 <= days_before_year y).
  { unfold days_before_year. cbv zeta.
    Z.to_euclidean_division_equations; lia. }
  assert (Hmax : days_before_year (y + 1) <= MAXORDINAL).
  { unfold days_before_year, MAXORDINAL. cbv zeta.
    replace (y + 1 - 1) with y by lia.
    Z.to_euclidean_division_equations; lia. }
  unfold yday in E. destruct (is_leap y); lia.
Qed.

(** [dt + timedelta(days=1)] is the next calendar day, at the same time
    of day; only the last day of year 9999 has none. *)
Lemma add_days_next_day dt :
  Calendar.is_date (year dt) (month dt) (day dt) ->
  ymd dt <> (9999, 12, 31) ->
  exists dt',
    add_days dt 1 = Some dt'
    /\ ymd dt' = Calendar.next_day (year dt) (month dt) (day dt)
    /\ hour dt' = hour dt /\ minute dt' = minute dt
    /\ second dt' = second dt.
Proof.
  intros Hdate Hne.
  pose proof (ymd2ord_next_day _ _ _ Hdate) as Hn.
  destruct (Calendar.next_day (year dt) (month dt) (day dt))
    as [[y' m'] d'] eqn:En.
  destruct Hn as (Eord & Hy' & Hm' & Hd' & Hyear).
  destruct Hdate as (Hy & Hm & Hd).
  assert (Hy9 : y' <= 9999).
  { destruct Hyear as [-> | (-> & E12 & E31)]; [lia |].
    assert (year dt <> 9999); [| lia].
    intros E. apply Hne. unfold ymd. congruence. }
  pose proof (ymd2ord_bounds y' m' d' ltac:(lia) Hm' Hd') as Hb.
  unfold add_days, toordinal. rewrite <- Eord.
  replace ((0 <? ymd2ord y' m' d') && (ymd2ord y' m' d' <=? MAXORDINAL))
    with true
    by (symmetry; apply andb_true_iff; split;
        [apply Z.ltb_lt | apply Z.leb_le]; lia).
  rewrite (ord2ymd_ymd2ord y' m' d' Hy' Hm' Hd').
  eexists. split; [reflexivity |]. repeat split.
Qed.

End OrdinalFacts.

(** ** Parsing and printing dates *)

Lemma strptime_date s dt :
  datetime.strptime s = Some dt ->
  Calendar.is_date (datetime.year dt) (datetime.month dt) (datetime.day dt)
  /\ datetime.hour dt = 0 /\ datetime.minute dt = 0
  /\ datetime.second dt = 0.
Proof.
  unfold datetime.strptime. intros H.
  destruct (datetime.re_match s) as [[[[y m] d] rest] |]; [| discriminate].
  cbn in H.
  destruct rest as [| c rest]; [| discriminate].
  match type of H with
  | (if ?c then _ else _) = _ => destruct c eqn:Hc; [| discriminate]
  end.
  injection H as <-. cbn.
  rewrite !andb_true_iff in Hc. unfold datetime.MINYEAR, datetime.MAXYEAR in Hc.
  destruct Hc as [[[[[H1 H2] H3] H4] H5] H6].
  unfold Calendar.is_date.
  rewrite <- (days_in_month_calendar y m) by lia. lia.
Qed.



(** ** Reasoning about runs *)

Lemma events_bind {A B} (c : M A) (k : A -> M B) w :
  events (bind c k w)
  = events (c w)
    ++ match value (c w) with
       | Ok a => events (k a (after (c w)))
       | Raise _ => []
       end.
Proof.
  unfold bind. destruct (value (c w)); cbn; [reflexivity |].
  now rewrite app_nil_r.
Qed.

Lemma value_bind {A B} (c : M A) (k : A -> M B) w :
  value (bind c k w)
  = match value (c w) with
    | Ok a => value (k a (after (c w)))
    | Raise e => Raise e
    end.
Proof. unfold bind. destruct (value (c w)); reflexivity. Qed.

Lemma after_bind {A B} (c : M A) (k : A -> M B) w :
  after (bind c k w)
  = match value (c w) with
    | Ok a => after (k a (after (c w)))
    | Raise e => after (c w)
    end.
Proof. unfold bind. destruct (value (c w)); reflexivity. Qed.

(** [spec P Q c]: every event of [c] satisfies [P], and every value it
    returns satisfies [Q], in whatever world it runs. *)
Definition spec {A} (P : event -> Prop) (Q : A -> Prop) (c : M A) : Prop :=
  forall w, Forall P (events (c w)) /\ forall a, value (c w) = Ok a -> Q a.

Definition any {A} : A -> Prop := fun _ => True.

Lemma spec_weaken {A} (P : event -> Prop) (Q Q' : A -> Prop) c :
  spec P Q c -> (forall a, Q a -> Q' a) -> spec P Q' c.
Proof. intros H HQ w. destruct (H w). split; auto. Qed.

Lemma spec_ret {A} P (Q : A -> Prop) a : Q a -> spec P Q (ret a).
Proof.
  intros H w. split; [constructor |]. cbn. intros a' [= <-]. exact H.
Qed.

Lemma spec_raise {A} P (Q : A -> Prop) e : spec P Q (raise e).
Proof. intros w. split; [constructor |]. cbn. discriminate. Qed.

Lemma spec_lift {A} P (Q : A -> Prop) r :
  (forall a, r = Ok a -> Q a) -> spec P Q (lift r).
Proof. intros H w. split; [constructor |]. cbn. exact H. Qed.

Lemma spec_lift_any {A} P (r : res A) : spec P any (lift r).
Proof. apply spec_lift. intros; exact I. Qed.

Lemma spec_bind {A B} P (Q : A -> Prop) (R : B -> Prop) c k :
  spec P Q c -> (forall a, Q a -> spec P R (k a)) -> spec P R (bind c k).
Proof.
  intros Hc Hk w. destruct (Hc w) as [Hev Hval].
  rewrite events_bind, value_bind.
  destruct (value (c w)) as [a | e].
  - destruct (Hk a (Hval a eq_refl) (after (c w))) as [Hev' Hval'].
    split; [apply Forall_app; split; assumption | exact Hval'].
  - split; [now rewrite app_nil_r | discriminate].
Qed.

Lemma spec_try {A} P (Q : A -> Prop) c catches h :
  spec P Q c -> (forall e, spec P Q (h e)) -> spec P Q (try_except c catches h).
Proof.
  intros Hc Hh w. destruct (Hc w) as [Hev Hval]. unfold try_except.
  destruct (value (c w)) as [a | e] eqn:E.
  - split; [exact Hev |]. rewrite E. exact Hval.
  - destruct (catches e).
    + destruct (Hh e (after (c w))) as [Hev' Hval']. cbn.
      split; [apply Forall_app; split; assumption | exact Hval'].
    + split; [exact Hev |]. rewrite E. discriminate.
Qed.

Lemma spec_emit P (Q : unit -> Prop) ev : P ev -> Q tt -> spec P Q (emit ev).
Proof.
  intros H HQ w. split; [repeat constructor; exact H |].
  cbn. intros [] _. exact HQ.
Qed.

Lemma spec_silent {A} P (c : M A) :
  (forall w, events (c w) = []) -> spec P any c.
Proof. intros H w. rewrite H. split; [constructor | intros; exact I]. Qed.

Lemma spec_requests P m ep hdrs payload :
  (forall o, P (Request m ep hdrs payload o)) ->
  spec P any (requests m ep hdrs payload).
Proof.
  intros H w. unfold requests. destruct (next_reply w) as [o rest]. cbn.
  split; [repeat constructor; apply H | intros; exact I].
Qed.

Lemma spec_for_each {A} P (l : list A) f :
  (forall x, spec P any (f x)) -> spec P any (for_each l f).
Proof.
  intros H. induction l as [| x l IH]; cbn.
  - apply spec_ret. exact I.
  - apply (spec_bind P any any); [apply H | intros _ _; exact IH].
Qed.

Lemma spec_if {A} P (Q : A -> Prop) (b : bool) c1 c2 :
  spec P Q c1 -> spec P Q c2 -> spec P Q (if b then c1 else c2).
Proof. destruct b; auto. Qed.

Create HintDb spec discriminated.

#[local] Hint Resolve spec_raise spec_lift_any spec_try spec_if spec_for_each
  : spec.
#[local] Hint Extern 1 (spec _ any (ret _)) => apply spec_ret; exact I : spec.
#[local] Hint Extern 1 (spec _ any (get_self)) =>
  apply spec_silent; reflexivity : spec.
#[local] Hint Extern 1 (spec _ any (get_headers)) =>
  apply spec_silent; reflexivity : spec.
#[local] Hint Extern 1 (spec _ any (get_total)) =>
  apply spec_silent; reflexivity : spec.
#[local] Hint Extern 1 (spec _ any (set_total _)) =>
  apply spec_silent; reflexivity : spec.
#[local] Hint Extern 1 (spec _ any (set_self _)) =>
  apply spec_silent; reflexivity : spec.
#[local] Hint Extern 1 (spec _ any (os_path_exists _)) =>
  apply spec_silent; reflexivity : spec.
#[local] Hint Extern 1 (spec _ any (size_is_zero _)) =>
  apply spec_silent; reflexivity : spec.
#[local] Hint Extern 1 (spec _ any (set_file _ _)) =>
  apply spec_silent; reflexivity : spec.
#[local] Hint Extern 1 (spec _ any (open_w _)) =>
  apply spec_silent; intros w; unfold open_w;
  destruct (open_error w _); reflexivity : spec.
#[local] Hint Extern 1 (spec _ any (writerow _ _)) =>
  apply spec_silent; reflexivity : spec.
#[local] Hint Extern 1 (spec _ any (open_a _)) =>
  apply spec_silent; intros w; unfold open_a;
  destruct (open_error w _); [| destruct (files w !! _)];
  reflexivity : spec.
#[local] Hint Extern 1 (spec _ any (raise_for_status _)) =>
  unfold raise_for_status : spec.
#[local] Hint Extern 1 (spec _ any (response_json _)) =>
  unfold response_json : spec.
#[local] Hint Extern 2 (spec _ any (bind _ _)) =>
  apply (spec_bind _ any any); [| intros ? _] : spec.
#[local] Hint Extern 1 (spec _ any (sleep _)) =>
  apply spec_emit; [cbn | exact I] : spec.
#[local] Hint Extern 1 (spec _ any (print _ _)) =>
  apply spec_emit; [cbn | exact I] : spec.
#[local] Hint Extern 1 (spec _ any (logging _ _ _)) =>
  apply spec_emit; [cbn | exact I] : spec.
#[local] Hint Extern 1 (spec _ any (requests _ _ _ _)) =>
  apply spec_requests; intros ?; cbn : spec.
#[local] Hint Extern 1 (spec _ any (match ?x with _ => _ end)) =>
  destruct x : spec.





(** ** Sample worlds, for the concrete runs below *)

Definition sample_finder : finder :=
  mkFinder "mypurecloud.com" "client" "secret" (JStr "token") (JStr "token").

(** A world with the given replies to come and the given files. *)
Definition sample_world (replies : list outcome)
  (fs : gmap string (list row)) : world :=
  mkWorld replies fs sample_finder 0 ∅.

Definition ok_reply (j : json) : outcome :=
  Replies (mkResponse 200 (JObj []) "" (Document j)).

Definition status_reply (code : Z) : outcome :=
  Replies (mkResponse code (JObj []) "" NotJSON).


(** ** C1: the interval of the time-range query *)






Lemma bind_lift_ok {A B} (a : A) (k : A -> M B) w :
  bind (lift (Ok a)) k w = k a w.
Proof. unfold bind, lift. cbn. destruct (k a w). reflexivity. Qed.

Lemma query_posts_app a b :
  query_posts (a ++ b) = query_posts a ++ query_posts b.
Proof.
  induction a as [| ev a IH]; [reflexivity |]. cbn.
  destruct ev as [m ep h p o | | |]; try exact IH.
  destruct m; [exact IH |]. destruct ep; try exact IH.
  cbn. now rewrite IH.
Qed.

Lemma events_try {A} (c : M A) catches h w :
  events (try_except c catches h w)
  = events (c w)
    ++ match value (c w) with
       | Raise e => if catches e then events (h e (after (c w))) else []
       | Ok _ => []
       end.
Proof.
  unfold try_except. destruct (value (c w)) as [a | e].
  - now rewrite app_nil_r.
  - destruct (catches e); [reflexivity | now rewrite app_nil_r].
Qed.




(** The run of [find_ids] once both dates are read. *)
Definition find_ids_from (start_dt end_dt : datetime.t) (output_file : string)
  : M unit :=
  f <- get_self;;
  print "Base URL: {self.base_url}" [AVal (JStr (base_url f))];;
  token10 <- lift (Py.slice10 (access_token f));;
  print "Access Token: {self.access_token[:10]}..." [AVal token10];;
  print "Recordings Query URL: {recordings_url}"
    [AVal (JStr (base_url f +:+ "/api/v2/recordings/query"))];;
  let body := query_body start_dt end_dt in
  print "Query Body: {body}" [AVal (JObj body)];;
  open_w output_file;;
  writerow output_file time_range_header;;
  set_total 0;;
  (fun w => page_loop (enough_fuel w) output_file body 1 w);;
  total <- get_total;;
  print "\nCompleted! Found {total_recordings} recordings." [AVal (JInt total)];;
  print "Results saved to {output_file}" [AVal (JStr output_file)].

Lemma find_ids_unfold s e out ds de de' w :
  datetime.strptime s = Some ds ->
  datetime.strptime e = Some de ->
  datetime.add_days de 1 = Some de' ->
  find_ids s e out w = find_ids_from ds de' out w.
Proof.
  intros Hs He Hadd.
  unfold find_ids, strptime. rewrite Hs, bind_lift_ok, He, bind_lift_ok.
  unfold plus_days. rewrite Hadd, bind_lift_ok. reflexivity.
Qed.





(** The digits of the year, and the second digit of a day from 10 to
    29, may come from any script; the month admits the digits of ASCII
    only.  Here the year is in fullwidth digits (U+FF10 and following)
    and the 3 of the day 13 is the Arabic-Indic U+0663. *)
Example strptime_unicode_digits :
  datetime.strptime ([0xff12; 0xff10; 0xff12; 0xff14]%N ++ chars "-01-01")
  = Some (datetime.mk 2024 1 1 0 0 0)
  /\ datetime.strptime (chars "2024-01-1" ++ [0x663]%N)
     = Some (datetime.mk 2024 1 13 0 0 0)
  /\ datetime.strptime (chars "2024-0" ++ [0x661]%N ++ chars "-01") = None
  /\ datetime.strptime (chars "2024-01-3" ++ [0xff11]%N) = None
  /\ map interval_of
       (query_posts
          (events
             (find_ids ([0xff12; 0xff10; 0xff12; 0xff14]%N ++ chars "-01-01")
                (chars "2024-01-1" ++ [0x663]%N) "recording_ids.csv"
                (sample_world [ok_reply (JObj [])] ∅))))
     = [Some (JStr "2024-01-01T00:00:00Z/2024-01-14T00:00:00Z")].
Proof. repeat split; vm_compute; reflexivity. Qed.


(** ** C6: the row of an exported recording *)

(** The member [k] of the object under [o], when there is one. *)
Definition sub (o : option json) (k : string) : option json :=
  match o with
  | Some (JObj m) => Py.assoc k m
  | _ => None
  end.

Definition object_or_absent (o : option json) : Prop :=
  match o with
  | None | Some (JObj _) => True
  | Some _ => False
  end.

Definition sentinel : json := JStr "N/A".

Definition or_sentinel (o : option json) : json := default sentinel o.

(** The row of a recording, written from what the payload holds. *)
Definition expected_row (conversation_id : json)
  (members : list (string * json)) : row :=
  let field k := Py.assoc k members in
  [CVal conversation_id;
   CVal (or_sentinel (field "id"));
   CVal (or_sentinel (field "startTime"));
   CVal (or_sentinel (field "endTime"));
   CVal (match field "media" with
         | Some v => v
         | None => or_sentinel (field "mediaType")
         end);
   CVal (or_sentinel (field "fileState"));
   CVal (match sub (sub (field "mediaUris") "0") "mediaUri" with
         | Some uri => uri
         | None => or_sentinel (sub (field "download") "url")
         end)].

(** C6: for every recording object whose [mediaUris],
    [mediaUris["0"]] and [download] members are objects when present,
    the row holds the conversation identifier, then [id], [startTime],
    [endTime] and [fileState] each as found or else the sentinel, the
    media type taken from [media] if present, else from [mediaType], else
    the sentinel, and the download address taken from
    [mediaUris["0"]["mediaUri"]] if present, else from [download.url],
    else the sentinel. *)
Theorem detail_row_fields (conversation_id : json)
  (members : list (string * json)) :
  object_or_absent (Py.assoc "mediaUris" members) ->
  object_or_absent (sub (Py.assoc "mediaUris" members) "0") ->
  object_or_absent (Py.assoc "download" members) ->
  detail_row conversation_id (JObj members)
  = Ok (expected_row conversation_id members).
Proof.
  intros Hu H0 Hd. unfold detail_row, expected_row, or_sentinel, sentinel.
  cbn [Py.get].
  destruct (Py.assoc "mediaUris" members) as [[| | | | | mu] |];
    cbn in Hu, H0; try contradiction;
  destruct (Py.assoc "download" members) as [[| | | | | dl] |];
    cbn in Hd; try contradiction; cbn;
  try (destruct (Py.assoc "0" mu) as [[| | | | | u0] |];
       cbn in H0; try contradiction; cbn);
  repeat match goal with
         | |- context [ Py.assoc ?k ?m ] => destruct (Py.assoc k m)
         end; reflexivity.
Qed.

Lemma detail_row_fields_full :
  detail_row (JStr "c1")
    (JObj [("id", JStr "r1"); ("startTime", JStr "2024-01-01T10:00:00Z");
           ("endTime", JStr "2024-01-01T10:05:00Z");
           ("mediaType", JStr "audio"); ("fileState", JStr "AVAILABLE");
           ("mediaUris", JObj [("0", JObj [("mediaUri", JStr "https://m/0")])])])
  = Ok [CVal (JStr "c1"); CVal (JStr "r1");
        CVal (JStr "2024-01-01T10:00:00Z"); CVal (JStr "2024-01-01T10:05:00Z");
        CVal (JStr "audio"); CVal (JStr "AVAILABLE");
        CVal (JStr "https://m/0")].
Proof.
  exact (detail_row_fields (JStr "c1")
           [("id", JStr "r1"); ("startTime", JStr "2024-01-01T10:00:00Z");
            ("endTime", JStr "2024-01-01T10:05:00Z");
            ("mediaType", JStr "audio"); ("fileState", JStr "AVAILABLE");
            ("mediaUris", JObj [("0", JObj [("mediaUri", JStr "https://m/0")])])]
           I I I).
Defined.

(** C6 as stated fails twice on one payload: [mediaType] is present but
    the row shows the value of [media], and key ["0"] of [mediaUris] is
    present but the address comes from [download.url]. *)
Lemma detail_row_other_sources :
  Py.assoc "mediaType"
    [("mediaType", JStr "audio"); ("media", JStr "screen");
     ("mediaUris", JObj [("0", JObj [])]);
     ("download", JObj [("url", JStr "https://d/1")])] = Some (JStr "audio")
  /\ sub (Some (JObj [("0", JObj [])])) "0" = Some (JObj [])
  /\ detail_row (JStr "c1")
       (JObj [("mediaType", JStr "audio"); ("media", JStr "screen");
              ("mediaUris", JObj [("0", JObj [])]);
              ("download", JObj [("url", JStr "https://d/1")])])
     = Ok [CVal (JStr "c1"); CVal (JStr "N/A"); CVal (JStr "N/A");
           CVal (JStr "N/A"); CVal (JStr "screen"); CVal (JStr "N/A");
           CVal (JStr "https://d/1")].
Proof. repeat split; reflexivity. Qed.

(** A payload outside the theorem's hypotheses is not exported at all. *)
Example detail_row_null_uris :
  detail_row (JStr "c1") (JObj [("id", JStr "r1"); ("mediaUris", JNull)])
  = Raise AttributeError.
Proof. reflexivity. Qed.

(** ** C2: the three shapes of a response *)

(** C2: an array is used as it is; an object with an
    [entities] array yields that array; an object with no [entities]
    member is wrapped as a one-element list, and so is any value that is
    neither object nor array; an object whose [entities] member is not an
    array yields the one-element list of that member.  The outcome is a
    list in every case. *)
Theorem normalize_shapes (response_json : json) :
  normalize response_json
  = match response_json with
    | JArr items => JArr items
    | JObj members =>
        match Py.assoc "entities" members with
        | Some (JArr items) => JArr items
        | Some other => JArr [other]
        | None => JArr [response_json]
        end
    | _ => JArr [response_json]
    end
  /\ exists items, normalize response_json = JArr items.
Proof.
  unfold normalize.
  destruct response_json as [| b | z | s | items | members]; cbn;
    try (split; [reflexivity | eexists; reflexivity]).
  destruct (Py.assoc "entities" members) as [[| b | z | s | items | m'] |];
    cbn; split; try reflexivity; eexists; reflexivity.
Qed.

(** The normalization law of the specification. *)
Example normalize_law (r1 r2 : json) (members : list (string * json)) :
  normalize (JObj [("entities", JArr [r1; r2])]) = JArr [r1; r2]
  /\ normalize (JArr [r1; r2]) = JArr [r1; r2]
  /\ (Py.assoc "entities" members = None ->
      normalize (JObj members) = JArr [JObj members]).
Proof.
  repeat split. intros H. unfold normalize. rewrite H. reflexivity.
Qed.

(** C2 as stated fails for an object whose [entities] member is not an
    array: not the object is wrapped, its member is. *)
Lemma normalize_entities_not_array :
  normalize (JObj [("entities", JStr "none"); ("total", JInt 0)])
  = JArr [JStr "none"]
  /\ normalize (JObj [("entities", JStr "none"); ("total", JInt 0)])
     <> JArr [JObj [("entities", JStr "none"); ("total", JInt 0)]].
Proof. split; [reflexivity | discriminate]. Qed.

(** ** Running a computation step by step *)

(** The run [r] after the events [evs]. *)
Definition prepend {A} (evs : list event) (r : run A) : run A :=
  mkRun (value r) (after r) (evs ++ events r).

Lemma bind_run_ok {A B} (c : M A) (k : A -> M B) w a w' evs :
  c w = mkRun (Ok a) w' evs -> bind c k w = prepend evs (k a w').
Proof. intros E. unfold bind. rewrite E. reflexivity. Qed.

Lemma bind_run_raise {A B} (c : M A) (k : A -> M B) w e w' evs :
  c w = mkRun (Raise e) w' evs -> bind c k w = mkRun (Raise e) w' evs.
Proof. intros E. unfold bind. rewrite E. reflexivity. Qed.

Lemma prepend_nil {A} (r : run A) : prepend [] r = r.
Proof. destruct r. reflexivity. Qed.

Lemma prepend_prepend {A} evs evs' (r : run A) :
  prepend evs (prepend evs' r) = prepend (evs ++ evs') r.
Proof. unfold prepend. cbn. now rewrite app_assoc. Qed.

Lemma prepend_mkRun {A} evs (v : res A) w evs' :
  prepend evs (mkRun v w evs') = mkRun v w (evs ++ evs').
Proof. reflexivity. Qed.

Lemma value_prepend {A} evs (r : run A) : value (prepend evs r) = value r.
Proof. reflexivity. Qed.

Lemma after_prepend {A} evs (r : run A) : after (prepend evs r) = after r.
Proof. reflexivity. Qed.

Lemma events_prepend {A} evs (r : run A) :
  events (prepend evs r) = evs ++ events r.
Proof. reflexivity. Qed.

Lemma bind_ret {A B} (a : A) (k : A -> M B) w : bind (ret a) k w = k a w.
Proof. rewrite (bind_run_ok _ _ _ a w []) by reflexivity. apply prepend_nil. Qed.

Lemma bind_lift_raise {A B} (e : exn) (k : A -> M B) w :
  bind (lift (Raise e)) k w = mkRun (Raise e) w [].
Proof. reflexivity. Qed.

Lemma bind_raise {A B} (e : exn) (k : A -> M B) w :
  bind (raise e) k w = mkRun (Raise e) w [].
Proof. reflexivity. Qed.

Lemma bind_get_self {B} (k : finder -> M B) w :
  bind get_self k w = k (self w) w.
Proof.
  rewrite (bind_run_ok _ _ _ (self w) w []) by reflexivity.
  apply prepend_nil.
Qed.

Lemma bind_get_headers {B} (k : json -> M B) w :
  bind get_headers k w = k (headers (self w)) w.
Proof.
  rewrite (bind_run_ok _ _ _ (headers (self w)) w []) by reflexivity.
  apply prepend_nil.
Qed.

Lemma bind_emit {B} ev (k : unit -> M B) w :
  bind (emit ev) k w = prepend [ev] (k tt w).
Proof. apply bind_run_ok. reflexivity. Qed.

Lemma bind_print {B} t a (k : unit -> M B) w :
  bind (print t a) k w = prepend [Print t a] (k tt w).
Proof. apply bind_emit. Qed.

Lemma bind_logging {B} lv t a (k : unit -> M B) w :
  bind (logging lv t a) k w = prepend [Log lv t a] (k tt w).
Proof. apply bind_emit. Qed.

Lemma bind_sleep {B} ms (k : unit -> M B) w :
  bind (sleep ms) k w = prepend [Sleep ms] (k tt w).
Proof. apply bind_emit. Qed.

(** The world once the next reply is taken. *)
Definition consume (w : world) : world :=
  mkWorld (snd (next_reply w)) (files w) (self w) (total_recordings w)
    (locked w).

Definition reply (w : world) : outcome := fst (next_reply w).

Lemma requests_run m ep hdrs payload w :
  requests m ep hdrs payload w
  = mkRun (match reply w with
           | ConnectionFails => Raise RequestException
           | Replies r => Ok r
           end)
      (consume w) [Request m ep hdrs payload (reply w)].
Proof.
  unfold requests, consume, reply. destruct (next_reply w). reflexivity.
Qed.

Lemma bind_requests_ok {B} m ep hdrs payload (k : response -> M B) w r :
  reply w = Replies r ->
  bind (requests m ep hdrs payload) k w
  = prepend [Request m ep hdrs payload (Replies r)] (k r (consume w)).
Proof.
  intros E. apply bind_run_ok. rewrite requests_run, E. reflexivity.
Qed.

Lemma bind_requests_fails {B} m ep hdrs payload (k : response -> M B) w :
  reply w = ConnectionFails ->
  bind (requests m ep hdrs payload) k w
  = mkRun (Raise RequestException) (consume w)
      [Request m ep hdrs payload ConnectionFails].
Proof.
  intros E. apply bind_run_raise. rewrite requests_run, E. reflexivity.
Qed.

Lemma reply_cons w o rest : net w = o :: rest -> reply w = o.
Proof. unfold reply, next_reply. now intros ->. Qed.

Lemma consume_cons w o rest :
  net w = o :: rest ->
  consume w
  = mkWorld rest (files w) (self w) (total_recordings w) (locked w).
Proof. unfold consume, next_reply. now intros ->. Qed.

Lemma try_run_ok {A} (c : M A) catches h w a w' evs :
  c w = mkRun (Ok a) w' evs -> try_except c catches h w = mkRun (Ok a) w' evs.
Proof. intros E. unfold try_except. rewrite E. reflexivity. Qed.

Lemma try_run_caught {A} (c : M A) catches h w e w' evs :
  c w = mkRun (Raise e) w' evs -> catches e = true ->
  try_except c catches h w = prepend evs (h e w').
Proof. intros E Hc. unfold try_except. rewrite E. cbn. rewrite Hc. reflexivity. Qed.

Lemma try_run_passed {A} (c : M A) catches h w e w' evs :
  c w = mkRun (Raise e) w' evs -> catches e = false ->
  try_except c catches h w = mkRun (Raise e) w' evs.
Proof. intros E Hc. unfold try_except. rewrite E. cbn. rewrite Hc. reflexivity. Qed.

(** ** C8: a 403 on the conversation-detail lookup *)

(** C8: when the lookup is answered with status 403, the call returns
    [None] and raises nothing, prints the warning with the status and
    the response text, and makes that one request only: the reply is
    the only one taken from the network, and files and session are as
    before. *)
Theorem get_conversation_details_403 (conversation_id : json) (w : world)
  (r : response) (rest : list outcome) :
  net w = Replies r :: rest ->
  status_code r = 403 ->
  let run := get_conversation_details conversation_id w in
  value run = Ok JNull
  /\ events run
     = [Request GET (ConversationDetails conversation_id) (headers (self w))
          None (Replies r);
        Print "Warning: Not authorized to access conversation details. Status: {response.status_code}"
          [AVal (JInt 403)];
        Print "Response Text: {response.text}" [AVal (JStr (text r))]]
  /\ net (after run) = rest
  /\ files (after run) = files w
  /\ self (after run) = self w.
Proof.
  intros Hnet Hstatus run. subst run.
  assert (E : get_conversation_details conversation_id w
              = mkRun (Ok JNull)
                  (mkWorld rest (files w) (self w) (total_recordings w)
                     (locked w))
                  [Request GET (ConversationDetails conversation_id)
                     (headers (self w)) None (Replies r);
                   Print "Warning: Not authorized to access conversation details. Status: {response.status_code}"
                     [AVal (JInt 403)];
                   Print "Response Text: {response.text}"
                     [AVal (JStr (text r))]]).
  { unfold get_conversation_details.
    eapply try_run_ok.
    rewrite bind_get_headers.
    rewrite (bind_requests_ok _ _ _ _ _ _ r) by exact (reply_cons _ _ _ Hnet).
    rewrite Hstatus. cbn [Z.eqb Pos.eqb].
    rewrite bind_print, bind_print, (consume_cons _ _ _ Hnet).
    reflexivity. }
  rewrite E. repeat split.
Qed.

Lemma get_conversation_details_403_sample :
  let w := sample_world [status_reply 403; ok_reply (JObj [])] ∅ in
  let run := get_conversation_details (JStr "c1") w in
  value run = Ok JNull
  /\ events run
     = [Request GET (ConversationDetails (JStr "c1")) (JStr "token") None
          (status_reply 403);
        Print "Warning: Not authorized to access conversation details. Status: {response.status_code}"
          [AVal (JInt 403)];
        Print "Response Text: {response.text}" [AVal (JStr "")]]
  /\ net (after run) = [ok_reply (JObj [])]
  /\ files (after run) = files w
  /\ self (after run) = self w.
Proof.
  exact (get_conversation_details_403 (JStr "c1")
           (sample_world [status_reply 403; ok_reply (JObj [])] ∅)
           (mkResponse 403 (JObj []) "" NotJSON) [ok_reply (JObj [])]
           eq_refl eq_refl).
Defined.

(** ** Files across a run *)

Definition content (w : world) (path : string) : list row :=
  default [] (files w !! path).

Definition with_file (w : world) (path : string) (rows : list row) : world :=
  mkWorld (net w) (<[path := rows]> (files w)) (self w) (total_recordings w)
    (locked w).

Definition missing_or_empty (o : option (list row)) : bool :=
  match o with
  | None | Some [] => true
  | Some _ => false
  end.

(** The rows of the records up to the first one that cannot be turned
    into a row, and the exception that one ends with. *)
Fixpoint exported (conversation_id : json) (recordings : list json)
  : list row * option exn :=
  match recordings with
  | [] => ([], None)
  | recording :: rest =>
      match detail_row conversation_id recording with
      | Raise e => ([], Some e)
      | Ok r =>
          let '(rows, e) := exported conversation_id rest in (r :: rows, e)
      end
  end.

Definition outcome_of (e : option exn) : res unit :=
  match e with
  | None => Ok tt
  | Some e => Raise e
  end.

Lemma with_file_same w path rows :
  files w !! path = Some rows -> with_file w path rows = w.
Proof.
  intros H. destruct w as [n f s t]. unfold with_file. cbn in *.
  f_equal. now apply insert_id.
Qed.

Lemma with_file_twice w path rows rows' :
  with_file (with_file w path rows) path rows' = with_file w path rows'.
Proof. unfold with_file. cbn. f_equal. apply insert_insert_eq. Qed.

Lemma content_with_file w path rows : content (with_file w path rows) path = rows.
Proof. unfold content, with_file. cbn. now rewrite lookup_insert_eq. Qed.

Lemma writerow_run path r w :
  writerow path r w = mkRun (Ok tt) (with_file w path (content w path ++ [r])) [].
Proof. reflexivity. Qed.

Lemma write_rows_run conversation_id out recordings : forall w,
  is_Some (files w !! out) ->
  for_each recordings
    (fun recording =>
       r <- lift (detail_row conversation_id recording);; writerow out r) w
  = mkRun (outcome_of (snd (exported conversation_id recordings)))
      (with_file w out
         (content w out ++ fst (exported conversation_id recordings))) [].
Proof.
  induction recordings as [| rec rest IH]; intros w [c Hc].
  - cbn. unfold ret, content. rewrite Hc. cbn. rewrite app_nil_r.
    now rewrite (with_file_same w out c Hc).
  - cbn [for_each exported].
    destruct (detail_row conversation_id rec) as [r | e] eqn:Er.
    + erewrite bind_run_ok; cycle 1.
      { rewrite bind_lift_ok. apply writerow_run. }
      rewrite prepend_nil, IH.
      2:{ unfold with_file. cbn. rewrite lookup_insert_eq. eauto. }
      destruct (exported conversation_id rest) as [rows e'] eqn:Ex. cbn.
      rewrite with_file_twice, content_with_file, <- app_assoc. reflexivity.
    + erewrite bind_run_raise; cycle 1.
      { rewrite bind_lift_raise. reflexivity. }
      cbn. unfold content. rewrite Hc. cbn. rewrite app_nil_r.
      now rewrite (with_file_same w out c Hc).
Qed.

Definition added_message (conversation_id : json) (recordings : list json)
  (out : string) : event :=
  Print "Added {len(recordings)} recordings for conversation {conversation_id} to {output_file}"
    [AVal (JInt (Z.of_nat (length recordings))); AVal conversation_id;
     AVal (JStr out)].

Lemma open_a_run out w :
  open_a out w
  = match open_error w out with
    | Some e => mkRun (Raise e) w []
    | None => mkRun (Ok tt) (with_file w out (content w out)) []
    end.
Proof.
  unfold open_a, content. destruct (open_error w out); [reflexivity |].
  destruct (files w !! out) as [c |] eqn:Hc; cbn.
  - now rewrite (with_file_same w out c Hc).
  - reflexivity.
Qed.

Lemma open_w_run out w :
  open_w out w
  = match open_error w out with
    | Some e => mkRun (Raise e) w []
    | None => mkRun (Ok tt) (with_file w out []) []
    end.
Proof. unfold open_w. destruct (open_error w out); reflexivity. Qed.

(** What [append_records] leaves, in full. *)
Lemma append_records_run conversation_id recordings out w :
  append_records conversation_id recordings out w
  = match open_error w out with
    | Some e => mkRun (Raise e) w []
    | None =>
        mkRun (outcome_of (snd (exported conversation_id recordings)))
          (with_file w out
             (content w out
              ++ (if missing_or_empty (files w !! out)
                  then [detail_header] else [])
              ++ fst (exported conversation_id recordings)))
          (match snd (exported conversation_id recordings) with
           | None => [added_message conversation_id recordings out]
           | Some _ => []
           end)
    end.
Proof.
  unfold append_records.
  erewrite bind_run_ok; [| reflexivity]. rewrite prepend_nil.
  erewrite bind_run_ok; [| reflexivity]. rewrite prepend_nil.
  pose proof (open_a_run out w) as Hopen.
  destruct (open_error w out) as [e |].
  { erewrite bind_run_raise; [| exact Hopen]. reflexivity. }
  erewrite bind_run_ok; [| exact Hopen]. rewrite prepend_nil.
  set (w1 := with_file w out (content w out)).
  assert (Hempty : negb (bool_decide (is_Some (files w !! out)))
                   || match files w !! out with
                      | Some [] => true
                      | _ => false
                      end
                   = missing_or_empty (files w !! out)).
  { destruct (files w !! out) as [[| r c] |]; reflexivity. }
  rewrite Hempty.
  set (hdr := if missing_or_empty (files w !! out) then [detail_header] else []).
  assert (Hhdr : (if missing_or_empty (files w !! out)
                  then writerow out detail_header else ret tt) w1
                 = mkRun (Ok tt) (with_file w out (content w out ++ hdr)) []).
  { subst hdr. destruct (missing_or_empty (files w !! out)).
    - rewrite writerow_run. subst w1.
      now rewrite with_file_twice, content_with_file.
    - rewrite app_nil_r. reflexivity. }
  erewrite bind_run_ok; [| exact Hhdr]. rewrite prepend_nil.
  assert (Hrows := write_rows_run conversation_id out recordings
                     (with_file w out (content w out ++ hdr))).
  rewrite with_file_twice, content_with_file in Hrows.
  specialize (Hrows ltac:(unfold with_file; cbn;
                          rewrite lookup_insert_eq; eauto)).
  rewrite <- app_assoc in Hrows.
  destruct (snd (exported conversation_id recordings)) as [e |]; cbn in Hrows.
  - erewrite bind_run_raise; [| exact Hrows]. reflexivity.
  - erewrite bind_run_ok; [| exact Hrows]. reflexivity.
Qed.

(** *** Relations between the world before and after *)

Section Steps.

Variable R : world -> world -> Prop.
Hypothesis R_refl : forall w, R w w.
Hypothesis R_trans : forall a b c, R a b -> R b c -> R a c.
Hypothesis R_consume : forall w, R w (consume w).
Hypothesis R_self :
  forall w f,
    R w (mkWorld (net w) (files w) f (total_recordings w) (locked w)).
Hypothesis R_total :
  forall w n, R w (mkWorld (net w) (files w) (self w) n (locked w)).

(** [steps c]: in every world, the world after [c] is [R]-related to
    the world before. *)
Definition steps {A} (c : M A) : Prop := forall w, R w (after (c w)).

Lemma steps_same {A} (c : M A) :
  (forall w, after (c w) = w) -> steps c.
Proof. intros H w. rewrite H. apply R_refl. Qed.

Lemma steps_ret {A} (a : A) : steps (ret a).
Proof. apply steps_same. reflexivity. Qed.

Lemma steps_raise {A} e : steps (@raise A e).
Proof. apply steps_same. reflexivity. Qed.

Lemma steps_lift {A} (r : res A) : steps (lift r).
Proof. apply steps_same. reflexivity. Qed.

Lemma steps_emit ev : steps (emit ev).
Proof. apply steps_same. reflexivity. Qed.

Lemma steps_requests m ep hdrs payload : steps (requests m ep hdrs payload).
Proof. intros w. rewrite requests_run. apply R_consume. Qed.

Lemma steps_set_self f : steps (set_self f).
Proof. intros w. apply R_self. Qed.

Lemma steps_set_total n : steps (set_total n).
Proof. intros w. apply R_total. Qed.

Lemma steps_bind {A B} (c : M A) (k : A -> M B) :
  steps c -> (forall a, steps (k a)) -> steps (bind c k).
Proof.
  intros Hc Hk w. rewrite after_bind.
  destruct (value (c w)) as [a | e]; [| apply Hc].
  eapply R_trans; [apply Hc | apply Hk].
Qed.

Lemma steps_try {A} (c : M A) catches h :
  steps c -> (forall e, steps (h e)) -> steps (try_except c catches h).
Proof.
  intros Hc Hh w. unfold try_except.
  destruct (value (c w)) as [a | e]; [apply Hc |].
  destruct (catches e); [| apply Hc]. cbn.
  eapply R_trans; [apply Hc | apply Hh].
Qed.

Lemma steps_for_each {A} (l : list A) f :
  (forall x, steps (f x)) -> steps (for_each l f).
Proof.
  intros H. induction l as [| x l IH]; cbn; [apply steps_ret |].
  apply steps_bind; [apply H | intros _; exact IH].
Qed.

Lemma steps_if {A} (b : bool) (c1 c2 : M A) :
  steps c1 -> steps c2 -> steps (if b then c1 else c2).
Proof. destruct b; auto. Qed.

Ltac steps_simple :=
  repeat match goal with
    | |- steps (ret _) => apply steps_ret
    | |- steps (raise _) => apply steps_raise
    | |- steps (lift _) => apply steps_lift
    | |- steps (emit _) => apply steps_emit
    | |- steps (print _ _) => apply steps_emit
    | |- steps (logging _ _ _) => apply steps_emit
    | |- steps (sleep _) => apply steps_emit
    | |- steps (requests _ _ _ _) => apply steps_requests
    | |- steps get_self => apply steps_same; reflexivity
    | |- steps get_headers => apply steps_same; reflexivity
    | |- steps get_total => apply steps_same; reflexivity
    | |- steps (os_path_exists _) => apply steps_same; reflexivity
    | |- steps (size_is_zero _) => apply steps_same; reflexivity
    | |- steps (set_self _) => apply steps_set_self
    | |- steps (set_total _) => apply steps_set_total
    | |- steps (set_token _) => unfold set_token
    | |- steps (raise_for_status _) => unfold raise_for_status
    | |- steps (response_json ?r) => unfold response_json
    | |- steps (bind _ _) => apply steps_bind; [| intros ?]
    | |- steps (try_except _ _ _) => apply steps_try; [| intros ?]
    | |- steps (if _ then _ else _) => apply steps_if
    end.

Lemma steps_authenticate_attempts attempts max_retries data :
  steps (authenticate_attempts attempts max_retries data).
Proof.
  induction attempts as [| attempt rest IH]; cbn [authenticate_attempts].
  - apply steps_ret.
  - apply steps_bind.
    + steps_simple.
    + intros b. destruct b; [apply steps_ret | exact IH].
Qed.

Lemma steps_authenticate : steps authenticate.
Proof.
  unfold authenticate. apply steps_try; [| intros e; steps_simple].
  apply steps_bind; [steps_simple | intros f].
  apply steps_authenticate_attempts.
Qed.

(** The file the relation watches, and the two ways to write to it. *)
Variable out : string.
Hypothesis R_open_a : steps (open_a out).
Hypothesis R_writerow : forall r, steps (writerow out r).

Lemma steps_append_records cid recordings :
  steps (append_records cid recordings out).
Proof.
  unfold append_records. steps_simple; try apply R_open_a; try apply R_writerow.
  apply steps_for_each. intros rec. steps_simple. apply R_writerow.
Qed.

Lemma steps_fetch_attempts_2 attempts max_retries cid recordings :
  steps (fetch_attempts_2 attempts max_retries cid out recordings).
Proof.
  induction attempts as [| attempt rest IH]; cbn [fetch_attempts_2].
  - apply steps_ret.
  - apply steps_bind.
    + steps_simple; try apply steps_append_records; apply steps_authenticate.
    + intros [v | v |]; [apply steps_ret | apply steps_ret | exact IH].
Qed.

Lemma steps_find_recordings_2 cid :
  steps (find_recordings_by_conversation_id_2 cid out).
Proof.
  unfold find_recordings_by_conversation_id_2.
  apply steps_try; [| intros e; steps_simple].
  apply steps_bind; [steps_simple | intros f].
  apply steps_bind; [| intros _; apply steps_fetch_attempts_2].
  apply steps_if; [apply steps_authenticate | apply steps_ret].
Qed.

Lemma steps_process_conversation conv :
  steps (process_conversation out conv).
Proof.
  unfold process_conversation. steps_simple.
  apply steps_for_each. intros rec. unfold write_recording. steps_simple.
  apply R_writerow.
Qed.

Lemma steps_process_conversations convs :
  steps (for_each convs (process_conversation out)).
Proof. apply steps_for_each. intros conv. apply steps_process_conversation. Qed.

Lemma steps_fetch_page body page : steps (fetch_page out body page).
Proof.
  unfold fetch_page. steps_simple. apply steps_process_conversations.
Qed.

Lemma steps_page_loop fuel : forall body page,
  steps (page_loop fuel out body page).
Proof.
  induction fuel as [| fuel IH]; intros body page; cbn [page_loop].
  - apply steps_ret.
  - apply steps_bind; [apply steps_fetch_page |].
    intros [| body' page']; [apply steps_ret | apply IH].
Qed.

End Steps.

(** The file at [out] only grows, and no other file changes. *)
Definition grows (out : string) (w w' : world) : Prop :=
  (forall p, p <> out -> files w' !! p = files w !! p)
  /\ content w out `prefix_of` content w' out
  /\ (is_Some (files w !! out) -> is_Some (files w' !! out)).

Lemma grows_refl out w : grows out w w.
Proof. repeat split; auto. Qed.

Lemma grows_trans out a b c : grows out a b -> grows out b c -> grows out a c.
Proof.
  intros (H1 & H2 & H3) (H4 & H5 & H6). repeat split.
  - intros p Hp. rewrite H4, H1; auto.
  - etransitivity; eassumption.
  - auto.
Qed.

Lemma grows_open_a out : steps (grows out) (open_a out).
Proof.
  intros w. rewrite open_a_run.
  destruct (open_error w out); cbn [after]; [apply grows_refl |].
  repeat split.
  - intros p Hp. unfold with_file. cbn. now rewrite lookup_insert_ne.
  - now rewrite content_with_file.
  - unfold with_file. cbn. rewrite lookup_insert_eq. eauto.
Qed.

Lemma grows_writerow out r : steps (grows out) (writerow out r).
Proof.
  intros w. rewrite writerow_run. cbn [after]. repeat split.
  - intros p Hp. unfold with_file. cbn. now rewrite lookup_insert_ne.
  - rewrite content_with_file. apply prefix_app_r. reflexivity.
  - unfold with_file. cbn. rewrite lookup_insert_eq. eauto.
Qed.

Lemma grows_same_files out w w' : files w' = files w -> grows out w w'.
Proof. intros H. unfold grows, content. rewrite H. repeat split; auto. Qed.

Ltac grows_side :=
  first [ apply grows_refl | apply grows_trans
        | apply grows_open_a | apply grows_writerow
        | intros; apply grows_same_files; reflexivity ].

Lemma grows_find_recordings_2 cid out :
  steps (grows out) (find_recordings_by_conversation_id_2 cid out).
Proof. apply steps_find_recordings_2; grows_side. Qed.

(** The replies to come only get fewer. *)
Definition shrinks (w w' : world) : Prop :=
  (length (net w') <= length (net w))%nat.

Lemma shrinks_consume w : shrinks w (consume w).
Proof.
  unfold shrinks, consume, next_reply. destruct (net w); cbn; lia.
Qed.

Lemma shrinks_process_conversations out convs :
  steps shrinks (for_each convs (process_conversation out)).
Proof.
  apply steps_process_conversations; unfold steps, shrinks; intros;
    try rewrite writerow_run; cbn; try lia.
  apply shrinks_consume.
Qed.

(** ** C4: the header row over a sequence of exports *)

(** A sequence of exports to one path.  As in the program, where the
    export runs inside the [try] of the detail fetch, an exception ends
    the export it occurs in and the next one goes ahead. *)
Definition append_all (calls : list (json * list json)) (out : string)
  : M unit :=
  for_each calls
    (fun call =>
       try_except (append_records (fst call) (snd call) out)
         any_exception (fun _ => ret tt)).

Definition rows_of (call : json * list json) : list row :=
  fst (exported (fst call) (snd call)).


Definition header_if_new (o : option (list row)) : list row :=
  if missing_or_empty o then [detail_header] else [].


Lemma append_call_run call out w :
  let r := try_except (append_records (fst call) (snd call) out)
             any_exception (fun _ => ret tt) w in
  value r = Ok tt
  /\ after r = match open_error w out with
               | Some _ => w
               | None =>
                   with_file w out
                     (content w out ++ header_if_new (files w !! out)
                      ++ rows_of call)
               end.
Proof.
  cbn zeta. unfold try_except. rewrite append_records_run.
  unfold rows_of, header_if_new.
  destruct (open_error w out); [split; reflexivity |].
  destruct (snd (exported (fst call) (snd call))); cbn; split; reflexivity.
Qed.

Lemma not_empty_after w out rows :
  missing_or_empty
    (files (with_file w out
              (content w out ++ header_if_new (files w !! out) ++ rows))
     !! out) = false.
Proof.
  unfold with_file, content, header_if_new. cbn. rewrite lookup_insert_eq.
  destruct (files w !! out) as [[| r c] |]; reflexivity.
Qed.

(** A path that cannot be opened: every export fails, nothing changes. *)
Lemma append_all_locked calls out : forall w e,
  open_error w out = Some e ->
  value (append_all calls out w) = Ok tt /\ after (append_all calls out w) = w.
Proof.
  induction calls as [| call calls IH]; intros w e He; [split; reflexivity |].
  unfold append_all. cbn [for_each]. fold (append_all calls out).
  destruct (append_call_run call out w) as [Hv Ha]. cbn zeta in Hv, Ha.
  rewrite He in Ha. rewrite value_bind, after_bind, Hv, Ha.
  exact (IH w e He).
Qed.

Lemma append_all_grown calls out : forall w,
  open_error w out = None ->
  missing_or_empty (files w !! out) = false ->
  value (append_all calls out w) = Ok tt
  /\ after (append_all calls out w)
     = with_file w out (content w out ++ concat (map rows_of calls)).
Proof.
  induction calls as [| call calls IH]; intros w Ho Hw.
  - cbn. split; [reflexivity |]. rewrite app_nil_r.
    unfold content. destruct (files w !! out) as [c |] eqn:E; [| discriminate].
    cbn. symmetry. now apply with_file_same.
  - unfold append_all. cbn [for_each]. fold (append_all calls out).
    destruct (append_call_run call out w) as [Hv Ha]. cbn zeta in Hv, Ha.
    rewrite Ho in Ha. rewrite value_bind, after_bind, Hv, Ha.
    unfold header_if_new. rewrite Hw. cbn [app].
    set (w1 := with_file w out (content w out ++ rows_of call)).
    assert (Hw1 : missing_or_empty (files w1 !! out) = false).
    { pose proof (not_empty_after w out (rows_of call)) as H.
      unfold header_if_new in H. rewrite Hw in H. exact H. }
    destruct (IH w1 Ho Hw1) as [Hv1 Ha1]. split; [exact Hv1 |].
    rewrite Ha1. unfold w1.
    rewrite with_file_twice, content_with_file. cbn [map concat].
    now rewrite app_assoc.
Qed.

Lemma append_all_result calls out w :
  open_error w out = None ->
  value (append_all calls out w) = Ok tt
  /\ after (append_all calls out w)
     = match calls with
       | [] => w
       | _ => with_file w out
                (content w out ++ header_if_new (files w !! out)
                 ++ concat (map rows_of calls))
       end.
Proof.
  intros Ho. destruct calls as [| call calls]; [split; reflexivity |].
  unfold append_all. cbn [for_each]. fold (append_all calls out).
  destruct (append_call_run call out w) as [Hv Ha]. cbn zeta in Hv, Ha.
  rewrite Ho in Ha. rewrite value_bind, after_bind, Hv, Ha.
  set (w1 := with_file w out
               (content w out ++ header_if_new (files w !! out)
                ++ rows_of call)).
  destruct (append_all_grown calls out w1 Ho (not_empty_after w out _))
    as [Hv1 Ha1].
  split; [exact Hv1 |]. rewrite Ha1. unfold w1.
  rewrite with_file_twice, content_with_file. cbn [map concat].
  now rewrite <- !app_assoc.
Qed.

Lemma get_raises v k d e : Py.get v k d = Raise e -> e = AttributeError.
Proof. destruct v; cbn; congruence. Qed.

Lemma detail_row_raises cid recording e :
  detail_row cid recording = Raise e -> e = AttributeError.
Proof.
  unfold detail_row. intros H.
  repeat match type of H with
         | context [ Py.get ?v ?k ?d ] =>
             let E := fresh "E" in
             destruct (Py.get v k d) eqn:E;
             [| apply get_raises in E; congruence ];
             cbv beta iota in H
         end.
  discriminate.
Qed.

Lemma exported_raises cid recordings e :
  snd (exported cid recordings) = Some e -> e = AttributeError.
Proof.
  induction recordings as [| rec recs IH]; [discriminate |].
  cbn. destruct (detail_row cid rec) as [row | e0] eqn:Erow.
  - destruct (exported cid recs) as [rows e1]. cbn in *. exact IH.
  - cbn. intros [= <-]. exact (detail_row_raises _ _ _ Erow).
Qed.



Definition sample_row (conversation_id recording_id : string) : row :=
  [CVal (JStr conversation_id); CVal (JStr recording_id);
   CVal (JStr "N/A"); CVal (JStr "N/A"); CVal (JStr "N/A");
   CVal (JStr "N/A"); CVal (JStr "N/A")].


(** C4 as stated fails for a record that cannot be turned into a row:
    of three records the first is written, the second, whose [mediaUris]
    is [null], ends the export, and the third is never looked at; the
    file holds the header and one data row, not three. *)
Lemma header_written_once_bad_record :
  let records := [JObj [("id", JStr "r1")];
                  JObj [("id", JStr "r2"); ("mediaUris", JNull)];
                  JObj [("id", JStr "r3")]] in
  let run := append_all [(JStr "c1", records)] "recording_ids.csv"
               (sample_world [] ∅) in
  length records = 3%nat
  /\ value run = Ok tt
  /\ content (after run) "recording_ids.csv"
     = [detail_header; sample_row "c1" "r1"].
Proof. cbn zeta. repeat split; vm_compute; reflexivity. Qed.

(** On a fresh path, batches of any sizes give one header and then all
    rows. *)
Example header_on_fresh_path :
  let run := append_all [(JStr "c1", [JObj [("id", JStr "r1")]]);
                         (JStr "c2", []);
                         (JStr "c3", [JObj [("id", JStr "r2")];
                                      JObj [("id", JStr "r3")]])]
               "recording_ids.csv" (sample_world [] ∅) in
  content (after run) "recording_ids.csv"
  = [detail_header; sample_row "c1" "r1"; sample_row "c3" "r2";
     sample_row "c3" "r3"].
Proof. vm_compute. reflexivity. Qed.

(** A path that cannot be opened is left alone. *)
Example header_on_locked_path :
  let w := mkWorld [] ∅ sample_finder 0 {[ "exports/recording_ids.csv" ]} in
  after (append_all [(JStr "c1", [JObj [("id", JStr "r1")]])]
           "exports/recording_ids.csv" w) = w.
Proof. vm_compute. reflexivity. Qed.


(** ** C7: which writes keep what the file held *)

Definition without_file (w : world) (path : string) : world :=
  mkWorld (net w) (delete path (files w)) (self w) (total_recordings w)
    (locked w).

(** [find_ids] from the first page on. *)
Definition find_ids_pages (ds de : datetime.t) (out : string) : M unit :=
  set_total 0;;
  (fun w => page_loop (enough_fuel w) out (query_body ds de) 1 w);;
  total <- get_total;;
  print "\nCompleted! Found {total_recordings} recordings." [AVal (JInt total)];;
  print "Results saved to {output_file}" [AVal (JStr out)].

Ltac stepping :=
  repeat (first [ rewrite bind_get_self | rewrite bind_get_headers
                | rewrite bind_print | rewrite bind_logging
                | rewrite bind_sleep | rewrite bind_lift_ok
                | rewrite bind_ret | rewrite prepend_prepend ];
          cbv beta).

(** Once the file is open, [find_ids] goes on from a file that holds
    the header and nothing else. *)
Lemma find_ids_from_unopened ds de out w t e :
  Py.slice10 (access_token (self w)) = Ok t ->
  open_error w out = Some e ->
  after (find_ids_from ds de out w) = w.
Proof.
  intros Ht Ho. unfold find_ids_from.
  stepping. rewrite Ht. stepping. cbv zeta. stepping.
  erewrite (bind_run_raise (open_w out));
    [| rewrite open_w_run, Ho; reflexivity].
  rewrite prepend_mkRun. reflexivity.
Qed.

Lemma find_ids_from_opened ds de out w t :
  Py.slice10 (access_token (self w)) = Ok t ->
  open_error w out = None ->
  exists evs,
    find_ids_from ds de out w
    = prepend evs
        (find_ids_pages ds de out (with_file w out [time_range_header])).
Proof.
  intros Ht Ho. unfold find_ids_from.
  stepping. rewrite Ht. stepping. cbv zeta. stepping.
  erewrite (bind_run_ok (open_w out)); [| rewrite open_w_run, Ho; reflexivity].
  erewrite (bind_run_ok (writerow out _)); [| apply writerow_run].
  rewrite with_file_twice, content_with_file. cbn [app].
  rewrite !prepend_prepend. eexists. reflexivity.
Qed.

Lemma with_file_without w out rows :
  with_file (without_file w out) out rows = with_file w out rows.
Proof.
  unfold with_file, without_file. cbn. f_equal. apply insert_delete_eq.
Qed.

Lemma grows_find_ids_pages ds de out :
  steps (grows out) (find_ids_pages ds de out).
Proof.
  assert (Hb : forall A B (c : M A) (k : A -> M B),
             steps (grows out) c -> (forall a, steps (grows out) (k a)) ->
             steps (grows out) (bind c k)).
  { intros A B. apply steps_bind. apply grows_trans. }
  assert (He : forall ev, steps (grows out) (emit ev)).
  { intros ev w. apply grows_refl. }
  unfold find_ids_pages.
  apply Hb; [intros w; apply grows_same_files; reflexivity | intros _].
  apply Hb.
  - intros w. apply (steps_page_loop (grows out)); grows_side.
  - intros _. apply Hb; [intros w; apply grows_refl | intros total].
    apply Hb; [apply He | intros _; apply He].
Qed.

Lemma grows_from_rows out w w' rows :
  files w !! out = Some rows -> grows out w w' ->
  exists more, files w' !! out = Some (rows ++ more).
Proof.
  intros Hm (_ & Hp & Hs). unfold content in Hp. rewrite Hm in Hp, Hs.
  cbn in Hp. destruct Hs as [c Hc]; [eauto |]. rewrite Hc in Hp |- *.
  cbn in Hp. destruct Hp as [more ->]. eauto.
Qed.

Lemma find_ids_pages_header ds de out w :
  exists rows,
    files (after (find_ids_pages ds de out
                    (with_file w out [time_range_header]))) !! out
    = Some (time_range_header :: rows).
Proof.
  apply (grows_from_rows out (with_file w out [time_range_header]) _
           [time_range_header]).
  - unfold with_file. cbn [files]. apply lookup_insert_eq.
  - apply grows_find_ids_pages.
Qed.

(** C7: the detail fetch only appends: after a call the
    file holds what it held, followed by what the call wrote, and no
    other file changes; two exports of the same records leave the rows
    twice under one header.  The time-range query does not append: it
    opens the file for writing, so the file afterwards starts with the
    time-range header and is the file the run would leave had there
    been none before.  Over a path that cannot be opened neither mode
    writes: the exports leave the file as it is, and the time-range
    query ends at [open] with the world as it was. *)
Theorem writes_by_mode :
  (forall conversation_id out w,
     let w' := after (find_recordings_by_conversation_id_2 conversation_id
                        out w) in
     content w out `prefix_of` content w' out
     /\ (forall p, p <> out -> files w' !! p = files w !! p))
  /\ (forall call out w,
        content (after (append_all [call; call] out w)) out
        = match open_error w out with
          | None =>
              content w out ++ header_if_new (files w !! out)
              ++ rows_of call ++ rows_of call
          | Some _ => content w out
          end)
  /\ (forall start_date end_date out w ds de t,
        datetime.strptime start_date = Some ds ->
        datetime.strptime end_date = Some de ->
        ymd de <> (9999, 12, 31) ->
        Py.slice10 (access_token (self w)) = Ok t ->
        let w' := after (find_ids start_date end_date out w) in
        match open_error w out with
        | None =>
            (exists rows, files w' !! out = Some (time_range_header :: rows))
            /\ files w' !! out
               = files (after (find_ids start_date end_date out
                                 (without_file w out))) !! out
        | Some _ => w' = w
        end).
Proof.
  split; [| split].
  - intros cid out w. cbn zeta.
    destruct (grows_find_recordings_2 cid out w) as (Ho & Hp & _).
    split; [exact Hp | exact Ho].
  - intros call out w. destruct (open_error w out) as [e |] eqn:Ho.
    { now rewrite (proj2 (append_all_locked [call; call] out w e Ho)). }
    destruct (append_all_result [call; call] out w Ho) as [_ Ha].
    rewrite Ha, content_with_file. cbn [map concat]. now rewrite app_nil_r.
  - intros s e out w ds de t Hs He Hne Ht. cbn zeta.
    destruct (strptime_date _ _ He) as (Hde & _).
    destruct (add_days_next_day de Hde Hne) as (de' & Hadd & _).
    rewrite !(find_ids_unfold _ _ _ ds de de' _ Hs He Hadd).
    destruct (open_error w out) as [ex |] eqn:Ho.
    { exact (find_ids_from_unopened ds de' out w t ex Ht Ho). }
    assert (Ho' : open_error (without_file w out) out = None) by exact Ho.
    destruct (find_ids_from_opened ds de' out w t Ht Ho) as [evs E].
    destruct (find_ids_from_opened ds de' out (without_file w out) t Ht Ho')
      as [evs' E'].
    rewrite E, E', !after_prepend, with_file_without.
    split; [apply find_ids_pages_header | reflexivity].
Qed.

Lemma writes_by_mode_sample :
  let old := [detail_header; sample_row "c1" "r1"] in
  let w := sample_world [ok_reply (JObj [])] {[ "recording_ids.csv" := old ]} in
  let w' := after (find_ids (chars "2024-01-01") (chars "2024-01-02") "recording_ids.csv" w) in
  (exists rows,
     files w' !! "recording_ids.csv" = Some (time_range_header :: rows))
  /\ files w' !! "recording_ids.csv"
     = files (after (find_ids (chars "2024-01-01") (chars "2024-01-02") "recording_ids.csv"
                       (without_file w "recording_ids.csv")))
       !! "recording_ids.csv".
Proof.
  exact (proj2 (proj2 writes_by_mode) (chars "2024-01-01") (chars "2024-01-02")
           "recording_ids.csv"
           (sample_world [ok_reply (JObj [])]
              {[ "recording_ids.csv" :=
                   [detail_header; sample_row "c1" "r1"] ]})
           (datetime.mk 2024 1 1 0 0 0) (datetime.mk 2024 1 2 0 0 0)
           (JStr "token") eq_refl eq_refl ltac:(discriminate) eq_refl).
Defined.

(** C7 as stated fails in time-range mode: the rows the file held are
    gone after the run. *)
Lemma find_ids_discards_rows :
  let old := [detail_header; sample_row "c1" "r1"] in
  let w := sample_world [ok_reply (JObj [])] {[ "recording_ids.csv" := old ]} in
  let w' := after (find_ids (chars "2024-01-01") (chars "2024-01-02") "recording_ids.csv" w) in
  files w !! "recording_ids.csv" = Some old
  /\ files w' !! "recording_ids.csv" = Some [time_range_header]
  /\ ~ old `prefix_of` [time_range_header].
Proof.
  cbn zeta. split; [reflexivity |]. split; [vm_compute; reflexivity |].
  intros [k Hk]. discriminate Hk.
Qed.

(** ** C9: the cooldown of the batch loop *)

Definition processing_template : string :=
  "Processing conversation {i}/{len(conversation_ids)}: {conversation_id}".

(** For each 5-second sleep of a run, the number of the identifier whose
    processing was announced last before it. *)
Fixpoint cooldown_marks (last : Z) (evs : list event) : list Z :=
  match evs with
  | [] => []
  | Log INFO t (AVal (JInt i) :: _) :: rest =>
      if String.eqb t processing_template then cooldown_marks i rest
      else cooldown_marks last rest
  | Sleep ms :: rest =>
      if ms =? seconds 5 then last :: cooldown_marks last rest
      else cooldown_marks last rest
  | _ :: rest => cooldown_marks last rest
  end.

(** Neither a 5-second sleep nor the announcement of an identifier. *)
Definition quiet (ev : event) : Prop :=
  match ev with
  | Sleep ms => ms <> seconds 5
  | Log _ t _ => t <> processing_template
  | _ => True
  end.

Lemma cooldown_marks_quiet evs : forall last rest,
  Forall quiet evs ->
  cooldown_marks last (evs ++ rest) = cooldown_marks last rest.
Proof.
  induction evs as [| ev evs IH]; intros last rest H; [reflexivity |].
  inversion H as [| ? ? Hev Hevs]; subst. cbn [app].
  destruct ev as [m ep h p o | ms | lv t args | t args]; cbn in Hev |- *.
  - now apply IH.
  - destruct (Z.eqb_spec ms (seconds 5)); [contradiction | now apply IH].
  - destruct (String.eqb_spec t processing_template); [contradiction |].
    destruct lv; try now apply IH.
    destruct args as [| [[| | i | | |] |] args]; now apply IH.
  - now apply IH.
Qed.

Lemma backoff_is_quiet attempt : seconds (2 ^ attempt) <> seconds 5.
Proof.
  unfold seconds. intros H. assert (E : 2 ^ attempt = 5) by lia. clear H.
  destruct (Z.lt_ge_cases attempt 0) as [Hneg | Hpos].
  - rewrite Z.pow_neg_r in E by assumption. discriminate.
  - destruct (Z.lt_ge_cases attempt 3) as [Hlt | Hge].
    + assert (Hc : attempt = 0 \/ attempt = 1 \/ attempt = 2) by lia.
      destruct Hc as [-> | [-> | ->]]; discriminate.
    + assert (H8 : 2 ^ 3 <= 2 ^ attempt) by (apply Z.pow_le_mono_r; lia).
      change (2 ^ 3) with 8 in H8. lia.
Qed.

Ltac spec_simple :=
  repeat match goal with
    | |- spec _ any (ret _) => apply spec_ret; exact I
    | |- spec _ _ (raise _) => apply spec_raise
    | |- spec _ any (lift _) => apply spec_lift_any
    | |- spec _ any (print _ _) => apply spec_emit; [| exact I]
    | |- spec _ any (logging _ _ _) => apply spec_emit; [| exact I]
    | |- spec _ any (sleep _) => apply spec_emit; [| exact I]
    | |- spec _ any (requests _ _ _ _) => apply spec_requests; intros ?
    | |- spec _ any get_self => apply spec_silent; reflexivity
    | |- spec _ any get_headers => apply spec_silent; reflexivity
    | |- spec _ any get_total => apply spec_silent; reflexivity
    | |- spec _ any (set_self _) => apply spec_silent; reflexivity
    | |- spec _ any (set_total _) => apply spec_silent; reflexivity
    | |- spec _ any (os_path_exists _) => apply spec_silent; reflexivity
    | |- spec _ any (size_is_zero _) => apply spec_silent; reflexivity
    | |- spec _ any (writerow _ _) => apply spec_silent; reflexivity
    | |- spec _ any (open_a _) =>
        apply spec_silent; intros w; unfold open_a;
        destruct (open_error w _); [| destruct (files w !! _)];
        reflexivity
    | |- spec _ _ (set_token _) => unfold set_token
    | |- spec _ _ (raise_for_status _) => unfold raise_for_status
    | |- spec _ _ (response_json ?r) => unfold response_json
    | |- spec _ any (bind _ _) => apply (spec_bind _ any any); [| intros ? _]
    | |- spec _ _ (try_except _ _ _) => apply spec_try; [| intros ?]
    | |- spec _ _ (if _ then _ else _) => apply spec_if
    | |- spec _ any (for_each _ _) => apply spec_for_each; intros ?
    end.

Ltac quiet_events :=
  match goal with
  | |- quiet (Sleep (seconds (2 ^ _))) => apply backoff_is_quiet
  | |- quiet _ => cbn; first [exact I | discriminate]
  end.

Lemma quiet_authenticate_attempts attempts max_retries data :
  spec quiet any (authenticate_attempts attempts max_retries data).
Proof.
  induction attempts as [| attempt rest IH]; cbn [authenticate_attempts].
  - apply spec_ret. exact I.
  - apply (spec_bind _ any any).
    + spec_simple; quiet_events.
    + intros [|] _; [apply spec_ret; exact I | exact IH].
Qed.

Lemma quiet_authenticate : spec quiet any authenticate.
Proof.
  unfold authenticate. apply spec_try.
  - apply (spec_bind _ any any); [spec_simple | intros f _].
    apply quiet_authenticate_attempts.
  - intros e. spec_simple; quiet_events.
Qed.

Lemma quiet_append_records cid recordings out :
  spec quiet any (append_records cid recordings out).
Proof. unfold append_records. spec_simple; quiet_events. Qed.

Definition is_array (v : json) : Prop := exists items, v = JArr items.

Definition array_or_next (ctl : attempt_ctl) : Prop :=
  match ctl with
  | Returns v | Breaks v => is_array v
  | Next => True
  end.

Lemma normalize_is_array j : is_array (normalize j).
Proof.
  unfold normalize, is_array.
  destruct j as [| b | z | s | items | members]; cbn; eauto.
  destruct (Py.assoc "entities" members) as [[| b | z | s | items | m'] |];
    cbn; eauto.
Qed.

Lemma quiet_fetch_attempts_2 attempts max_retries cid out recordings :
  is_array recordings ->
  spec quiet is_array
    (fetch_attempts_2 attempts max_retries cid out recordings).
Proof.
  intros Hrec.
  induction attempts as [| attempt rest IH]; cbn [fetch_attempts_2].
  - apply spec_ret. exact Hrec.
  - apply (spec_bind _ array_or_next).
    + apply spec_try.
      * apply (spec_bind _ any); [spec_simple | intros hdrs _].
        apply (spec_bind _ any); [spec_simple; exact I | intros r _].
        apply (spec_bind _ any); [spec_simple | intros _ _].
        apply (spec_bind _ any); [spec_simple | intros j _].
        cbv zeta.
        apply (spec_bind _ any); [apply quiet_append_records | intros _ _].
        apply spec_ret. apply normalize_is_array.
      * intros e.
        apply (spec_bind _ any); [spec_simple; quiet_events | intros _ _].
        apply spec_if.
        -- apply (spec_bind _ any); [apply quiet_authenticate | intros _ _].
           apply (spec_bind _ any); [spec_simple; quiet_events | intros _ _].
           apply spec_ret. exact I.
        -- apply (spec_bind _ any); [spec_simple; quiet_events | intros _ _].
           apply spec_ret. cbn. exists []. reflexivity.
    + intros [v | v |] Hctl; [apply spec_ret | apply spec_ret |]; auto.
Qed.

Lemma quiet_find_recordings_2 cid out :
  spec quiet is_array (find_recordings_by_conversation_id_2 cid out).
Proof.
  unfold find_recordings_by_conversation_id_2. apply spec_try.
  - apply (spec_bind _ any); [spec_simple | intros f _].
    apply (spec_bind _ any).
    + apply spec_if; [apply quiet_authenticate | apply spec_ret; exact I].
    + intros _ _. apply quiet_fetch_attempts_2. exists []. reflexivity.
  - intros e.
    apply (spec_bind _ any); [spec_simple; quiet_events | intros _ _].
    apply spec_ret. exists []. reflexivity.
Qed.

Lemma try_catch_all_returns {A} (c : M A) (h : exn -> M A) w :
  (forall e w', exists a, value (h e w') = Ok a) ->
  exists a, value (try_except c any_exception h w) = Ok a.
Proof.
  intros H. unfold try_except. destruct (value (c w)) as [a | e] eqn:E.
  - rewrite E. eauto.
  - cbn. apply H.
Qed.

(** The detail fetch never raises. *)
Lemma find_recordings_2_returns cid out w :
  exists items,
    value (find_recordings_by_conversation_id_2 cid out w) = Ok (JArr items).
Proof.
  destruct (quiet_find_recordings_2 cid out w) as [_ Hv].
  unfold find_recordings_by_conversation_id_2 in *.
  match goal with
  | |- context [ try_except ?c _ ?h w ] =>
      destruct (try_catch_all_returns c h w) as [v E]
  end.
  - intros e w'. rewrite bind_logging. cbn. eauto.
  - destruct (Hv v E) as [items ->]. eauto.
Qed.

Lemma dispatch_second to_csv cid out w :
  find_recordings_by_conversation_id to_csv cid out w
  = find_recordings_by_conversation_id_2 cid out w.
Proof.
  unfold find_recordings_by_conversation_id.
  replace (class_namespace !! "find_recordings_by_conversation_id")
    with (Some Def_find_recordings_192) by (vm_compute; reflexivity).
  reflexivity.
Qed.

Definition cooldown (i : Z) : list event :=
  if i mod 50 =? 0
  then [Log INFO "Pausing to avoid rate limits..." []; Sleep (seconds 5)]
  else [].

(** One turn of the batch loop: the announcement, the events of the
    fetch, and the cooldown when the turn's number is a multiple of 50. *)
Lemma process_one_run to_csv n i cid results w :
  exists fetched,
    Forall quiet fetched
    /\ events (process_one to_csv n i cid results w)
       = Log INFO processing_template
           [AVal (JInt i); AVal (JInt n); AVal cid]
         :: fetched ++ cooldown i
    /\ exists results',
         value (process_one to_csv n i cid results w) = Ok results'.
Proof.
  unfold process_one. rewrite bind_logging. cbv beta.
  set (c := find_recordings_by_conversation_id to_csv cid "recording_ids.csv").
  destruct (find_recordings_2_returns cid "recording_ids.csv" w)
    as [items Hitems].
  destruct (quiet_find_recordings_2 cid "recording_ids.csv" w) as [Hq _].
  rewrite <- (dispatch_second to_csv) in Hitems, Hq. fold c in Hitems, Hq.
  exists (events (c w)). split; [exact Hq |].
  assert (Hc : c w = mkRun (Ok (JArr items)) (after (c w)) (events (c w))).
  { destruct (c w) as [v a evs]. cbn in Hitems. now rewrite Hitems. }
  erewrite try_run_ok.
  { cbn. split; [reflexivity | eauto]. }
  erewrite bind_run_ok; [| exact Hc]. cbv beta.
  assert (Hres : forall w0,
            (if Py.truthy (JArr items)
             then items0 <- lift (Py.iter (JArr items));;
                  ret (results ++ items0)
             else ret results) w0
            = mkRun (Ok (if Py.truthy (JArr items)
                         then results ++ items else results)) w0 []).
  { intros w0. destruct items; reflexivity. }
  erewrite bind_run_ok; [| apply Hres]. cbv beta.
  unfold cooldown. destruct (i mod 50 =? 0);
    (erewrite bind_run_ok; [| reflexivity]); unfold ret;
    rewrite !prepend_prepend, prepend_mkRun, !app_nil_r; reflexivity.
Qed.

Lemma zrange_cons lo n : zrange lo (S n) = lo :: zrange (lo + 1) n.
Proof.
  unfold zrange. cbn [seq map]. f_equal; [lia |].
  rewrite <- seq_shift, map_map. apply map_ext. intros k. lia.
Qed.

Lemma zrange_snoc lo n : zrange lo (S n) = zrange lo n ++ [lo + Z.of_nat n].
Proof. unfold zrange. rewrite seq_S, map_app. reflexivity. Qed.

Definition fiftieth (i : Z) : bool := i mod 50 =? 0.

Lemma count_fiftieth n :
  Z.of_nat (length (List.filter fiftieth (zrange 1 n))) = Z.of_nat n / 50.
Proof.
  induction n as [| n IH]; [reflexivity |].
  rewrite zrange_snoc, List.filter_app, length_app, Nat2Z.inj_add, IH.
  cbn [List.filter]. unfold fiftieth at 1.
  rewrite Nat2Z.inj_succ. unfold Z.succ.
  replace (1 + Z.of_nat n) with (Z.of_nat n + 1) by lia.
  generalize (Z.of_nat n) (Nat2Z.is_nonneg n). intros z Hz.
  destruct (Z.eqb_spec ((z + 1) mod 50) 0) as [E | E]; cbn [length];
    Z.to_euclidean_division_equations; lia.
Qed.

Lemma cooldown_marks_end evs : forall last rest,
  Forall quiet rest ->
  cooldown_marks last (evs ++ rest) = cooldown_marks last evs.
Proof.
  induction evs as [| ev evs IH]; intros last rest H.
  - cbn [app]. rewrite <- (app_nil_r rest).
    now rewrite cooldown_marks_quiet.
  - cbn [app]. destruct ev as [m ep h p o | ms | lv t args | t args]; cbn.
    + now apply IH.
    + destruct (ms =? seconds 5); [f_equal |]; now apply IH.
    + destruct lv; try now apply IH.
      destruct args as [| [[| | i | | |] |] args]; try now apply IH.
      destruct (t =? processing_template)%string; now apply IH.
    + now apply IH.
Qed.

Lemma process_all_marks to_csv n ids : forall i results w last,
  cooldown_marks last (events (process_all to_csv n i ids results w))
  = List.filter fiftieth (zrange i (length ids))
  /\ exists results',
       value (process_all to_csv n i ids results w) = Ok results'.
Proof.
  induction ids as [| cid ids IH]; intros i results w last.
  - cbn. eauto.
  - cbn [process_all length]. rewrite events_bind, value_bind.
    destruct (process_one_run to_csv n i cid results w)
      as (fetched & Hq & Hev & results1 & Hv).
    rewrite Hev, Hv.
    destruct (IH (i + 1) results1
                (after (process_one to_csv n i cid results w)) i)
      as [Hmarks Hval].
    split; [| exact Hval].
    rewrite zrange_cons. cbn [List.filter app cooldown_marks].
    replace (processing_template =? processing_template)%string with true
      by (symmetry; apply String.eqb_refl).
    rewrite <- app_assoc, cooldown_marks_quiet by exact Hq.
    unfold cooldown, fiftieth at 1. destruct (i mod 50 =? 0).
    + cbn [app cooldown_marks].
      replace ("Pausing to avoid rate limits..." =? processing_template)%string
        with false by reflexivity.
      rewrite Z.eqb_refl. now rewrite Hmarks.
    + cbn [app]. exact Hmarks.
Qed.

Lemma quiet_init id secret env : spec quiet any (init id secret env).
Proof.
  unfold init. apply (spec_bind _ any); [spec_simple | intros _ _].
  apply quiet_authenticate.
Qed.

Lemma quiet_delimiter_loop read_csv file_path encoding todo :
  spec quiet any (delimiter_loop read_csv file_path encoding todo).
Proof.
  induction todo as [| delimiter rest IH]; cbn [delimiter_loop].
  - apply spec_ret. exact I.
  - apply (spec_bind _ any any).
    + spec_simple; quiet_events.
    + intros [df |] _; [apply spec_ret; exact I | exact IH].
Qed.

Lemma quiet_encoding_loop read_csv file_path todo :
  spec quiet any (encoding_loop read_csv file_path todo).
Proof.
  induction todo as [| encoding rest IH]; cbn [encoding_loop].
  - apply spec_raise.
  - apply (spec_bind _ any any); [apply quiet_delimiter_loop |].
    intros [df |] _; [apply spec_ret; exact I | exact IH].
Qed.

Lemma quiet_read_conversation_ids read_csv read_excel file_path :
  spec quiet any (read_conversation_ids read_csv read_excel file_path).
Proof.
  unfold read_conversation_ids. apply (spec_bind _ any any).
  - repeat apply spec_if;
      [apply quiet_encoding_loop | apply spec_lift_any | apply spec_raise].
  - intros df _. unfold select_ids.
    apply (spec_bind _ any any); [spec_simple; quiet_events | intros _ _].
    destruct (List.find _ _); [apply spec_lift_any | apply spec_raise].
Qed.

(** The reader changes nothing of the world. *)
Lemma delimiter_loop_after read_csv file_path encoding todo w :
  after (delimiter_loop read_csv file_path encoding todo w) = w.
Proof.
  induction todo as [| delimiter rest IH]; [reflexivity |].
  cbn [delimiter_loop].
  destruct (read_csv file_path encoding delimiter) as [df | e] eqn:E.
  - erewrite bind_run_ok; cycle 1.
    { eapply try_run_ok. rewrite bind_lift_ok, bind_print, bind_print.
      reflexivity. }
    reflexivity.
  - erewrite bind_run_ok; cycle 1.
    { erewrite try_run_caught;
        [| rewrite bind_lift_raise; reflexivity | reflexivity].
      rewrite bind_print. reflexivity. }
    cbv beta iota. cbn [prepend ret after events value app]. exact IH.
Qed.

Lemma encoding_loop_after read_csv file_path todo w :
  after (encoding_loop read_csv file_path todo w) = w.
Proof.
  induction todo as [| encoding rest IH]; [reflexivity |].
  cbn [encoding_loop]. unfold bind.
  pose proof (delimiter_loop_after read_csv file_path encoding delimiters w)
    as Hd.
  destruct (delimiter_loop read_csv file_path encoding delimiters w)
    as [[[df |] | e] w0 evs0]; cbn in Hd; subst w0; cbn; auto.
Qed.

Lemma read_conversation_ids_after read_csv read_excel file_path w :
  after (read_conversation_ids read_csv read_excel file_path w) = w.
Proof.
  unfold read_conversation_ids, bind.
  set (c := if endswith file_path ".csv"
            then encoding_loop read_csv file_path encodings
            else if endswith file_path ".xls" || endswith file_path ".xlsx"
                 then lift (read_excel file_path)
                 else raise ValueError).
  assert (Hframe : after (c w) = w).
  { subst c. destruct (endswith file_path ".csv");
      [apply encoding_loop_after |].
    destruct (_ || _); [| reflexivity].
    unfold lift. now destruct (read_excel file_path). }
  destruct (c w) as [[df | e] w0 evs0]; cbn in Hframe; subst w0;
    cbn [value after events]; [| reflexivity].
  unfold select_ids. rewrite bind_print. unfold prepend. cbn [after].
  destruct (List.find _ _) as [col |]; [| reflexivity].
  unfold lift. now destruct (column df col).
Qed.

Definition critical (e : exn) : event :=
  Log ERROR "Critical error in main process: {e}" [AExn e].

Definition processed (results : list json) : event :=
  Log INFO "Processed {len(all_conversation_results)} recordings in total"
    [AVal (JInt (Z.of_nat (length results)))].

Lemma process_all_returns to_csv n ids i results w :
  exists results',
    value (process_all to_csv n i ids results w) = Ok results'.
Proof. exact (proj2 (process_all_marks to_csv n ids i results w 0)). Qed.

(** The exception line 412 ends with, if any. *)
Definition log_error (configured : bool) (w : world) : option exn :=
  if configured then None else open_error w "genesys_retrieval.log".

Lemma basic_config_run configured w :
  basic_config configured "genesys_retrieval.log" w
  = match log_error configured w with
    | Some e => mkRun (Raise e) w []
    | None => mkRun (Ok tt) w []
    end.
Proof. unfold basic_config, log_error. now destruct configured. Qed.

(** The run of [main], case by case. *)
Lemma main_run to_csv read_csv read_excel configured environ w :
  let r := main to_csv read_csv read_excel configured environ w in
  let CLIENT_ID := environ !! "GENESYS_CLIENT_ID" in
  let CLIENT_SECRET := environ !! "GENESYS_CLIENT_SECRET" in
  let ENVIRONMENT :=
    default "mypurecloud.com" (environ !! "GENESYS_ENVIRONMENT") in
  match log_error configured w with
  | Some e => r = mkRun (Raise e) w []
  | None =>
      if negb (set_and_not_empty CLIENT_ID)
         || negb (set_and_not_empty CLIENT_SECRET)
      then r = mkRun (Ok tt) w [critical ValueError]
      else
        let r0 :=
          init (default "" CLIENT_ID) (default "" CLIENT_SECRET) ENVIRONMENT
            w in
        match value r0 with
        | Raise e => r = mkRun (Ok tt) (after r0) (events r0 ++ [critical e])
        | Ok _ =>
            let r1 :=
              read_conversation_ids read_csv read_excel "call_ids.csv"
                (after r0) in
            match value r1 with
            | Raise e =>
                r = mkRun (Ok tt) (after r0)
                      (events r0 ++ events r1 ++ [critical e])
            | Ok ids =>
                let batch := take 800 ids in
                let r2 :=
                  process_all to_csv (Z.of_nat (length batch)) 1 batch []
                    (after r0) in
                exists results,
                  value r2 = Ok results
                  /\ r = mkRun (Ok tt) (after r2)
                           (events r0 ++ events r1 ++ events r2
                            ++ [processed results])
            end
        end
  end.
Proof.
  cbv zeta. unfold main. cbv zeta.
  set (id := default "" (environ !! "GENESYS_CLIENT_ID")).
  set (secret := default "" (environ !! "GENESYS_CLIENT_SECRET")).
  set (env := default "mypurecloud.com" (environ !! "GENESYS_ENVIRONMENT")).
  pose proof (basic_config_run configured w) as Hlog.
  destruct (log_error configured w) as [e |].
  { erewrite bind_run_raise; [| exact Hlog]. reflexivity. }
  erewrite bind_run_ok; [| exact Hlog]. cbv beta.
  unfold prepend at 1. cbn [app].
  assert (Hsame : forall r : run unit,
            mkRun (value r) (after r) (events r) = r) by (now intros []).
  rewrite Hsame.
  destruct (negb (set_and_not_empty (environ !! "GENESYS_CLIENT_ID"))
            || negb (set_and_not_empty (environ !! "GENESYS_CLIENT_SECRET"))).
  { reflexivity. }
  destruct (init id secret env w) as [[[] | e] w0 evs0] eqn:E0;
    cbn [value after events].
  - pose proof (read_conversation_ids_after read_csv read_excel
                  "call_ids.csv" w0) as Hafter.
    destruct (read_conversation_ids read_csv read_excel "call_ids.csv" w0)
      as [[ids | e] w1 evs1] eqn:E1; cbn in Hafter; subst w1;
      cbn [value after events].
    + destruct (process_all_returns to_csv
                  (Z.of_nat (length (take 800 ids))) (take 800 ids) 1 [] w0)
        as [results Hv].
      exists results. split; [exact Hv |].
      destruct (process_all to_csv _ 1 (take 800 ids) [] w0)
        as [v2 w2 evs2] eqn:E2.
      cbn in Hv. subst v2. cbn [after events].
      erewrite try_run_ok; [reflexivity |].
      erewrite bind_run_ok; [| exact E0].
      erewrite bind_run_ok; [| exact E1]. cbv zeta beta.
      erewrite bind_run_ok; [| exact E2].
      reflexivity.
    + erewrite try_run_caught; [| | reflexivity].
      2:{ erewrite bind_run_ok; [| exact E0].
          erewrite bind_run_raise; [| exact E1]. reflexivity. }
      unfold logging, emit, prepend. cbn [value after events app].
      now rewrite <- app_assoc.
  - erewrite try_run_caught; [reflexivity | | reflexivity].
    erewrite bind_run_raise; [| exact E0]. reflexivity.
Qed.

(** C9: when the finder is set up and the identifiers are read, the
    5-second cooldowns of the batch run come exactly in the turns whose
    number, counted from 1 over the first 800 identifiers, is a multiple
    of 50, one each; there are [n / 50] of them, [n] being the number of
    identifiers processed. *)
Theorem cooldown_every_fifty (to_csv : json -> bool -> res (list row))
  (read_csv : string -> string -> string -> res frame)
  (read_excel : string -> res frame) (configured : bool)
  (environ : gmap string string) (id secret : string) (ids : list json)
  (w : world) :
  let env := default "mypurecloud.com" (environ !! "GENESYS_ENVIRONMENT") in
  let finder := init id secret env w in
  (if configured then None else open_error w "genesys_retrieval.log")
  = None ->
  environ !! "GENESYS_CLIENT_ID" = Some id -> id <> "" ->
  environ !! "GENESYS_CLIENT_SECRET" = Some secret -> secret <> "" ->
  value finder = Ok tt ->
  value (read_conversation_ids read_csv read_excel "call_ids.csv"
           (after finder)) = Ok ids ->
  let n := length (take 800 ids) in
  let marks :=
    cooldown_marks 0
      (events (main to_csv read_csv read_excel configured environ w)) in
  marks = List.filter fiftieth (zrange 1 n)
  /\ Z.of_nat (length marks) = Z.of_nat n / 50
  /\ (n <= 800)%nat.
Proof.
  intros env finder Hlog Hid Hid' Hsecret Hsecret' Hinit Hread n marks.
  assert (Hmarks : marks = List.filter fiftieth (zrange 1 n)).
  { subst marks.
    pose proof (main_run to_csv read_csv read_excel configured environ w)
      as H.
    cbv zeta in H. unfold log_error in H. rewrite Hlog, Hid, Hsecret in H.
    cbn [set_and_not_empty default from_option Datatypes.id] in H.
    apply String.eqb_neq in Hid', Hsecret'. rewrite Hid', Hsecret' in H.
    cbn [negb orb] in H. fold env in H. fold finder in H.
    rewrite Hinit, Hread in H. destruct H as (results & Hv & ->).
    cbn [events].
    destruct (quiet_init id secret env w) as [Hq _].
    destruct (quiet_read_conversation_ids read_csv read_excel "call_ids.csv"
                (after finder)) as [Hq' _].
    fold finder in Hq.
    rewrite !cooldown_marks_quiet by assumption.
    rewrite cooldown_marks_end; [| repeat constructor; discriminate].
    exact (proj1 (process_all_marks to_csv (Z.of_nat n) (take 800 ids) 1 []
                    (after finder) 0)). }
  split; [exact Hmarks |]. split.
  - rewrite Hmarks. apply count_fiftieth.
  - subst n. rewrite length_take. lia.
Qed.

(** A sample environment and a sample table of identifiers. *)
Definition sample_environ : gmap string string :=
  <["GENESYS_CLIENT_ID" := "client"]>
    (<["GENESYS_CLIENT_SECRET" := "secret"]> ∅).

Definition sample_read_csv (ids : list json)
  : string -> string -> string -> res frame :=
  fun file_path encoding delimiter =>
    if String.eqb delimiter "," then Ok [("conversation_id", ids)]
    else Raise ValueError.

(** An instance: 120 identifiers, two cooldowns, in the
    50th and the 100th turn. *)
Lemma cooldown_every_fifty_120 :
  let w := sample_world [ok_reply (JObj [("access_token", JStr "t")])] ∅ in
  let marks :=
    cooldown_marks 0
      (events (main (fun _ _ => Ok [])
                 (sample_read_csv (repeat (JStr "c") 120))
                 (fun _ => Raise ValueError) false sample_environ w)) in
  marks = [50; 100] /\ length marks = 2%nat.
Proof.
  pose proof (cooldown_every_fifty (fun _ _ => Ok [])
                (sample_read_csv (repeat (JStr "c") 120))
                (fun _ => Raise ValueError) false sample_environ
                "client" "secret" (repeat (JStr "c") 120)
                (sample_world [ok_reply (JObj [("access_token", JStr "t")])] ∅)
                eq_refl eq_refl ltac:(discriminate) eq_refl
                ltac:(discriminate) eq_refl eq_refl) as H.
  cbv zeta in H. destruct H as (Hm & _ & _).
  cbv zeta. rewrite Hm. split; vm_compute; reflexivity.
Defined.

(** ** C5: the turns of the page loop *)

(** The continuation reference of a page: a [nextUri] that counts as
    true. *)
Definition next_uri_truthy (o : outcome) : bool :=
  match o with
  | Replies r =>
      match body r with
      | Document (JObj members) =>
          Py.truthy (default JNull (Py.assoc "nextUri" members))
      | _ => false
      end
  | ConnectionFails => false
  end.

Definition is_query_post (ev : event) : bool :=
  match ev with
  | Request POST RecordingsQuery _ _ _ => true
  | _ => false
  end.

(** The message of one of the two [except] clauses of the loop. *)
Definition is_failure_print (ev : event) : bool :=
  match ev with
  | Print t _ =>
      String.eqb t "Request failed: {str(e)}"
      || String.eqb t "Unexpected error: {str(e)}"
  | _ => false
  end.

(** Whether a failure message comes before the next query. *)
Fixpoint turn_failed (evs : list event) : bool :=
  match evs with
  | [] => false
  | ev :: rest =>
      if is_query_post ev then false
      else is_failure_print ev || turn_failed rest
  end.

(** The turns of the loop: for each query, its reply and whether the
    turn ended in an exception. *)
Fixpoint turns (evs : list event) : list (outcome * bool) :=
  match evs with
  | [] => []
  | ev :: rest =>
      match ev with
      | Request POST RecordingsQuery _ _ o =>
          (o, turn_failed rest) :: turns rest
      | _ => turns rest
      end
  end.

Definition turn_continues (t : outcome * bool) : bool :=
  next_uri_truthy (fst t) && negb (snd t).

(** Neither a query nor a failure message. *)
Definition calm (ev : event) : Prop :=
  is_query_post ev = false /\ is_failure_print ev = false.

(** What follows the query in a turn (lines 100-138). *)
Definition page_rest (output_file : string) (body : list (string * json))
  (page_count : Z) (response : response) : M loop_ctl :=
  print "Response Status Code: {response.status_code}"
    [AVal (JInt (status_code response))];;
  print "Response Headers: {response.headers}"
    [AVal (resp_headers response)];;
  print "Response Text: {response.text}" [AVal (JStr (text response))];;
  raise_for_status response;;
  data <- response_json response;;
  conversations <- lift (Py.get data "conversations" (JArr []));;
  convs <- lift (Py.iter conversations);;
  for_each convs (process_conversation output_file);;
  next_uri <- lift (Py.get data "nextUri" JNull);;
  if negb (Py.truthy next_uri) then ret Break
  else ret (Continue (Py.assoc_set "pageNumber" (JInt page_count) body)
              (page_count + 1)).

Definition page_failure (e : exn) : M loop_ctl :=
  (if is_request_exception e
   then print "Request failed: {str(e)}" [AExn e]
   else print "Unexpected error: {str(e)}" [AExn e]);;
  ret Break.

Definition fetching (page_count : Z) : event :=
  Print "Fetching page {page_count}..." [AVal (JInt page_count)].

Definition query (w : world) (body : list (string * json)) (o : outcome)
  : event :=
  Request POST RecordingsQuery (headers (self w)) (Some (JObj body)) o.

Lemma turn_failed_calm evs rest :
  Forall calm evs -> turn_failed (evs ++ rest) = turn_failed rest.
Proof.
  induction 1 as [| ev evs [Hq Hf] _ IH]; [reflexivity |].
  cbn. now rewrite Hq, Hf, IH.
Qed.

Lemma turns_calm evs rest :
  Forall calm evs -> turns (evs ++ rest) = turns rest.
Proof.
  induction 1 as [| ev evs [Hq Hf] _ IH]; [reflexivity |].
  cbn. destruct ev as [m ep h p o | | |]; try exact IH.
  destruct m; [exact IH |]. destruct ep; try exact IH. discriminate.
Qed.

Lemma calm_process_conversation out conv :
  spec calm any (process_conversation out conv).
Proof.
  unfold process_conversation, write_recording.
  spec_simple; split; reflexivity.
Qed.

Definition follows_reply (r : response) (qbody : list (string * json))
  (page : Z) (ctl : loop_ctl) : Prop :=
  match ctl with
  | Break => next_uri_truthy (Replies r) = false
  | Continue body' page' =>
      next_uri_truthy (Replies r) = true
      /\ body' = Py.assoc_set "pageNumber" (JInt page) qbody
      /\ page' = page + 1
  end.

Lemma page_rest_spec out qbody page r :
  spec calm (follows_reply r qbody page) (page_rest out qbody page r).
Proof.
  unfold page_rest.
  do 4 (apply (spec_bind _ any);
        [spec_simple; split; reflexivity | intros ? _]).
  apply (spec_bind _ (fun data => body r = Document data)).
  { unfold response_json. apply spec_lift. unfold decode.
    destruct (body r); congruence. }
  intros data Hdata.
  do 2 (apply (spec_bind _ any); [spec_simple | intros ? _]).
  apply (spec_bind _ any).
  { apply spec_for_each. intros conv. apply calm_process_conversation. }
  intros _ _.
  apply (spec_bind _ (fun v => Py.get data "nextUri" JNull = Ok v)).
  { apply spec_lift. auto. }
  intros next_uri Hnext.
  assert (Htruthy : next_uri_truthy (Replies r) = Py.truthy next_uri).
  { unfold next_uri_truthy. rewrite Hdata.
    destruct data as [| | | | | members]; try discriminate.
    cbn in Hnext. injection Hnext as <-.
    destruct (Py.assoc "nextUri" members); reflexivity. }
  destruct (Py.truthy next_uri); cbn [negb]; apply spec_ret; cbn; auto.
Qed.

Lemma shrinks_refl w : shrinks w w.
Proof. unfold shrinks. lia. Qed.

Lemma shrinks_trans a b c : shrinks a b -> shrinks b c -> shrinks a c.
Proof. unfold shrinks. lia. Qed.

Lemma shrinks_page_rest out qbody page r :
  steps shrinks (page_rest out qbody page r).
Proof.
  assert (Hb : forall A B (c : M A) (k : A -> M B),
             steps shrinks c -> (forall a, steps shrinks (k a)) ->
             steps shrinks (bind c k)).
  { intros A B. apply steps_bind. exact shrinks_trans. }
  assert (Hs : forall A (c : M A), (forall w, after (c w) = w) ->
                                   steps shrinks c).
  { intros A. apply steps_same. exact shrinks_refl. }
  unfold page_rest.
  do 3 (apply Hb; [apply Hs; reflexivity | intros _]).
  apply Hb; [apply Hs; intros w; unfold raise_for_status;
             destruct (_ && _); reflexivity | intros _].
  apply Hb; [apply Hs; reflexivity | intros data].
  do 2 (apply Hb; [apply Hs; reflexivity | intros ?]).
  apply Hb; [apply shrinks_process_conversations | intros _].
  apply Hb; [apply Hs; reflexivity | intros next_uri].
  apply Hs. intros w. destruct (negb _); reflexivity.
Qed.

Lemma consume_shorter w r :
  reply w = Replies r -> (length (net (consume w)) < length (net w))%nat.
Proof.
  unfold reply, consume, next_reply.
  destruct (net w) as [| o rest]; cbn; [discriminate | lia].
Qed.

Lemma fetch_page_unfold out qbody page w :
  fetch_page out qbody page w
  = prepend [fetching page]
      (try_except
         (bind (requests POST RecordingsQuery (headers (self w))
                  (Some (JObj qbody)))
            (page_rest out qbody page))
         any_exception page_failure w).
Proof.
  unfold fetch_page. rewrite bind_print. cbv beta.
  unfold try_except. rewrite bind_get_headers. reflexivity.
Qed.

(** How a turn ends. *)
Definition turn_end (w w' : world) (fin : list event) (ctl : loop_ctl)
  : Prop :=
  match ctl with
  | Continue _ _ =>
      fin = [] /\ next_uri_truthy (reply w) = true
      /\ (length (net w') < length (net w))%nat
  | Break =>
      (fin = [] /\ next_uri_truthy (reply w) = false)
      \/ exists ev, fin = [ev] /\ is_failure_print ev = true
                    /\ is_query_post ev = false
  end.

Lemma fetch_page_shape out qbody page w :
  exists mid fin ctl,
    events (fetch_page out qbody page w)
    = fetching page :: query w qbody (reply w) :: mid ++ fin
    /\ Forall calm mid
    /\ value (fetch_page out qbody page w) = Ok ctl
    /\ turn_end w (after (fetch_page out qbody page w)) fin ctl.
Proof.
  rewrite fetch_page_unfold. destruct (reply w) as [| r] eqn:Er.
  - erewrite try_run_caught;
      [| apply bind_requests_fails; exact Er | reflexivity].
    exists [], [Print "Request failed: {str(e)}" [AExn RequestException]],
      Break.
    repeat split; [constructor |]. right. eexists. repeat split.
  - set (r0 := page_rest out qbody page r (consume w)).
    destruct (page_rest_spec out qbody page r (consume w)) as [Hcalm Hq].
    pose proof (shrinks_page_rest out qbody page r (consume w)) as Hnet.
    pose proof (consume_shorter w r Er) as Hlt. unfold shrinks in Hnet.
    fold r0 in Hcalm, Hq, Hnet.
    assert (Hc : bind (requests POST RecordingsQuery (headers (self w))
                         (Some (JObj qbody)))
                   (page_rest out qbody page) w
                 = mkRun (value r0) (after r0)
                     ([query w qbody (Replies r)] ++ events r0)).
    { rewrite (bind_requests_ok _ _ _ _ _ _ r Er). reflexivity. }
    destruct (value r0) as [ctl | e] eqn:Ev.
    + erewrite try_run_ok; [| exact Hc].
      exists (events r0), [], ctl. rewrite app_nil_r.
      repeat split; [exact Hcalm |].
      specialize (Hq ctl eq_refl). cbn [after prepend].
      unfold turn_end. rewrite Er.
      destruct ctl as [| b p]; unfold follows_reply in Hq.
      * left. auto.
      * destruct Hq as (Ht & _). repeat split; [exact Ht | lia].
    + erewrite try_run_caught; [| exact Hc | reflexivity].
      unfold page_failure.
      exists (events r0),
        [if is_request_exception e
         then Print "Request failed: {str(e)}" [AExn e]
         else Print "Unexpected error: {str(e)}" [AExn e]], Break.
      destruct (is_request_exception e); rewrite bind_print; cbn;
        (repeat split; [exact Hcalm |]); right; eexists; repeat split.
Qed.

Lemma turns_not_query ev :
  is_query_post ev = false -> turns [ev] = [].
Proof.
  destruct ev as [m ep h p o | | |]; try reflexivity.
  destruct m; [reflexivity |]. destruct ep; try reflexivity. discriminate.
Qed.

Lemma page_loop_turns_fuel fuel : forall out qbody page w,
  (length (net w) < fuel)%nat ->
  let run := page_loop fuel out qbody page w in
  value run = Ok true
  /\ turn_failed (events run) = false
  /\ exists k, map turn_continues (turns (events run)) = repeat true k ++ [false].
Proof.
  induction fuel as [| fuel IH]; intros out qbody page w Hfuel; [lia |].
  cbn zeta. cbn [page_loop]. rewrite events_bind, value_bind.
  destruct (fetch_page_shape out qbody page w)
    as (mid & fin & ctl & Hev & Hcalm & Hval & Hend).
  rewrite Hval, Hev.
  destruct ctl as [| qbody' page'].
  - cbn [ret value events]. rewrite app_nil_r.
    split; [reflexivity |]. split; [reflexivity |].
    exists 0%nat. unfold fetching, query. cbn [turns map repeat app].
    rewrite turn_failed_calm, turns_calm by exact Hcalm.
    destruct Hend as [[-> Hno] | (ev & -> & Hf & Hq)].
    + cbn. unfold turn_continues. cbn. rewrite Hno. reflexivity.
    + rewrite (turns_not_query ev Hq). cbn. rewrite Hq, Hf.
      unfold turn_continues. cbn. now rewrite andb_false_r.
  - destruct Hend as (-> & Hyes & Hnet).
    set (w' := after (fetch_page out qbody page w)) in *.
    destruct (IH out qbody' page' w' ltac:(lia)) as (Hv & Hfail & k & Hk).
    split; [exact Hv |]. split; [reflexivity |].
    exists (S k). rewrite app_nil_r. unfold fetching, query.
    cbn [turns map repeat app].
    rewrite turn_failed_calm, turns_calm by exact Hcalm.
    rewrite Hfail, Hk. unfold turn_continues. cbn. now rewrite Hyes.
Qed.

(** C5: the page loop always comes to an end, and its turns
    are these: after every turn whose response carries a [nextUri] that
    counts as true and which raised no exception, the loop issues a
    further query; the first turn whose response carries none, or which
    ends in an exception, is the last. *)
Theorem page_loop_turns (out : string) (qbody : list (string * json))
  (page : Z) (w : world) :
  let run := page_loop (enough_fuel w) out qbody page w in
  value run = Ok true
  /\ exists k,
       map turn_continues (turns (events run)) = repeat true k ++ [false].
Proof.
  destruct (page_loop_turns_fuel (enough_fuel w) out qbody page w
              ltac:(unfold enough_fuel; lia)) as (Hv & _ & Hk).
  split; assumption.
Qed.

Definition page_reply (conversations : list json) (next_uri : option string)
  : outcome :=
  ok_reply (JObj (("conversations", JArr conversations)
                  :: match next_uri with
                     | Some u => [("nextUri", JStr u)]
                     | None => []
                     end)).

(** C5 as stated fails when a turn ends in an exception: the response
    carries a continuation reference, the detail request of its one
    conversation fails, and the loop is over after this one query. *)
Lemma page_loop_ends_on_failure :
  let page1 :=
    page_reply [JObj [("conversationId", JStr "c1")]] (Some "/page/2") in
  let run :=
    page_loop 3 "recording_ids.csv" (query_body (datetime.mk 2024 1 1 0 0 0)
                                       (datetime.mk 2024 1 2 0 0 0)) 1
      (sample_world [page1; ConnectionFails] ∅) in
  next_uri_truthy page1 = true
  /\ value run = Ok true
  /\ turns (events run) = [(page1, true)]
  /\ length (query_posts (events run)) = 1%nat.
Proof. cbn zeta. repeat split; vm_compute; reflexivity. Qed.

(** What the loop puts in [pageNumber]: nothing in the first query, then
    1, 2, ... (line 137 stores [page_count] before line 138 adds one to
    it), while line 96 announces the pages as 1, 2, 3, ... *)
Example page_numbers_of_three_queries :
  let run :=
    page_loop 4 "recording_ids.csv" (query_body (datetime.mk 2024 1 1 0 0 0)
                                       (datetime.mk 2024 1 2 0 0 0)) 1
      (sample_world [page_reply [] (Some "/page/2");
                     page_reply [] (Some "/page/3"); page_reply [] None] ∅) in
  map page_number_of (query_posts (events run))
  = [None; Some (JInt 1); Some (JInt 2)]
  /\ List.filter (fun ev => match ev with
                            | Print "Fetching page {page_count}..." _ => true
                            | _ => false
                            end) (events run)
     = [fetching 1; fetching 2; fetching 3].
Proof. cbn zeta. split; vm_compute; reflexivity. Qed.

(** ** C3: retries and their delays *)

Definition is_token_post (ev : event) : bool :=
  match ev with
  | Request POST OAuthToken _ _ _ => true
  | _ => false
  end.

Definition is_recordings_get (ev : event) : bool :=
  match ev with
  | Request GET (ConversationRecordings _) _ _ _ => true
  | _ => false
  end.

(** A reply that makes the attempt end in a [RequestException]: no
    response, an error status, or a text that is not JSON. *)
Definition retryable (o : outcome) : bool :=
  match o with
  | ConnectionFails => true
  | Replies r =>
      ((400 <=? status_code r) && (status_code r <? 600))
      || match body r with
         | NotJSON => true
         | _ => false
         end
  end.


Lemma decode_document r j : decode r = Ok j <-> body r = Document j.
Proof. unfold decode. destruct (body r); split; congruence. Qed.

Lemma not_retryable r :
  (400 <=? status_code r) && (status_code r <? 600) = false ->
  body r <> NotJSON -> retryable (Replies r) = false.
Proof.
  intros Hs Hb. unfold retryable. rewrite Hs.
  destruct (body r); try reflexivity. now contradiction Hb.
Qed.


Definition none_selected (sel : event -> bool) (evs : list event) : Prop :=
  Forall (fun ev => sel ev = false) evs.





(** The reply makes the body of an attempt raise a
    [RequestException], and nothing else happens in it. *)
Lemma attempt_raises {A} m ep hdrs payload (k : json -> M A) w :
  retryable (reply w) = true ->
  bind (requests m ep hdrs payload)
    (fun response =>
       raise_for_status response;;
       j <- response_json response;; k j) w
  = mkRun (Raise RequestException) (consume w)
      [Request m ep hdrs payload (reply w)].
Proof.
  intros Hr. destruct (reply w) as [| r] eqn:Er.
  - now apply bind_requests_fails.
  - rewrite (bind_requests_ok _ _ _ _ _ _ r Er). cbv beta.
    unfold raise_for_status, retryable in *.
    destruct ((400 <=? status_code r) && (status_code r <? 600)).
    + rewrite bind_raise. reflexivity.
    + rewrite bind_ret. cbv beta. unfold response_json, decode.
      destruct (body r); try discriminate. rewrite bind_lift_raise.
      reflexivity.
Qed.

(** The exceptions of the decoder that are no [RequestException]. *)
Lemma decode_raises r e :
  body r <> NotJSON -> decode r = Raise e ->
  e = RecursionError \/ e = ValueError.
Proof.
  unfold decode. destruct (body r); intros Hb [= <-]; auto. contradiction.
Qed.

Lemma decode_not_retried r e :
  body r <> NotJSON -> decode r = Raise e -> is_request_exception e = false.
Proof.
  intros Hb He. destruct (decode_raises r e Hb He) as [-> | ->]; reflexivity.
Qed.

(** Otherwise the response is decoded, and the document handed on or
    the decoder's exception raised. *)
Lemma attempt_decodes {A} m ep hdrs payload (k : json -> M A) w :
  retryable (reply w) = false ->
  exists r,
    reply w = Replies r
    /\ (400 <=? status_code r) && (status_code r <? 600) = false
    /\ body r <> NotJSON
    /\ bind (requests m ep hdrs payload)
         (fun response =>
            raise_for_status response;;
            j <- response_json response;; k j) w
       = match decode r with
         | Ok j =>
             prepend [Request m ep hdrs payload (reply w)] (k j (consume w))
         | Raise e =>
             mkRun (Raise e) (consume w) [Request m ep hdrs payload (reply w)]
         end.
Proof.
  intros Hr. destruct (reply w) as [| r] eqn:Er; [discriminate |].
  unfold retryable in Hr. apply orb_false_iff in Hr. destruct Hr as [Hs Hb].
  exists r. split; [reflexivity |]. split; [exact Hs |].
  split; [intros E; rewrite E in Hb; discriminate |].
  rewrite (bind_requests_ok _ _ _ _ _ _ r Er). cbv beta.
  unfold raise_for_status. rewrite Hs, bind_ret. cbv beta.
  unfold response_json. destruct (decode r) as [j | e].
  - now rewrite bind_lift_ok.
  - now rewrite bind_lift_raise.
Qed.

Definition auth_warning (attempt : Z) : event :=
  Log WARNING "Authentication attempt {attempt + 1} failed: {e}"
    [AVal (JInt (attempt + 1)); AExn RequestException].

Definition token_post (data : json) (o : outcome) : event :=
  Request POST OAuthToken JNull (Some data) o.

Definition auth_success : event :=
  Log INFO "Successfully authenticated with Genesys Cloud" [].

Definition auth_error (e : exn) : event :=
  Log ERROR "Authentication failed: {e}" [AExn e].

(** The world with [tok] as the token of the session and of its
    headers. *)
Definition with_token (w : world) (tok : json) : world :=
  mkWorld (net w) (files w)
    (mkFinder (environment (self w)) (client_id (self w))
       (client_secret (self w)) tok tok)
    (total_recordings w) (locked w).

Lemma auth_attempt_retries attempt rest mx data w :
  retryable (reply w) = true -> (attempt <? mx - 1) = true ->
  authenticate_attempts (attempt :: rest) mx data w
  = prepend [token_post data (reply w); auth_warning attempt;
             Sleep (seconds (2 ^ attempt))]
      (authenticate_attempts rest mx data (consume w)).
Proof.
  intros Hr Hlt. cbn [authenticate_attempts].
  erewrite bind_run_ok; cycle 1.
  { erewrite try_run_caught; [| apply attempt_raises; exact Hr | reflexivity].
    rewrite bind_logging. cbv beta. rewrite Hlt.
    rewrite bind_sleep. reflexivity. }
  reflexivity.
Qed.

Lemma auth_attempt_gives_up attempt rest mx data w :
  retryable (reply w) = true -> (attempt <? mx - 1) = false ->
  authenticate_attempts (attempt :: rest) mx data w
  = mkRun (Raise RequestException) (consume w)
      [token_post data (reply w); auth_warning attempt].
Proof.
  intros Hr Hlt. cbn [authenticate_attempts].
  erewrite bind_run_raise; cycle 1.
  { erewrite try_run_caught; [| apply attempt_raises; exact Hr | reflexivity].
    rewrite bind_logging. cbv beta. rewrite Hlt. reflexivity. }
  reflexivity.
Qed.

Lemma getitem_raises j k e :
  Py.getitem j k = Raise e -> e = KeyError \/ e = TypeError.
Proof.
  destruct j; cbn; try (intros [= <-]; auto).
  destruct (Py.assoc k members); [discriminate | intros [= <-]; auto].
Qed.

(** An attempt whose reply is no failure settles the loop: the token is
    installed, or the decoder or the lookup of [access_token] raises. *)
Lemma auth_attempt_settles attempt rest mx data w :
  retryable (reply w) = false ->
  exists r,
    reply w = Replies r
    /\ (400 <=? status_code r) && (status_code r <? 600) = false
    /\ body r <> NotJSON
    /\ authenticate_attempts (attempt :: rest) mx data w
       = match decode r with
         | Ok j =>
             match Py.getitem j "access_token" with
             | Ok tok =>
                 mkRun (Ok tt) (with_token (consume w) tok)
                   [token_post data (reply w); auth_success]
             | Raise e =>
                 mkRun (Raise e) (consume w) [token_post data (reply w)]
             end
         | Raise e => mkRun (Raise e) (consume w) [token_post data (reply w)]
         end.
Proof.
  intros Hr. cbn [authenticate_attempts].
  destruct (attempt_decodes POST OAuthToken JNull (Some data)
              (fun token_data =>
                 tok <- lift (Py.getitem token_data "access_token");;
                 set_token tok;;
                 logging INFO
                   "Successfully authenticated with Genesys Cloud" [];;
                 ret true) w Hr) as (r & Er & Hs & Hb & Hrun).
  exists r. split; [exact Er |]. split; [exact Hs |]. split; [exact Hb |].
  destruct (decode r) as [j | e] eqn:Ed.
  - destruct (Py.getitem j "access_token") as [tok | e] eqn:Etok.
    + erewrite bind_run_ok; cycle 1.
      { erewrite try_run_ok; [reflexivity |].
        rewrite Hrun. cbv beta. rewrite ?Etok. rewrite bind_lift_ok. cbv beta.
        erewrite bind_run_ok; [| reflexivity].
        rewrite bind_logging. reflexivity. }
      reflexivity.
    + assert (Hne : is_request_exception e = false).
      { destruct (getitem_raises _ _ _ Etok) as [-> | ->]; reflexivity. }
      erewrite bind_run_raise; cycle 1.
      { erewrite try_run_passed; [reflexivity | | exact Hne].
        rewrite Hrun. cbv beta. rewrite ?Etok. rewrite bind_lift_raise.
        reflexivity. }
      reflexivity.
  - erewrite bind_run_raise; cycle 1.
    { erewrite try_run_passed;
        [reflexivity | exact Hrun | exact (decode_not_retried r e Hb Ed)]. }
    reflexivity.
Qed.


Lemma auth_attempt_decides attempt rest mx data w :
  retryable (reply w) = false ->
  exists tail,
    events (authenticate_attempts (attempt :: rest) mx data w)
    = token_post data (reply w) :: tail
    /\ none_selected is_token_post tail.
Proof.
  intros Hr.
  destruct (auth_attempt_settles attempt rest mx data w Hr)
    as (r & _ & _ & _ & ->).
  destruct (decode r) as [j | e]; [destruct (Py.getitem j "access_token") |];
    cbn; eexists; (split; [reflexivity | repeat constructor]).
Qed.

Lemma auth_attempts_head attempt rest mx data w :
  exists tail,
    events (authenticate_attempts (attempt :: rest) mx data w)
    = token_post data (reply w) :: tail.
Proof.
  destruct (retryable (reply w)) eqn:Hr.
  - destruct (attempt <? mx - 1) eqn:Hlt.
    + rewrite auth_attempt_retries by assumption. cbn. eauto.
    + rewrite auth_attempt_gives_up by assumption. cbn. eauto.
  - destruct (auth_attempt_decides attempt rest mx data w Hr)
      as (tail & E & _). eauto.
Qed.

Lemma bind_same_run {A B} (c c' : M A) (k : A -> M B) w :
  c w = c' w -> bind c k w = bind c' k w.
Proof. intros E. unfold bind. now rewrite E. Qed.

Lemma try_same_run {A} (c c' : M A) catches h w :
  c w = c' w -> try_except c catches h w = try_except c' catches h w.
Proof. intros E. unfold try_except. now rewrite E. Qed.


(** [authenticate] around its loop. *)
Definition authenticate_from (attempts : list Z) (data : json) : M unit :=
  try_except (authenticate_attempts attempts 3 data) any_exception
    (fun e => logging ERROR "Authentication failed: {e}" [AExn e];; raise e).

Lemma authenticate_unfold w :
  authenticate w = authenticate_from (range 3) (token_request_data (self w)) w.
Proof.
  unfold authenticate, authenticate_from. apply try_same_run.
  now rewrite bind_get_self.
Qed.

Lemma authenticate_run w :
  let r := authenticate_attempts (range 3) 3 (token_request_data (self w)) w in
  value (authenticate w) = value r
  /\ events (authenticate w)
     = events r ++ match value r with
                   | Raise e => [auth_error e]
                   | Ok _ => []
                   end.
Proof.
  cbn zeta. unfold authenticate, try_except. rewrite bind_get_self.
  destruct (value (authenticate_attempts _ _ _ w)) as [[] | e] eqn:E.
  - rewrite E. split; [reflexivity | now rewrite app_nil_r].
  - cbn. split; reflexivity.
Qed.





Definition fetch_warning (attempt : Z) (conversation_id : json) : event :=
  Log WARNING
    "Attempt {attempt + 1} failed to retrieve recordings for {conversation_id}: {e}"
    [AVal (JInt (attempt + 1)); AVal conversation_id; AExn RequestException].

Definition gave_up (max_retries : Z) : event :=
  Log ERROR "Failed to retrieve recordings after {max_retries} attempts"
    [AVal (JInt max_retries)].

Definition recordings_get (w : world) (conversation_id : json) (o : outcome)
  : event :=
  Request GET (ConversationRecordings conversation_id) (headers (self w))
    None o.

Definition fetch_error (conversation_id : json) (e : exn) : event :=
  Log ERROR
    "Error retrieving recordings for conversation {conversation_id}: {str(e)}"
    [AVal conversation_id; AExn e].

(** The body of an attempt of the detail fetch, after the request. *)
Definition export_response (conversation_id : json) (out : string)
  (response_json : json) : M attempt_ctl :=
  append_records conversation_id (items_of (normalize response_json)) out;;
  ret (Breaks (normalize response_json)).

Lemma fetch_attempt_body a rest mx cid out recs w :
  fetch_attempts_2 (a :: rest) mx cid out recs w
  = bind
      (try_except
         (bind (requests GET (ConversationRecordings cid) (headers (self w))
                  None)
            (fun response =>
               raise_for_status response;;
               j <- response_json response;; export_response cid out j))
         is_request_exception
         (fun e =>
            logging WARNING
              "Attempt {attempt + 1} failed to retrieve recordings for {conversation_id}: {e}"
              [AVal (JInt (a + 1)); AVal cid; AExn e];;
            if a <? mx - 1 then
              authenticate;; sleep (seconds (2 ^ a));; ret Next
            else
              logging ERROR
                "Failed to retrieve recordings after {max_retries} attempts"
                [AVal (JInt mx)];;
              ret (Returns (JArr []))))
      (fun ctl =>
         match ctl with
         | Returns v => ret v
         | Breaks recordings' => ret recordings'
         | Next => fetch_attempts_2 rest mx cid out recs
         end) w.
Proof.
  cbn [fetch_attempts_2]. apply bind_same_run. apply try_same_run.
  rewrite bind_get_headers. reflexivity.
Qed.

Lemma fetch_attempt_retries a rest mx cid out recs w :
  retryable (reply w) = true -> (a <? mx - 1) = true ->
  fetch_attempts_2 (a :: rest) mx cid out recs w
  = match value (authenticate (consume w)) with
    | Ok _ =>
        prepend
          ([recordings_get w cid (reply w); fetch_warning a cid]
           ++ events (authenticate (consume w)) ++ [Sleep (seconds (2 ^ a))])
          (fetch_attempts_2 rest mx cid out recs
             (after (authenticate (consume w))))
    | Raise e =>
        mkRun (Raise e) (after (authenticate (consume w)))
          ([recordings_get w cid (reply w); fetch_warning a cid]
           ++ events (authenticate (consume w)))
    end.
Proof.
  intros Hr Hlt. rewrite fetch_attempt_body.
  destruct (authenticate (consume w)) as [v wa evs] eqn:Ea. cbn [value].
  destruct v as [[] | e].
  - erewrite bind_run_ok; cycle 1.
    { erewrite try_run_caught;
        [| apply attempt_raises; exact Hr | reflexivity].
      rewrite bind_logging. cbv beta. rewrite Hlt.
      erewrite bind_run_ok; [| exact Ea]. rewrite bind_sleep.
      unfold ret. rewrite !prepend_prepend, prepend_mkRun. reflexivity. }
    cbn [after events]. f_equal. cbn. now rewrite <- app_assoc.
  - erewrite bind_run_raise; cycle 1.
    { erewrite try_run_caught;
        [| apply attempt_raises; exact Hr | reflexivity].
      rewrite bind_logging. cbv beta. rewrite Hlt.
      erewrite bind_run_raise; [| exact Ea].
      rewrite prepend_prepend, prepend_mkRun. reflexivity. }
    reflexivity.
Qed.

Lemma fetch_attempt_gives_up a rest mx cid out recs w :
  retryable (reply w) = true -> (a <? mx - 1) = false ->
  fetch_attempts_2 (a :: rest) mx cid out recs w
  = mkRun (Ok (JArr [])) (consume w)
      [recordings_get w cid (reply w); fetch_warning a cid; gave_up mx].
Proof.
  intros Hr Hlt. rewrite fetch_attempt_body.
  erewrite bind_run_ok; cycle 1.
  { erewrite try_run_caught;
      [| apply attempt_raises; exact Hr | reflexivity].
    rewrite bind_logging. cbv beta. rewrite Hlt.
    rewrite bind_logging. unfold ret.
    rewrite !prepend_prepend, prepend_mkRun. reflexivity. }
  reflexivity.
Qed.

(** What the export of a decoded response comes to. *)
Definition export_result (cid : json) (out : string) (j : json) (w : world)
  : run json :=
  match open_error (consume w) out with
  | Some e => mkRun (Raise e) (consume w) []
  | None =>
      mkRun
        (match snd (exported cid (items_of (normalize j))) with
         | None => Ok (normalize j)
         | Some e => Raise e
         end)
        (with_file (consume w) out
           (content w out ++ header_if_new (files w !! out)
            ++ fst (exported cid (items_of (normalize j)))))
        (match snd (exported cid (items_of (normalize j))) with
         | None => [added_message cid (items_of (normalize j)) out]
         | Some _ => []
         end)
  end.

Lemma export_result_raises cid out j w e :
  value (export_result cid out j w) = Raise e ->
  is_request_exception e = false.
Proof.
  unfold export_result, open_error.
  destruct (has_nul out); [now intros [= <-] |].
  destruct (_ || _); [now intros [= <-] |]. cbn [value].
  destruct (snd (exported cid (items_of (normalize j)))) as [e' |] eqn:Ex;
    [| discriminate].
  intros [= <-]. now rewrite (exported_raises _ _ _ Ex).
Qed.

Lemma export_response_run cid out j w :
  export_response cid out j (consume w)
  = mkRun (match value (export_result cid out j w) with
           | Ok v => Ok (Breaks v)
           | Raise e => Raise e
           end)
      (after (export_result cid out j w))
      (events (export_result cid out j w)).
Proof.
  unfold export_response, export_result.
  pose proof (append_records_run cid (items_of (normalize j)) out (consume w))
    as Ha.
  change (content (consume w) out) with (content w out) in Ha.
  change (files (consume w)) with (files w) in Ha.
  destruct (open_error (consume w) out) as [e |].
  - erewrite bind_run_raise; [| exact Ha]. reflexivity.
  - unfold header_if_new.
    destruct (snd (exported cid (items_of (normalize j)))) as [e |];
      cbn in Ha.
    + erewrite bind_run_raise; [| exact Ha]. reflexivity.
    + erewrite bind_run_ok; [| exact Ha]. reflexivity.
Qed.

(** An attempt whose reply is no failure is the last: the decoder
    raises, or the records are exported, up to the first that cannot be
    turned into a row. *)
Lemma fetch_attempt_exports a rest mx cid out recs w :
  retryable (reply w) = false ->
  exists r,
    reply w = Replies r
    /\ (400 <=? status_code r) && (status_code r <? 600) = false
    /\ body r <> NotJSON
    /\ fetch_attempts_2 (a :: rest) mx cid out recs w
       = match decode r with
         | Ok j => prepend [recordings_get w cid (reply w)]
                     (export_result cid out j w)
         | Raise e =>
             mkRun (Raise e) (consume w) [recordings_get w cid (reply w)]
         end.
Proof.
  intros Hr. rewrite fetch_attempt_body.
  destruct (attempt_decodes GET (ConversationRecordings cid)
              (headers (self w)) None (export_response cid out) w Hr)
    as (r & Er & Hs & Hb & Hrun).
  exists r. split; [exact Er |]. split; [exact Hs |]. split; [exact Hb |].
  destruct (decode r) as [j | e] eqn:Ed.
  - rewrite export_response_run in Hrun.
    destruct (value (export_result cid out j w)) as [v | e] eqn:Ev.
    + erewrite bind_run_ok; cycle 1.
      { erewrite try_run_ok; [reflexivity | exact Hrun]. }
      unfold prepend, ret. cbn [value after events].
      rewrite Ev, app_nil_r. reflexivity.
    + erewrite bind_run_raise; cycle 1.
      { erewrite try_run_passed;
          [reflexivity | exact Hrun | exact (export_result_raises _ _ _ _ _ Ev)]. }
      unfold prepend. cbn [value after events]. now rewrite Ev.
  - erewrite bind_run_raise; cycle 1.
    { erewrite try_run_passed;
        [reflexivity | exact Hrun | exact (decode_not_retried r e Hb Ed)]. }
    reflexivity.
Qed.

Lemma fetch_attempt_settles_any a a' rest rest' mx cid out recs recs' w :
  retryable (reply w) = false ->
  fetch_attempts_2 (a :: rest) mx cid out recs w
  = fetch_attempts_2 (a' :: rest') mx cid out recs' w.
Proof.
  intros Hr.
  destruct (fetch_attempt_exports a rest mx cid out recs w Hr)
    as (r & Er & _ & _ & ->).
  destruct (fetch_attempt_exports a' rest' mx cid out recs' w Hr)
    as (r' & Er' & _ & _ & ->).
  rewrite Er in Er'. injection Er' as <-. reflexivity.
Qed.





Lemma export_result_no_get cid out j w :
  none_selected is_recordings_get (events (export_result cid out j w)).
Proof.
  unfold export_result. destruct (open_error _ _); [constructor |].
  cbn [events]. destruct (snd _); repeat constructor.
Qed.

Lemma fetch_attempt_decides a rest mx cid out recs w :
  retryable (reply w) = false ->
  exists tail,
    events (fetch_attempts_2 (a :: rest) mx cid out recs w)
    = recordings_get w cid (reply w) :: tail
    /\ none_selected is_recordings_get tail.
Proof.
  intros Hr.
  destruct (fetch_attempt_exports a rest mx cid out recs w Hr)
    as (r & _ & _ & _ & ->).
  destruct (decode r) as [j | e]; cbn [prepend events app].
  - eexists. split; [reflexivity | apply export_result_no_get].
  - eexists. split; [reflexivity | constructor].
Qed.

Lemma fetch_attempts_head a rest mx cid out recs w :
  exists tail,
    events (fetch_attempts_2 (a :: rest) mx cid out recs w)
    = recordings_get w cid (reply w) :: tail.
Proof.
  destruct (retryable (reply w)) eqn:Hr.
  - destruct (a <? mx - 1) eqn:Hlt.
    + rewrite fetch_attempt_retries by assumption.
      destruct (value (authenticate (consume w))); cbn; eauto.
    + rewrite fetch_attempt_gives_up by assumption. cbn. eauto.
  - destruct (fetch_attempt_decides a rest mx cid out recs w Hr)
      as (tail & E & _). eauto.
Qed.

(** The detail fetch around its loop. *)
Definition fetch_from (attempts : list Z) (cid : json) (out : string)
  : M json :=
  try_except (fetch_attempts_2 attempts 3 cid out (JArr [])) any_exception
    (fun e =>
       logging ERROR
         "Error retrieving recordings for conversation {conversation_id}: {str(e)}"
         [AVal cid; AExn e];;
       ret (JArr [])).

Lemma find_recordings_2_unfold cid out w :
  Py.truthy (access_token (self w)) = true ->
  find_recordings_by_conversation_id_2 cid out w
  = fetch_from (range 3) cid out w.
Proof.
  intros Htok. unfold find_recordings_by_conversation_id_2, fetch_from.
  apply try_same_run. rewrite bind_get_self. cbv beta. rewrite Htok.
  cbn [negb]. now rewrite bind_ret.
Qed.











Definition token_reply : outcome :=
  ok_reply (JObj [("access_token", JStr "fresh")]).


(** C3 as stated fails in two ways.  After the third failure, attempt 2,
    no delay follows: three failed attempts of [authenticate] come with
    two sleeps, of 1 and 2 seconds.  And between two attempts of the
    detail fetch the program can sleep longer than [2 ^ k] seconds: here
    the re-authentication fails twice before it succeeds, and the sleeps
    between the first and the second request for recordings are 1, 2
    and 1 seconds. *)
Lemma retry_backoff_delays :
  let data := token_request_data sample_finder in
  let get tok o :=
    Request GET (ConversationRecordings (JStr "c1")) (JStr tok) None o in
  List.filter (fun ev => match ev with Sleep _ => true | _ => false end)
    (events (authenticate
               (sample_world
                  [status_reply 500; status_reply 500; status_reply 500] ∅)))
  = [Sleep (seconds 1); Sleep (seconds 2)]
  /\ events (find_recordings_by_conversation_id_2 (JStr "c1") "out.csv"
               (sample_world
                  [status_reply 500; status_reply 500; status_reply 500;
                   token_reply; ok_reply (JArr [])] ∅))
     = [get "token" (status_reply 500); fetch_warning 0 (JStr "c1");
        token_post data (status_reply 500); auth_warning 0;
        Sleep (seconds 1);
        token_post data (status_reply 500); auth_warning 1;
        Sleep (seconds 2);
        token_post data token_reply; auth_success;
        Sleep (seconds 1);
        get "fresh" (ok_reply (JArr []));
        added_message (JStr "c1") [] "out.csv"].
Proof. cbn zeta. split; vm_compute; reflexivity. Qed.

(** One failed attempt of the detail fetch: the warning, the new token,
    one second of sleep, the second attempt with the new token. *)
Example detail_fetch_retry_trace :
  events (find_recordings_by_conversation_id_2 (JStr "c1") "out.csv"
            (sample_world [status_reply 500; token_reply; ok_reply (JArr [])]
               ∅))
  = [Request GET (ConversationRecordings (JStr "c1")) (JStr "token") None
       (status_reply 500);
     fetch_warning 0 (JStr "c1");
     token_post (token_request_data sample_finder) token_reply;
     Log INFO "Successfully authenticated with Genesys Cloud" [];
     Sleep (seconds 1);
     Request GET (ConversationRecordings (JStr "c1")) (JStr "fresh") None
       (ok_reply (JArr []));
     Print
       "Added {len(recordings)} recordings for conversation {conversation_id} to {output_file}"
       [AVal (JInt 0); AVal (JStr "c1"); AVal (JStr "out.csv")]].
Proof. vm_compute. reflexivity. Qed.

(** A text nested too deep for the decoder is no transport failure: the
    [RecursionError] is not retried; [authenticate] logs it and raises
    it, the detail fetch logs it and returns an empty list. *)
Example decoder_limit_is_not_retried :
  let deep := Replies (mkResponse 200 (JObj []) "[[[[" TooDeep) in
  authenticate (sample_world [deep; token_reply] ∅)
  = mkRun (Raise RecursionError) (sample_world [token_reply] ∅)
      [token_post (token_request_data sample_finder) deep;
       auth_error RecursionError]
  /\ find_recordings_by_conversation_id_2 (JStr "c1") "out.csv"
       (sample_world [deep; token_reply] ∅)
     = mkRun (Ok (JArr [])) (sample_world [token_reply] ∅)
         [Request GET (ConversationRecordings (JStr "c1")) (JStr "token")
            None deep;
          fetch_error (JStr "c1") RecursionError].
Proof. cbn zeta. split; vm_compute; reflexivity. Qed.

(** ** C10: the two definitions of the detail fetch *)

(** The export of a response whose records can all be turned into
    rows, to a file that can be opened. *)
Lemma exported_all cid recordings rows :
  Forall2 (fun recording r => detail_row cid recording = Ok r)
    recordings rows ->
  exported cid recordings = (rows, None).
Proof.
  induction 1 as [| rec r recs rows Hr _ IH]; [reflexivity |].
  cbn [exported]. now rewrite Hr, IH.
Qed.

Lemma detail_row_length cid recording r :
  detail_row cid recording = Ok r -> length r = 7%nat.
Proof.
  unfold detail_row. intros H.
  repeat match type of H with
         | context [ Py.get ?v ?k ?d ] =>
             destruct (Py.get v k d); [| discriminate ];
             cbv beta iota in H
         end.
  now injection H as <-.
Qed.

(** The list of lines 208-213, spelled out by the shape of the
    document. *)
Definition shaped (response_json : json) : list json :=
  match response_json with
  | JArr items => items
  | JObj members =>
      match Py.assoc "entities" members with
      | Some (JArr items) => items
      | Some other => [other]
      | None => [response_json]
      end
  | _ => [response_json]
  end.

Lemma normalize_shaped j : normalize j = JArr (shaped j).
Proof.
  unfold normalize, shaped.
  destruct j as [| b | z | s | items | members]; try reflexivity.
  destruct (Py.assoc "entities" members) as [[| b | z | s | items | m'] |];
    reflexivity.
Qed.

(** The detail fetch on a first reply that is no failure, for a session
    that holds a token. *)
Lemma find_recordings_2_first_reply cid out w r :
  Py.truthy (access_token (self w)) = true ->
  reply w = Replies r ->
  (400 <=? status_code r) && (status_code r <? 600) = false ->
  body r <> NotJSON ->
  find_recordings_by_conversation_id_2 cid out w
  = match decode r with
    | Ok j =>
        let x := export_result cid out j w in
        mkRun (Ok match value x with
                  | Ok v => v
                  | Raise _ => JArr []
                  end)
          (after x)
          (recordings_get w cid (Replies r)
           :: events x ++ match value x with
                          | Ok _ => []
                          | Raise e => [fetch_error cid e]
                          end)
    | Raise e =>
        mkRun (Ok (JArr [])) (consume w)
          [recordings_get w cid (Replies r); fetch_error cid e]
    end.
Proof.
  intros Htok Er Hs Hb.
  assert (Hr : retryable (reply w) = false).
  { rewrite Er. now apply not_retryable. }
  rewrite (find_recordings_2_unfold cid out w Htok). unfold fetch_from.
  destruct (fetch_attempt_exports 0 [1; 2] 3 cid out (JArr []) w Hr)
    as (r' & Er' & _ & _ & Hrun).
  rewrite Er in Er'. injection Er' as <-.
  change (0 :: [1; 2]) with (range 3) in Hrun. rewrite Er in Hrun.
  destruct (decode r) as [j | e].
  - cbv zeta. destruct (export_result cid out j w) as [[v | e] wa evs];
      unfold prepend in Hrun; cbn [value after events app] in Hrun |- *.
    + erewrite try_run_ok; [| exact Hrun]. now rewrite app_nil_r.
    + erewrite try_run_caught; [| exact Hrun | reflexivity].
      rewrite bind_logging. reflexivity.
  - erewrite try_run_caught; [| exact Hrun | reflexivity].
    rewrite bind_logging. reflexivity.
Qed.

(** The same when all records can be turned into rows. *)
Lemma find_recordings_2_exports cid out w r j rows :
  Py.truthy (access_token (self w)) = true ->
  reply w = Replies r ->
  (400 <=? status_code r) && (status_code r <? 600) = false ->
  body r = Document j ->
  Forall2 (fun recording row => detail_row cid recording = Ok row)
    (shaped j) rows ->
  find_recordings_by_conversation_id_2 cid out w
  = match open_error w out with
    | None =>
        mkRun (Ok (JArr (shaped j)))
          (with_file (consume w) out
             (content w out ++ header_if_new (files w !! out) ++ rows))
          [recordings_get w cid (Replies r);
           added_message cid (shaped j) out]
    | Some e =>
        mkRun (Ok (JArr [])) (consume w)
          [recordings_get w cid (Replies r); fetch_error cid e]
    end.
Proof.
  intros Htok Er Hs Ej Hrows.
  rewrite (find_recordings_2_first_reply cid out w r Htok Er Hs)
    by (rewrite Ej; discriminate).
  apply decode_document in Ej. rewrite Ej. cbv zeta.
  unfold export_result. change (open_error (consume w) out)
    with (open_error w out).
  destruct (open_error w out) as [e |]; [reflexivity |].
  rewrite normalize_shaped. cbn [items_of].
  rewrite (exported_all _ _ _ Hrows). reflexivity.
Qed.

(** C10: the class namespace binds the name to the definition of line
    192, so every call runs the second definition, whatever pandas
    would do.  What a call then does is the behaviour of the second
    definition: answered with a document, it takes the list from one of
    the three shapes (an array as it is, the [entities] member of an
    object, anything else wrapped), appends to the file the header of
    seven columns when the file is missing or empty and one row of seven
    cells per record, prints the line that tells how many were added and
    returns the list.  It is not the behaviour of the first definition:
    answered with a bare array, the first definition returns an empty
    list and writes no file. *)
Theorem second_definition_replaces_first
  (to_csv : json -> bool -> res (list row)) :
  class_namespace !! "find_recordings_by_conversation_id"
  = Some Def_find_recordings_192
  /\ (forall conversation_id output_file w,
        find_recordings_by_conversation_id to_csv conversation_id output_file w
        = find_recordings_by_conversation_id_2 conversation_id output_file w)
  /\ (forall conversation_id output_file w r j rows,
        Py.truthy (access_token (self w)) = true ->
        reply w = Replies r ->
        (400 <=? status_code r) && (status_code r <? 600) = false ->
        body r = Document j ->
        open_error w output_file = None ->
        let recordings :=
          match j with
          | JArr items => items
          | JObj members =>
              match Py.assoc "entities" members with
              | Some (JArr items) => items
              | Some other => [other]
              | None => [j]
              end
          | _ => [j]
          end in
        Forall2 (fun recording row =>
                   detail_row conversation_id recording = Ok row)
          recordings rows ->
        find_recordings_by_conversation_id to_csv conversation_id output_file w
        = mkRun (Ok (JArr recordings))
            (with_file (consume w) output_file
               (content w output_file
                ++ (if missing_or_empty (files w !! output_file)
                    then [detail_header] else [])
                ++ rows))
            [recordings_get w conversation_id (Replies r);
             added_message conversation_id recordings output_file]
        /\ Forall (fun row => length row = 7%nat) (detail_header :: rows))
  /\ (let w := sample_world [ok_reply (JArr [JObj [("id", JStr "r1")]])] ∅ in
      let first :=
        find_recordings_by_conversation_id_1 to_csv (JStr "c1")
          "recording_ids.csv" w in
      let bound :=
        find_recordings_by_conversation_id to_csv (JStr "c1")
          "recording_ids.csv" w in
      value first = Ok (JArr [])
      /\ files (after first) !! "recording_ids.csv" = None
      /\ value bound = Ok (JArr [JObj [("id", JStr "r1")]])
      /\ files (after bound) !! "recording_ids.csv"
         = Some [detail_header;
                 [CVal (JStr "c1"); CVal (JStr "r1"); CVal (JStr "N/A");
                  CVal (JStr "N/A"); CVal (JStr "N/A"); CVal (JStr "N/A");
                  CVal (JStr "N/A")]]).
Proof.
  assert (E : class_namespace !! "find_recordings_by_conversation_id"
              = Some Def_find_recordings_192) by (vm_compute; reflexivity).
  split; [exact E |]. split; [| split].
  - intros cid out w. apply dispatch_second.
  - intros cid out w r j rows Htok Er Hs Ej Ho recordings Hrows.
    change recordings with (shaped j) in *. split.
    + rewrite dispatch_second,
        (find_recordings_2_exports cid out w r j rows Htok Er Hs Ej Hrows).
      now rewrite Ho.
    + constructor; [reflexivity |].
      clear - Hrows. induction Hrows as [| rec row recs rows Hrow _ IH];
        constructor; [exact (detail_row_length _ _ _ Hrow) | exact IH].
  - cbn zeta. rewrite dispatch_second.
    repeat split; vm_compute; reflexivity.
Qed.

(** An instance: an object with an [entities] array of two records. *)
Example second_definition_on_entities
  (to_csv : json -> bool -> res (list row)) :
  find_recordings_by_conversation_id to_csv (JStr "c1") "recording_ids.csv"
    (sample_world
       [ok_reply (JObj [("entities", JArr [JObj [("id", JStr "r1")];
                                           JObj [("id", JStr "r2")]])])] ∅)
  = mkRun (Ok (JArr [JObj [("id", JStr "r1")]; JObj [("id", JStr "r2")]]))
      (sample_world []
         {[ "recording_ids.csv" :=
              [detail_header; sample_row "c1" "r1"; sample_row "c1" "r2"] ]})
      [Request GET (ConversationRecordings (JStr "c1")) (JStr "token") None
         (ok_reply (JObj [("entities", JArr [JObj [("id", JStr "r1")];
                                             JObj [("id", JStr "r2")]])]));
       added_message (JStr "c1")
         [JObj [("id", JStr "r1")]; JObj [("id", JStr "r2")]]
         "recording_ids.csv"].
Proof. rewrite dispatch_second. vm_compute. reflexivity. Qed.

(** An instance: the [entities] of an object, exported in seven
    columns. *)
Lemma second_definition_replaces_first_entities :
  let records := [JObj [("id", JStr "r1")]; JObj [("id", JStr "r2")]] in
  let w := sample_world [ok_reply (JObj [("entities", JArr records)])] ∅ in
  find_recordings_by_conversation_id (fun _ _ => Ok []) (JStr "c1")
    "recording_ids.csv" w
  = mkRun (Ok (JArr records))
      (sample_world []
         {[ "recording_ids.csv" :=
              [detail_header; sample_row "c1" "r1"; sample_row "c1" "r2"] ]})
      [Request GET (ConversationRecordings (JStr "c1")) (JStr "token") None
         (ok_reply (JObj [("entities", JArr records)]));
       added_message (JStr "c1") records "recording_ids.csv"]
  /\ Forall (fun row => length row = 7%nat)
       [detail_header; sample_row "c1" "r1"; sample_row "c1" "r2"].
Proof.
  exact (proj1 (proj2 (proj2 (second_definition_replaces_first
                                (fun _ _ => Ok []))))
           (JStr "c1") "recording_ids.csv"
           (sample_world
              [ok_reply (JObj [("entities",
                                JArr [JObj [("id", JStr "r1")];
                                      JObj [("id", JStr "r2")]])])] ∅)
           (mkResponse 200 (JObj []) ""
              (Document (JObj [("entities",
                                JArr [JObj [("id", JStr "r1")];
                                      JObj [("id", JStr "r2")]])])))
           (JObj [("entities",
                   JArr [JObj [("id", JStr "r1")]; JObj [("id", JStr "r2")]])])
           [sample_row "c1" "r1"; sample_row "c1" "r2"]
           eq_refl eq_refl eq_refl eq_refl eq_refl
           ltac:(repeat constructor)).
Defined.

(** * Further properties of the program *)

(** ** [authenticate]: the session after a run *)

(** The session the loop leaves: the token of a reply it received, or
    the session it found. *)
Definition token_installed (data : json) (w : world) (r : run unit) : Prop :=
  exists resp j tok,
    In (token_post data (Replies resp)) (events r)
    /\ body resp = Document j
    /\ Py.getitem j "access_token" = Ok tok
    /\ self (after r)
       = mkFinder (environment (self w)) (client_id (self w))
           (client_secret (self w)) tok tok.

Lemma auth_attempts_session attempts mx data : forall w,
  let r := authenticate_attempts attempts mx data w in
  files (after r) = files w
  /\ total_recordings (after r) = total_recordings w
  /\ locked (after r) = locked w
  /\ ((value r = Ok tt /\ token_installed data w r)
      \/ (self (after r) = self w
          /\ (value r = Ok tt ->
              Forall (fun a => (a <? mx - 1) = true) attempts))).
Proof.
  unfold token_installed.
  induction attempts as [| a rest IH]; intros w; cbn zeta.
  - cbn. repeat split; auto.
  - destruct (retryable (reply w)) eqn:Hr.
    + destruct (a <? mx - 1) eqn:Hlt.
      * rewrite auth_attempt_retries by assumption.
        rewrite after_prepend, value_prepend, events_prepend.
        destruct (IH (consume w)) as (Hf & Ht & Hl & Hs).
        cbn zeta in Hf, Ht, Hl, Hs.
        split; [exact Hf |]. split; [exact Ht |]. split; [exact Hl |].
        destruct Hs as [[Hv (resp & j & tok & Hin & Hj & Htok & Hself)]
                       | [Hself Hv]].
        -- left. split; [exact Hv |]. exists resp, j, tok.
           split; [apply in_or_app; right; exact Hin |]. auto.
        -- right. split; [exact Hself |]. intros E. constructor; auto.
      * rewrite auth_attempt_gives_up by assumption. cbn.
        repeat split; auto. right. split; [reflexivity | discriminate].
    + destruct (auth_attempt_settles a rest mx data w Hr)
        as (resp & Er & _ & _ & ->).
      destruct (decode resp) as [j | e] eqn:Ed.
      * apply decode_document in Ed.
        destruct (Py.getitem j "access_token") as [tok | e] eqn:Etok; cbn.
        -- repeat split; auto. left. split; [reflexivity |].
           exists resp, j, tok. rewrite Er. cbn. auto.
        -- repeat split; auto. right. split; [reflexivity | discriminate].
      * cbn. repeat split; auto. right. split; [reflexivity | discriminate].
Qed.

Lemma authenticate_after w :
  after (authenticate w)
  = after (authenticate_attempts (range 3) 3 (token_request_data (self w)) w).
Proof.
  unfold authenticate, try_except. rewrite bind_get_self.
  destruct (value (authenticate_attempts _ _ _ w)); reflexivity.
Qed.

(** X1: [authenticate] leaves the files alone, and the session is either
    rebuilt around the [access_token] of a reply the run received, when
    the call returns, or exactly as it was, when the call raises: a
    failed authentication never leaves half a session. *)
Theorem authenticate_session (w : world) :
  let r := authenticate w in
  files (after r) = files w
  /\ total_recordings (after r) = total_recordings w
  /\ match value r with
     | Ok _ =>
         exists resp j tok,
           In (token_post (token_request_data (self w)) (Replies resp))
             (events r)
           /\ body resp = Document j
           /\ Py.getitem j "access_token" = Ok tok
           /\ self (after r)
              = mkFinder (environment (self w)) (client_id (self w))
                  (client_secret (self w)) tok tok
     | Raise _ => self (after r) = self w
     end.
Proof.
  cbn zeta. destruct (authenticate_run w) as [Hv He]. cbn zeta in Hv, He.
  rewrite authenticate_after, Hv, He.
  destruct (auth_attempts_session (range 3) 3 (token_request_data (self w)) w)
    as (Hf & Ht & _ & Hs). cbn zeta in Hf, Ht, Hs.
  split; [exact Hf |]. split; [exact Ht |].
  destruct Hs as [[Hok (resp & j & tok & Hin & Hj & Htok & Hself)]
                 | [Hself Hall]].
  - rewrite Hok. exists resp, j, tok. rewrite app_nil_r. auto.
  - destruct (value (authenticate_attempts _ _ _ w)) as [[] | e] eqn:E.
    + specialize (Hall eq_refl).
      apply Forall_inv_tail, Forall_inv_tail, Forall_inv in Hall.
      discriminate Hall.
    + exact Hself.
Qed.

(** [authenticate] on a first reply that is no failure. *)
Lemma authenticate_settles (w : world) (r : response) :
  reply w = Replies r ->
  (400 <=? status_code r) && (status_code r <? 600) = false ->
  body r <> NotJSON ->
  let post := token_post (token_request_data (self w)) (Replies r) in
  authenticate w
  = match decode r with
    | Ok j =>
        match Py.getitem j "access_token" with
        | Ok tok =>
            mkRun (Ok tt) (with_token (consume w) tok) [post; auth_success]
        | Raise e => mkRun (Raise e) (consume w) [post; auth_error e]
        end
    | Raise e => mkRun (Raise e) (consume w) [post; auth_error e]
    end.
Proof.
  intros Er Hs Hb. cbn zeta.
  assert (Hr : retryable (reply w) = false).
  { rewrite Er. now apply not_retryable. }
  destruct (auth_attempt_settles 0 [1; 2] 3 (token_request_data (self w)) w Hr)
    as (r' & Er' & _ & _ & Hrun).
  rewrite Er in Er'. injection Er' as <-.
  change (0 :: [1; 2]) with (range 3) in Hrun. rewrite Er in Hrun.
  rewrite authenticate_unfold. unfold authenticate_from.
  destruct (decode r) as [j | e];
    [destruct (Py.getitem j "access_token") as [tok | e] |].
  - erewrite try_run_ok; [reflexivity | exact Hrun].
  - erewrite try_run_caught; [| exact Hrun | reflexivity].
    rewrite bind_logging. reflexivity.
  - erewrite try_run_caught; [| exact Hrun | reflexivity].
    rewrite bind_logging. reflexivity.
Qed.

(** [authenticate] on a first reply that carries a token. *)
Lemma authenticate_installs (w : world) (r : response) (j tok : json) :
  reply w = Replies r ->
  (400 <=? status_code r) && (status_code r <? 600) = false ->
  body r = Document j ->
  Py.getitem j "access_token" = Ok tok ->
  authenticate w
  = mkRun (Ok tt) (with_token (consume w) tok)
      [token_post (token_request_data (self w)) (Replies r); auth_success].
Proof.
  intros Er Hs Ej Etok.
  rewrite (authenticate_settles w r Er Hs) by (rewrite Ej; discriminate).
  apply decode_document in Ej. now rewrite Ej, Etok.
Qed.

(** X2: a reply that is no failure settles [authenticate] at once: with an
    [access_token] member the token is installed after this one request;
    without one the lookup raises [KeyError] (or [TypeError], when the
    document is no object), which is not retried. *)
Theorem authenticate_first_reply (w : world) (r : response) (j : json) :
  reply w = Replies r ->
  (400 <=? status_code r) && (status_code r <? 600) = false ->
  body r = Document j ->
  let post := token_post (token_request_data (self w)) (Replies r) in
  match Py.getitem j "access_token" with
  | Ok tok =>
      authenticate w
      = mkRun (Ok tt) (with_token (consume w) tok) [post; auth_success]
  | Raise e =>
      authenticate w = mkRun (Raise e) (consume w) [post; auth_error e]
      /\ (e = KeyError \/ e = TypeError)
  end.
Proof.
  intros Er Hs Ej. cbn zeta.
  pose proof (authenticate_settles w r Er Hs) as Hrun. cbn zeta in Hrun.
  rewrite Hrun by (rewrite Ej; discriminate).
  apply decode_document in Ej. rewrite Ej.
  destruct (Py.getitem j "access_token") as [tok | e] eqn:Etok;
    [reflexivity |].
  split; [reflexivity | exact (getitem_raises _ _ _ Etok)].
Qed.

Lemma authenticate_first_reply_no_token :
  authenticate (sample_world [ok_reply (JObj [("error", JStr "denied")]);
                              token_reply] ∅)
  = mkRun (Raise KeyError) (sample_world [token_reply] ∅)
      [token_post (token_request_data sample_finder)
         (ok_reply (JObj [("error", JStr "denied")]));
       auth_error KeyError].
Proof.
  exact (proj1 (authenticate_first_reply
                  (sample_world [ok_reply (JObj [("error", JStr "denied")]);
                                 token_reply] ∅)
                  (mkResponse 200 (JObj []) ""
                     (Document (JObj [("error", JStr "denied")])))
                  (JObj [("error", JStr "denied")])
                  eq_refl eq_refl eq_refl)).
Defined.

(** ** [__init__]: the session of a new finder *)

(** X3: [__init__] starts from a session without token, so a finder is
    either authenticated, holding the credentials given and the token
    of a reply, or construction raises and the session holds no token
    at all, whatever token the object may have held before. *)
Theorem init_session (id secret env : string) (w : world) :
  let r := init id secret env w in
  files (after r) = files w
  /\ match value r with
     | Ok _ =>
         exists resp j tok,
           In (Request POST OAuthToken JNull
                 (Some (JObj [("grant_type", JStr "client_credentials");
                              ("client_id", JStr id);
                              ("client_secret", JStr secret)]))
                 (Replies resp)) (events r)
           /\ body resp = Document j
           /\ Py.getitem j "access_token" = Ok tok
           /\ self (after r) = mkFinder env id secret tok tok
     | Raise _ => self (after r) = mkFinder env id secret JNull JNull
     end.
Proof.
  cbn zeta. unfold init.
  erewrite bind_run_ok; [| reflexivity]. rewrite prepend_nil.
  set (w0 := mkWorld (net w) (files w)
               (mkFinder env id secret JNull JNull) (total_recordings w)
               (locked w)).
  destruct (authenticate_run w0) as [Hv He]. cbn zeta in Hv, He.
  rewrite authenticate_after, Hv, He.
  destruct (auth_attempts_session (range 3) 3 (token_request_data (self w0)) w0)
    as (Hf & _ & _ & Hs). cbn zeta in Hf, Hs.
  split; [exact Hf |].
  destruct Hs as [[Hok (resp & j & tok & Hin & Hj & Htok & Hself)]
                 | [Hself Hall]].
  - rewrite Hok. exists resp, j, tok. rewrite app_nil_r. auto.
  - destruct (value (authenticate_attempts _ _ _ w0)) as [[] | e] eqn:E.
    + specialize (Hall eq_refl).
      apply Forall_inv_tail, Forall_inv_tail, Forall_inv in Hall.
      discriminate Hall.
    + exact Hself.
Qed.


(** ** The detail fetch: what a call returns and leaves in the file *)



(** The same reply over a directory that does not exist. *)
Example detail_fetch_missing_directory :
  let reply := ok_reply (JArr [JObj [("id", JStr "r1")]]) in
  let w := mkWorld [reply] ∅ sample_finder 0 {[ "missing_dir/out.csv" ]} in
  find_recordings_by_conversation_id (fun _ _ => Ok []) (JStr "c1")
    "missing_dir/out.csv" w
  = mkRun (Ok (JArr []))
      (mkWorld [] ∅ sample_finder 0 {[ "missing_dir/out.csv" ]})
      [Request GET (ConversationRecordings (JStr "c1")) (JStr "token") None
         reply;
       fetch_error (JStr "c1") OSError].
Proof. cbn zeta. rewrite dispatch_second. vm_compute. reflexivity. Qed.

(** X5: a record that is no object ends the export with [AttributeError]:
    the call logs the error and returns an empty list, without a retry;
    the header and the rows of the records before it stay in the
    file.  When the file cannot be opened, the error logged is that of
    [open], and no file changes. *)
Theorem detail_fetch_partial_export (to_csv : json -> bool -> res (list row))
  (conversation_id : json) (output_file : string) (w : world)
  (r : response) (j : json) (e : exn) :
  Py.truthy (access_token (self w)) = true ->
  reply w = Replies r ->
  (400 <=? status_code r) && (status_code r <? 600) = false ->
  body r = Document j ->
  let recordings := items_of (normalize j) in
  snd (exported conversation_id recordings) = Some e ->
  e = AttributeError
  /\ find_recordings_by_conversation_id to_csv conversation_id output_file w
     = match open_error w output_file with
       | None =>
           mkRun (Ok (JArr []))
             (with_file (consume w) output_file
                (content w output_file
                 ++ header_if_new (files w !! output_file)
                 ++ fst (exported conversation_id recordings)))
             [recordings_get w conversation_id (Replies r);
              fetch_error conversation_id AttributeError]
       | Some e' =>
           mkRun (Ok (JArr [])) (consume w)
             [recordings_get w conversation_id (Replies r);
              fetch_error conversation_id e']
       end.
Proof.
  intros Htok Er Hs Ej recordings Hex.
  assert (He : e = AttributeError) by exact (exported_raises _ _ _ Hex).
  split; [exact He |]. subst e.
  rewrite dispatch_second,
    (find_recordings_2_first_reply _ _ _ r Htok Er Hs)
    by (rewrite Ej; discriminate).
  apply decode_document in Ej. rewrite Ej. cbv zeta.
  unfold export_result.
  change (open_error (consume w) output_file)
    with (open_error w output_file).
  destruct (open_error w output_file); [reflexivity |].
  fold recordings. rewrite Hex. reflexivity.
Qed.

Lemma detail_fetch_partial_export_sample :
  find_recordings_by_conversation_id (fun _ _ => Ok []) (JStr "c1")
    "recording_ids.csv"
    (sample_world
       [ok_reply (JArr [JObj [("id", JStr "r1")]; JStr "r2";
                        JObj [("id", JStr "r3")]])] ∅)
  = mkRun (Ok (JArr []))
      (sample_world []
         {[ "recording_ids.csv" := [detail_header; sample_row "c1" "r1"] ]})
      [Request GET (ConversationRecordings (JStr "c1")) (JStr "token") None
         (ok_reply (JArr [JObj [("id", JStr "r1")]; JStr "r2";
                          JObj [("id", JStr "r3")]]));
       fetch_error (JStr "c1") AttributeError].
Proof.
  exact (proj2 (detail_fetch_partial_export (fun _ _ => Ok []) (JStr "c1")
                  "recording_ids.csv"
                  (sample_world
                     [ok_reply (JArr [JObj [("id", JStr "r1")]; JStr "r2";
                                      JObj [("id", JStr "r3")]])] ∅)
                  (mkResponse 200 (JObj []) ""
                     (Document (JArr [JObj [("id", JStr "r1")]; JStr "r2";
                                      JObj [("id", JStr "r3")]])))
                  (JArr [JObj [("id", JStr "r1")]; JStr "r2";
                         JObj [("id", JStr "r3")]])
                  AttributeError
                  eq_refl eq_refl eq_refl eq_refl eq_refl)).
Defined.

(** Where a value the retry loop returns comes from: it is the list the
    loop started with, the empty list, or the normalized document of a
    reply the run received. *)
Definition from_reply (cid : json) (evs : list event) (v : json) : Prop :=
  exists resp j hdrs,
    In (Request GET (ConversationRecordings cid) hdrs None (Replies resp)) evs
    /\ body resp = Document j
    /\ v = normalize j.

Lemma export_result_value cid out j w v :
  value (export_result cid out j w) = Ok v -> v = normalize j.
Proof.
  unfold export_result. destruct (open_error _ _); [discriminate |].
  cbn [value]. destruct (snd _); [discriminate |]. congruence.
Qed.

Lemma fetch_attempts_result attempts mx cid out recs : forall w v,
  value (fetch_attempts_2 attempts mx cid out recs w) = Ok v ->
  v = recs \/ v = JArr []
  \/ from_reply cid (events (fetch_attempts_2 attempts mx cid out recs w)) v.
Proof.
  unfold from_reply.
  induction attempts as [| a rest IH]; intros w v.
  - cbn. intros [= <-]. auto.
  - destruct (retryable (reply w)) eqn:Hr.
    + destruct (a <? mx - 1) eqn:Hlt.
      * rewrite fetch_attempt_retries by assumption.
        destruct (value (authenticate (consume w))); [| discriminate].
        rewrite value_prepend, events_prepend. intros Hv.
        destruct (IH _ _ Hv) as [H | [H | (resp & j & hdrs & Hin & Hj & Hn)]];
          auto.
        right. right. exists resp, j, hdrs.
        split; [apply in_or_app; right; exact Hin | auto].
      * rewrite fetch_attempt_gives_up by assumption. cbn. intros [= <-]. auto.
    + destruct (fetch_attempt_exports a rest mx cid out recs w Hr)
        as (resp & Er & _ & _ & ->).
      destruct (decode resp) as [j | e] eqn:Ed; [| discriminate].
      apply decode_document in Ed.
      rewrite value_prepend, events_prepend. intros Hv.
      apply export_result_value in Hv.
      right. right. exists resp, j, (headers (self w)).
      rewrite Er. split; [left; reflexivity | auto].
Qed.

(** The detail fetch around its loop, with the value it returns. *)
Lemma find_recordings_2_value cid out w :
  value (find_recordings_by_conversation_id_2 cid out w) = Ok (JArr [])
  \/ exists pre w0,
       let rf := fetch_attempts_2 (range 3) 3 cid out (JArr []) w0 in
       exists v,
         value rf = Ok v
         /\ value (find_recordings_by_conversation_id_2 cid out w) = Ok v
         /\ events (find_recordings_by_conversation_id_2 cid out w)
            = pre ++ events rf.
Proof.
  unfold find_recordings_by_conversation_id_2.
  assert (Hafter : forall pre w0 (c : M json),
            c w = prepend pre
                    (fetch_attempts_2 (range 3) 3 cid out (JArr []) w0) ->
            value (try_except c any_exception
                     (fun e => logging ERROR
                                 "Error retrieving recordings for conversation {conversation_id}: {str(e)}"
                                 [AVal cid; AExn e];; ret (JArr [])) w)
            = Ok (JArr [])
            \/ exists v,
                 value (fetch_attempts_2 (range 3) 3 cid out (JArr []) w0)
                 = Ok v
                 /\ value (try_except c any_exception
                             (fun e => logging ERROR
                                         "Error retrieving recordings for conversation {conversation_id}: {str(e)}"
                                         [AVal cid; AExn e];; ret (JArr [])) w)
                    = Ok v
                 /\ events (try_except c any_exception
                              (fun e => logging ERROR
                                          "Error retrieving recordings for conversation {conversation_id}: {str(e)}"
                                          [AVal cid; AExn e];; ret (JArr [])) w)
                    = pre ++ events (fetch_attempts_2 (range 3) 3 cid out
                                       (JArr []) w0)).
  { intros pre w0 c Hc. unfold try_except. rewrite Hc.
    destruct (fetch_attempts_2 (range 3) 3 cid out (JArr []) w0)
      as [[v | e] wf evs]; cbn.
    - right. exists v. auto.
    - left. reflexivity. }
  destruct (negb (Py.truthy (access_token (self w)))) eqn:Htok.
  - destruct (authenticate w) as [[[] | e] wa evs] eqn:Ea.
    + destruct (Hafter evs wa
                  (f <- get_self;;
                   (if negb (Py.truthy (access_token f))
                    then authenticate else ret tt);;
                   fetch_attempts_2 (range 3) 3 cid out (JArr []))) as [H | H].
      * rewrite bind_get_self. cbv beta. rewrite Htok.
        erewrite bind_run_ok; [| exact Ea]. reflexivity.
      * left. exact H.
      * right. exists evs, wa. exact H.
    + left. unfold try_except.
      rewrite bind_get_self. cbv beta. rewrite Htok.
      erewrite bind_run_raise; [| exact Ea]. reflexivity.
  - destruct (Hafter [] w
                (f <- get_self;;
                 (if negb (Py.truthy (access_token f))
                  then authenticate else ret tt);;
                 fetch_attempts_2 (range 3) 3 cid out (JArr []))) as [H | H].
    + rewrite bind_get_self. cbv beta. rewrite Htok, bind_ret.
      now rewrite prepend_nil.
    + left. exact H.
    + right. exists [], w. exact H.
Qed.

(** X6: the detail fetch never raises and always returns a list; a list
    that is not empty is the normalized document of a reply to one of
    the requests of this very call. *)
Theorem detail_fetch_total (to_csv : json -> bool -> res (list row))
  (conversation_id : json) (output_file : string) (w : world) :
  let r := find_recordings_by_conversation_id to_csv conversation_id
             output_file w in
  exists recordings,
    value r = Ok (JArr recordings)
    /\ (recordings = []
        \/ exists resp j hdrs,
             In (Request GET (ConversationRecordings conversation_id) hdrs
                   None (Replies resp)) (events r)
             /\ body resp = Document j
             /\ normalize j = JArr recordings).
Proof.
  cbn zeta. rewrite dispatch_second.
  destruct (find_recordings_2_returns conversation_id output_file w)
    as [recordings Hv].
  exists recordings. split; [exact Hv |].
  destruct (find_recordings_2_value conversation_id output_file w)
    as [H | (pre & w0 & v & Hrf & Hval & Hev)].
  { left. rewrite Hv in H. congruence. }
  rewrite Hv in Hval. injection Hval as <-.
  destruct (fetch_attempts_result _ _ _ _ _ _ _ Hrf)
    as [H | [H | (resp & j & hdrs & Hin & Hj & Hn)]].
  - left. congruence.
  - left. congruence.
  - right. exists resp, j, hdrs. rewrite Hev.
    split; [apply in_or_app; right; exact Hin | auto].
Qed.

(** ** The detail fetch: the token *)

(** X7: a retry of the detail fetch goes out with the new token: when the
    first request fails and the token request that follows is answered
    with a token, the call warns, installs the token, sleeps one second
    and repeats the request with headers that carry the new token. *)
Theorem detail_fetch_retry_uses_new_token
  (to_csv : json -> bool -> res (list row)) (conversation_id : json)
  (output_file : string) (w : world) (r : response) (j tok : json) :
  Py.truthy (access_token (self w)) = true ->
  retryable (reply w) = true ->
  reply (consume w) = Replies r ->
  (400 <=? status_code r) && (status_code r <? 600) = false ->
  body r = Document j ->
  Py.getitem j "access_token" = Ok tok ->
  exists tail,
    events (find_recordings_by_conversation_id to_csv conversation_id
              output_file w)
    = [Request GET (ConversationRecordings conversation_id)
         (headers (self w)) None (reply w);
       fetch_warning 0 conversation_id;
       token_post (token_request_data (self w)) (Replies r);
       auth_success;
       Sleep (seconds 1);
       Request GET (ConversationRecordings conversation_id) tok None
         (reply (consume (consume w)))]
      ++ tail.
Proof.
  intros Htok Hfail Er Hs Ej Hj.
  rewrite dispatch_second.
  pose proof (authenticate_installs (consume w) r j tok Er Hs Ej Hj) as Hauth.
  assert (Hloop : exists tail,
            events (fetch_attempts_2 (range 3) 3 conversation_id output_file
                      (JArr []) w)
            = [Request GET (ConversationRecordings conversation_id)
                 (headers (self w)) None (reply w);
               fetch_warning 0 conversation_id;
               token_post (token_request_data (self w)) (Replies r);
               auth_success;
               Sleep (seconds 1);
               Request GET (ConversationRecordings conversation_id) tok None
                 (reply (consume (consume w)))]
              ++ tail).
  { change (range 3) with (0 :: [1; 2]).
    rewrite fetch_attempt_retries by (assumption || reflexivity).
    rewrite Hauth. cbn [value after events].
    destruct (fetch_attempts_head 1 [2] 3 conversation_id output_file
                (JArr []) (with_token (consume (consume w)) tok))
      as [tail Htail].
    exists tail. rewrite events_prepend, Htail. reflexivity. }
  destruct Hloop as [tail Hloop].
  unfold find_recordings_by_conversation_id_2. rewrite events_try.
  rewrite events_bind. cbn [get_self value after events app].
  rewrite Htok. cbn [negb]. rewrite events_bind.
  cbn [ret value after events app]. rewrite Hloop.
  rewrite <- app_assoc. eexists. reflexivity.
Qed.

Lemma detail_fetch_retry_uses_new_token_sample :
  exists tail,
    events (find_recordings_by_conversation_id (fun _ _ => Ok []) (JStr "c1")
              "recording_ids.csv"
              (sample_world [status_reply 401; token_reply;
                             ok_reply (JArr [])] ∅))
    = [Request GET (ConversationRecordings (JStr "c1")) (JStr "token") None
         (status_reply 401);
       fetch_warning 0 (JStr "c1");
       token_post (token_request_data sample_finder) token_reply;
       auth_success;
       Sleep (seconds 1);
       Request GET (ConversationRecordings (JStr "c1")) (JStr "fresh") None
         (ok_reply (JArr []))]
      ++ tail.
Proof.
  exact (detail_fetch_retry_uses_new_token (fun _ _ => Ok []) (JStr "c1")
           "recording_ids.csv"
           (sample_world [status_reply 401; token_reply; ok_reply (JArr [])] ∅)
           (mkResponse 200 (JObj []) ""
              (Document (JObj [("access_token", JStr "fresh")])))
           (JObj [("access_token", JStr "fresh")]) (JStr "fresh")
           eq_refl eq_refl eq_refl eq_refl eq_refl eq_refl).
Defined.

(** X8: a session without token, [None] or the empty string: the detail
    fetch authenticates before its first request.  When that fails, no
    request for recordings is made: the error is logged and the call
    returns an empty list.  When it succeeds, the first request goes
    out with the headers of the new session. *)
Theorem detail_fetch_without_token (to_csv : json -> bool -> res (list row))
  (conversation_id : json) (output_file : string) (w : world) :
  Py.truthy (access_token (self w)) = false ->
  let ra := authenticate w in
  let r := find_recordings_by_conversation_id to_csv conversation_id
             output_file w in
  match value ra with
  | Raise e =>
      r = mkRun (Ok (JArr [])) (after ra)
            (events ra ++ [fetch_error conversation_id e])
  | Ok _ =>
      exists rest,
        events r
        = events ra
          ++ Request GET (ConversationRecordings conversation_id)
               (headers (self (after ra))) None (reply (after ra))
             :: rest
  end.
Proof.
  intros Htok. cbn zeta. rewrite dispatch_second.
  unfold find_recordings_by_conversation_id_2.
  destruct (authenticate w) as [[[] | e] wa evs] eqn:Ea;
    cbn [value after events].
  - rewrite events_try, events_bind. cbn [get_self value after events app].
    rewrite Htok. cbn [negb]. rewrite events_bind, Ea.
    cbn [value after events].
    destruct (fetch_attempts_head 0 [1; 2] 3 conversation_id output_file
                (JArr []) wa) as [tail Htail].
    change (0 :: [1; 2]) with (range 3) in Htail. rewrite Htail.
    rewrite <- !app_assoc. cbn [app]. eexists. reflexivity.
  - erewrite try_run_caught; cycle 1.
    { rewrite bind_get_self. cbv beta. rewrite Htok. cbn [negb].
      erewrite bind_run_raise; [| exact Ea]. reflexivity. }
    { reflexivity. }
    rewrite bind_logging. reflexivity.
Qed.

Lemma detail_fetch_without_token_sample :
  find_recordings_by_conversation_id (fun _ _ => Ok []) (JStr "c1")
    "recording_ids.csv"
    (mkWorld [ok_reply (JObj []); ok_reply (JArr [])] ∅
       (mkFinder "mypurecloud.com" "client" "secret" JNull JNull) 0 ∅)
  = mkRun (Ok (JArr []))
      (mkWorld [ok_reply (JArr [])] ∅
         (mkFinder "mypurecloud.com" "client" "secret" JNull JNull) 0 ∅)
      [token_post (token_request_data sample_finder) (ok_reply (JObj []));
       auth_error KeyError; fetch_error (JStr "c1") KeyError].
Proof.
  exact (detail_fetch_without_token (fun _ _ => Ok []) (JStr "c1")
           "recording_ids.csv"
           (mkWorld [ok_reply (JObj []); ok_reply (JArr [])] ∅
              (mkFinder "mypurecloud.com" "client" "secret" JNull JNull) 0 ∅)
           eq_refl).
Defined.

(** ** How long a call can block, and how many requests it can make *)

(** The time a run sleeps, in milliseconds, and the requests it makes. *)
Fixpoint slept (evs : list event) : Z :=
  match evs with
  | [] => 0
  | Sleep ms :: rest => ms + slept rest
  | _ :: rest => slept rest
  end.

Fixpoint requests_made (evs : list event) : Z :=
  match evs with
  | [] => 0
  | Request _ _ _ _ _ :: rest => 1 + requests_made rest
  | _ :: rest => requests_made rest
  end.

Lemma slept_app evs evs' : slept (evs ++ evs') = slept evs + slept evs'.
Proof.
  induction evs as [| ev evs IH]; [reflexivity |].
  cbn [app]. destruct ev; cbn [slept]; lia.
Qed.

Lemma requests_made_app evs evs' :
  requests_made (evs ++ evs') = requests_made evs + requests_made evs'.
Proof.
  induction evs as [| ev evs IH]; [reflexivity |].
  cbn [app]. destruct ev; cbn [requests_made]; lia.
Qed.

(** The sleeps the loop of [authenticate] can add up to: the backoff
    after each attempt but the last. *)
Fixpoint auth_sleep_budget (attempts : list Z) (mx : Z) : Z :=
  match attempts with
  | [] => 0
  | a :: rest =>
      (if a <? mx - 1 then seconds (2 ^ a) else 0) + auth_sleep_budget rest mx
  end.

Lemma pow2_nonneg a : 0 <= seconds (2 ^ a).
Proof.
  unfold seconds. destruct (Z.lt_ge_cases a 0).
  - rewrite Z.pow_neg_r by assumption. lia.
  - pose proof (Z.pow_nonneg 2 a ltac:(lia)). lia.
Qed.

Lemma auth_sleep_budget_nonneg attempts mx : 0 <= auth_sleep_budget attempts mx.
Proof.
  induction attempts as [| a rest IH]; cbn [auth_sleep_budget]; [lia |].
  pose proof (pow2_nonneg a). destruct (a <? mx - 1); lia.
Qed.

Lemma auth_attempts_budget attempts mx data : forall w,
  let evs := events (authenticate_attempts attempts mx data w) in
  slept evs <= auth_sleep_budget attempts mx
  /\ requests_made evs <= Z.of_nat (length attempts).
Proof.
  induction attempts as [| a rest IH]; intros w; cbn zeta.
  - cbn. lia.
  - pose proof (auth_sleep_budget_nonneg rest mx) as Hnn.
    pose proof (pow2_nonneg a) as Hpow.
    cbn [auth_sleep_budget length]. rewrite Nat2Z.inj_succ.
    destruct (retryable (reply w)) eqn:Hr.
    + destruct (a <? mx - 1) eqn:Hlt.
      * rewrite auth_attempt_retries by assumption.
        rewrite events_prepend, slept_app, requests_made_app.
        destruct (IH (consume w)) as [Hs Hq]. cbn zeta in Hs, Hq.
        cbn [slept requests_made token_post auth_warning]. lia.
      * rewrite auth_attempt_gives_up by assumption.
        cbn [events slept requests_made token_post auth_warning]. lia.
    + destruct (auth_attempt_settles a rest mx data w Hr)
        as (r & _ & _ & _ & ->).
      destruct (decode r) as [j | e];
        [destruct (Py.getitem j "access_token") |];
        cbn [events slept requests_made token_post auth_success];
        destruct (a <? mx - 1); lia.
Qed.

Lemma authenticate_budget w :
  slept (events (authenticate w)) <= 3000
  /\ requests_made (events (authenticate w)) <= 3.
Proof.
  destruct (authenticate_run w) as [_ He]. cbn zeta in He. rewrite He.
  rewrite slept_app, requests_made_app.
  destruct (auth_attempts_budget (range 3) 3 (token_request_data (self w)) w)
    as [Hs Hq]. cbn zeta in Hs, Hq.
  change (auth_sleep_budget (range 3) 3) with 3000 in Hs.
  change (Z.of_nat (length (range 3))) with 3 in Hq.
  destruct (value (authenticate_attempts _ _ _ w));
    cbn [slept requests_made auth_error]; lia.
Qed.

(** The same for the loop of the detail fetch, where each attempt but
    the last can be followed by a full authentication. *)
Fixpoint fetch_sleep_budget (attempts : list Z) (mx : Z) : Z :=
  match attempts with
  | [] => 0
  | a :: rest =>
      (if a <? mx - 1 then 3000 + seconds (2 ^ a) else 0)
      + fetch_sleep_budget rest mx
  end.

Fixpoint fetch_request_budget (attempts : list Z) (mx : Z) : Z :=
  match attempts with
  | [] => 0
  | a :: rest =>
      1 + (if a <? mx - 1 then 3 else 0) + fetch_request_budget rest mx
  end.

Lemma fetch_budget_nonneg attempts mx :
  0 <= fetch_sleep_budget attempts mx /\ 0 <= fetch_request_budget attempts mx.
Proof.
  induction attempts as [| a rest [IH1 IH2]];
    cbn [fetch_sleep_budget fetch_request_budget]; [lia |].
  pose proof (pow2_nonneg a). destruct (a <? mx - 1); lia.
Qed.

Lemma export_result_budget cid out j w :
  slept (events (export_result cid out j w)) = 0
  /\ requests_made (events (export_result cid out j w)) = 0.
Proof.
  unfold export_result. destruct (open_error _ _); [split; reflexivity |].
  cbn [events]. destruct (snd _); split; reflexivity.
Qed.

Lemma fetch_attempts_budget attempts mx cid out recs : forall w,
  let evs := events (fetch_attempts_2 attempts mx cid out recs w) in
  slept evs <= fetch_sleep_budget attempts mx
  /\ requests_made evs <= fetch_request_budget attempts mx.
Proof.
  induction attempts as [| a rest IH]; intros w; cbn zeta.
  - cbn. lia.
  - destruct (fetch_budget_nonneg rest mx) as [Hnn1 Hnn2].
    pose proof (pow2_nonneg a) as Hpow.
    cbn [fetch_sleep_budget fetch_request_budget].
    destruct (retryable (reply w)) eqn:Hr.
    + destruct (a <? mx - 1) eqn:Hlt.
      * rewrite fetch_attempt_retries by assumption.
        destruct (authenticate_budget (consume w)) as [Has Haq].
        destruct (value (authenticate (consume w))).
        -- rewrite events_prepend, !slept_app, !requests_made_app.
           destruct (IH (after (authenticate (consume w)))) as [Hs Hq].
           cbn zeta in Hs, Hq.
           cbn [slept requests_made recordings_get fetch_warning]. lia.
        -- cbn [events]. rewrite slept_app, requests_made_app.
           cbn [slept requests_made recordings_get fetch_warning]. lia.
      * rewrite fetch_attempt_gives_up by assumption.
        cbn [events slept requests_made recordings_get fetch_warning gave_up].
        lia.
    + destruct (fetch_attempt_exports a rest mx cid out recs w Hr)
        as (r & _ & _ & _ & ->).
      destruct (decode r) as [j | e].
      * destruct (export_result_budget cid out j w) as [Es Eq].
        rewrite events_prepend, slept_app, requests_made_app, Es, Eq.
        cbn [slept requests_made recordings_get].
        destruct (a <? mx - 1); lia.
      * cbn [events slept requests_made recordings_get].
        destruct (a <? mx - 1); lia.
Qed.

(** The detail fetch around its loop. *)
Lemma find_recordings_2_budget cid out w :
  let evs := events (find_recordings_by_conversation_id_2 cid out w) in
  (slept evs <= 12000 /\ requests_made evs <= 12)
  /\ (Py.truthy (access_token (self w)) = true ->
      slept evs <= 9000 /\ requests_made evs <= 9).
Proof.
  cbn zeta.
  assert (Hloop : forall w0,
            slept (events (fetch_attempts_2 (range 3) 3 cid out (JArr []) w0))
            <= 9000
            /\ requests_made
                 (events (fetch_attempts_2 (range 3) 3 cid out (JArr []) w0))
               <= 9).
  { intros w0.
    exact (fetch_attempts_budget (range 3) 3 cid out (JArr []) w0). }
  unfold find_recordings_by_conversation_id_2. rewrite events_try.
  match goal with
  | |- context [ match ?v with
                 | Ok _ => []
                 | Raise e => if any_exception e then @?t e else []
                 end ] =>
      assert (Htail : slept match v with
                            | Ok _ => []
                            | Raise e => if any_exception e then t e else []
                            end = 0
                      /\ requests_made match v with
                                       | Ok _ => []
                                       | Raise e =>
                                           if any_exception e then t e else []
                                       end = 0)
        by (destruct v; split; reflexivity)
  end.
  cbv beta in Htail. destruct Htail as [Ht1 Ht2].
  rewrite slept_app, requests_made_app, Ht1, Ht2.
  rewrite events_bind. cbn [get_self value after events app].
  rewrite events_bind.
  destruct (Py.truthy (access_token (self w))) eqn:Htok; cbn [negb].
  - cbn [ret value after events app]. destruct (Hloop w) as [Hs Hq].
    split; [lia | intros _; lia].
  - destruct (authenticate_budget w) as [Has Haq].
    split; [| discriminate].
    rewrite slept_app, requests_made_app.
    destruct (value (authenticate w)) as [[] | e].
    + destruct (Hloop (after (authenticate w))) as [Hs Hq]. lia.
    + cbn [slept requests_made]. lia.
Qed.

(** X9: one call of [authenticate] sleeps at most 3 seconds and makes at
    most 3 requests.  One call of the detail fetch sleeps at most 12
    seconds and makes at most 12 requests, token requests included: up
    to three attempts, each failed one but the last followed by a full
    authentication and the backoff, after an authentication of up to 3
    seconds at the start when the session holds no token; with a token
    in the session the bounds are 9 seconds and 9 requests. *)
Theorem blocking_budget (to_csv : json -> bool -> res (list row))
  (conversation_id : json) (output_file : string) (w : world) :
  let auth := events (authenticate w) in
  let fetch :=
    events (find_recordings_by_conversation_id to_csv conversation_id
              output_file w) in
  (slept auth <= seconds 3 /\ requests_made auth <= 3)
  /\ (slept fetch <= seconds 12 /\ requests_made fetch <= 12)
  /\ (Py.truthy (access_token (self w)) = true ->
      slept fetch <= seconds 9 /\ requests_made fetch <= 9).
Proof.
  cbn zeta. split; [exact (authenticate_budget w) |].
  rewrite dispatch_second.
  exact (find_recordings_2_budget conversation_id output_file w).
Qed.

(** The bounds are reached: an authentication that succeeds at its
    third attempt, at the start and after each of two failed requests,
    and a third request that fails. *)
Example blocking_budget_reached :
  let fail := status_reply 503 in
  let evs :=
    events (find_recordings_by_conversation_id (fun _ _ => Ok []) (JStr "c1")
              "recording_ids.csv"
              (mkWorld [fail; fail; token_reply;
                        fail; fail; fail; token_reply;
                        fail; fail; fail; token_reply;
                        fail] ∅
                 (mkFinder "mypurecloud.com" "client" "secret" JNull JNull)
                 0 ∅)) in
  slept evs = seconds 12 /\ requests_made evs = 12.
Proof. cbn zeta. split; vm_compute; reflexivity. Qed.

(** ** [get_conversation_details]: every outcome *)

Definition is_request (ev : event) : bool :=
  match ev with
  | Request _ _ _ _ _ => true
  | _ => false
  end.



(** A reply of status 200 with a text nested too deep. *)
Example get_conversation_details_too_deep :
  let deep := Replies (mkResponse 200 (JObj []) "[[[[" TooDeep) in
  get_conversation_details (JStr "c1") (sample_world [deep] ∅)
  = mkRun (Raise RecursionError) (sample_world [] ∅)
      [Request GET (ConversationDetails (JStr "c1")) (JStr "token") None
         deep].
Proof. reflexivity. Qed.

(** ** [find_ids]: when it raises, and what it reports *)

(** The counter of [find_ids] against the file: one row per recording
    counted, after the header. *)
Definition counted (out : string) (w : world) : Prop :=
  Z.of_nat (length (content w out)) = total_recordings w + 1.

Definition keeps_count (out : string) (w w' : world) : Prop :=
  counted out w -> counted out w'.

Lemma keeps_count_refl out w : keeps_count out w w.
Proof. intros H. exact H. Qed.

Lemma keeps_count_trans out a b c :
  keeps_count out a b -> keeps_count out b c -> keeps_count out a c.
Proof. unfold keeps_count. auto. Qed.

Lemma keeps_count_same out w w' :
  files w' = files w -> total_recordings w' = total_recordings w ->
  keeps_count out w w'.
Proof.
  unfold keeps_count, counted, content. intros -> ->. auto.
Qed.

(** Lines 120-127: the row and the count go together. *)
Lemma keeps_count_write_recording out conv_id recording :
  steps (keeps_count out) (write_recording out conv_id recording).
Proof.
  intros w. unfold write_recording.
  repeat match goal with
         | |- keeps_count _ _ (after (bind (lift ?r) _ _)) =>
             destruct r;
             [rewrite bind_lift_ok; cbv beta
             | rewrite bind_lift_raise; apply keeps_count_refl]
         end.
  erewrite bind_run_ok; [| apply writerow_run].
  rewrite after_prepend. cbn.
  unfold keeps_count, counted. cbn [with_file total_recordings]. intros H.
  unfold content at 1. cbn [files]. rewrite lookup_insert_eq.
  cbn [default from_option id].
  rewrite length_app. cbn [length]. lia.
Qed.

Lemma keeps_count_emit out ev : steps (keeps_count out) (emit ev).
Proof. intros w. apply keeps_count_refl. Qed.

Lemma keeps_count_process_conversation out conv :
  steps (keeps_count out) (process_conversation out conv).
Proof.
  assert (Hb : forall A B (c : M A) (k : A -> M B),
             steps (keeps_count out) c ->
             (forall a, steps (keeps_count out) (k a)) ->
             steps (keeps_count out) (bind c k)).
  { intros A B. apply steps_bind. apply keeps_count_trans. }
  assert (Hsame : forall A (c : M A),
             (forall w, files (after (c w)) = files w
                        /\ total_recordings (after (c w))
                           = total_recordings w) ->
             steps (keeps_count out) c).
  { intros A c H w. destruct (H w). now apply keeps_count_same. }
  unfold process_conversation.
  apply Hb; [apply Hsame; intros w; split; reflexivity | intros conv_id].
  apply Hb; [apply Hsame; intros w; split; reflexivity | intros hdrs].
  apply Hb.
  { apply Hsame. intros w. rewrite requests_run. split; reflexivity. }
  intros rec_response.
  apply Hb; [| intros _; apply keeps_count_emit].
  destruct (status_code rec_response =? 200); [| apply keeps_count_emit].
  apply Hb.
  { apply Hsame. intros w. unfold response_json.
    destruct (body rec_response); split; reflexivity. }
  intros recordings.
  apply Hb; [apply Hsame; intros w; split; reflexivity | intros items].
  apply steps_for_each;
    [apply keeps_count_refl | apply keeps_count_trans |].
  intros recording. apply keeps_count_write_recording.
Qed.

Lemma keeps_count_fetch_page out qbody page :
  steps (keeps_count out) (fetch_page out qbody page).
Proof.
  assert (Hb : forall A B (c : M A) (k : A -> M B),
             steps (keeps_count out) c ->
             (forall a, steps (keeps_count out) (k a)) ->
             steps (keeps_count out) (bind c k)).
  { intros A B. apply steps_bind. apply keeps_count_trans. }
  assert (Hsame : forall A (c : M A),
             (forall w, files (after (c w)) = files w
                        /\ total_recordings (after (c w))
                           = total_recordings w) ->
             steps (keeps_count out) c).
  { intros A c H w. destruct (H w). now apply keeps_count_same. }
  unfold fetch_page.
  apply Hb; [apply keeps_count_emit | intros _].
  apply steps_try; [apply keeps_count_trans | |].
  - apply Hb; [apply Hsame; intros w; split; reflexivity | intros hdrs].
    apply Hb.
    { apply Hsame. intros w. rewrite requests_run. split; reflexivity. }
    intros response.
    do 3 (apply Hb; [apply keeps_count_emit | intros _]).
    apply Hb.
    { apply Hsame. intros w. unfold raise_for_status.
      destruct (_ && _); split; reflexivity. }
    intros _. apply Hb.
    { apply Hsame. intros w. unfold response_json.
      destruct (body response); split; reflexivity. }
    intros data.
    apply Hb; [apply Hsame; intros w; split; reflexivity | intros convs0].
    apply Hb; [apply Hsame; intros w; split; reflexivity | intros convs].
    apply Hb.
    { apply steps_for_each;
        [apply keeps_count_refl | apply keeps_count_trans |].
      intros conv. apply keeps_count_process_conversation. }
    intros _.
    apply Hb; [apply Hsame; intros w; split; reflexivity | intros next_uri].
    destruct (negb (Py.truthy next_uri));
      apply Hsame; intros w; split; reflexivity.
  - intros e. apply Hb; [| intros _; apply Hsame; intros w; split; reflexivity].
    destruct (is_request_exception e); apply keeps_count_emit.
Qed.

Lemma keeps_count_page_loop out fuel : forall qbody page,
  steps (keeps_count out) (page_loop fuel out qbody page).
Proof.
  induction fuel as [| fuel IH]; intros qbody page; cbn [page_loop].
  - intros w. apply keeps_count_refl.
  - apply steps_bind;
      [apply keeps_count_trans | apply keeps_count_fetch_page |].
    intros [| body' page']; [intros w; apply keeps_count_refl | apply IH].
Qed.

Definition completed (total : Z) : event :=
  Print "\nCompleted! Found {total_recordings} recordings."
    [AVal (JInt total)].

Definition saved (out : string) : event :=
  Print "Results saved to {output_file}" [AVal (JStr out)].

(** The run from the first page on, over a file that holds the header
    only. *)
Lemma find_ids_pages_run ds de out w :
  let w0 := with_file w out [time_range_header] in
  let r := find_ids_pages ds de out w0 in
  exists rows evs,
    value r = Ok tt
    /\ files (after r) !! out = Some (time_range_header :: rows)
    /\ (forall p, p <> out -> files (after r) !! p = files w !! p)
    /\ self (after r) = self w
    /\ events r
       = evs ++ [completed (Z.of_nat (length rows)); saved out].
Proof.
  cbn zeta. unfold find_ids_pages.
  set (w0 := with_file w out [time_range_header]).
  erewrite bind_run_ok; [| reflexivity]. rewrite prepend_nil.
  set (w1 := mkWorld (net w0) (files w0) (self w0) 0 (locked w0)).
  set (loop := page_loop (enough_fuel w1) out (query_body ds de) 1 w1).
  destruct (page_loop_turns_fuel (enough_fuel w1) out (query_body ds de) 1 w1
              ltac:(unfold enough_fuel; lia)) as (Hv & _).
  cbn zeta in Hv. fold loop in Hv.
  assert (Hloop : (fun w2 => page_loop (enough_fuel w2) out (query_body ds de)
                               1 w2) w1
                  = mkRun (Ok true) (after loop) (events loop)).
  { cbv beta. fold loop. destruct loop as [v a evs]. cbn in Hv.
    now rewrite Hv. }
  erewrite bind_run_ok; [| exact Hloop].
  unfold get_total. erewrite bind_run_ok; [| reflexivity].
  rewrite bind_print. unfold print, emit.
  rewrite !prepend_prepend, prepend_mkRun. cbn [value after events].
  assert (Hcount : counted out (after loop)).
  { apply (keeps_count_page_loop out (enough_fuel w1) (query_body ds de) 1 w1).
    unfold counted, w1, w0, content, with_file. cbn.
    rewrite lookup_insert_eq. reflexivity. }
  assert (Hgrows : grows out w1 (after loop)).
  { apply (steps_page_loop (grows out)); grows_side. }
  destruct (grows_from_rows out w1 (after loop) [time_range_header])
    as [rows Hrows].
  { unfold w1, w0, with_file. cbn. apply lookup_insert_eq. }
  { exact Hgrows. }
  assert (Hself : self (after loop) = self w).
  { change (self w) with (self w1).
    apply (steps_page_loop (fun a b => self b = self a)); auto.
    - intros a b c Hab Hbc. congruence.
    - intros r0 w2. rewrite writerow_run. reflexivity. }
  exists rows, (events loop). split; [reflexivity |].
  split; [exact Hrows |]. split; [| split; [exact Hself |]].
  - intros p Hp. destruct Hgrows as (Ho & _). rewrite (Ho p Hp).
    unfold w1, w0, with_file. cbn. now rewrite lookup_insert_ne.
  - unfold counted, content in Hcount. rewrite Hrows in Hcount.
    cbn [default from_option id app length] in Hcount.
    replace (total_recordings (after loop)) with (Z.of_nat (length rows))
      by lia.
    rewrite ?app_nil_r, <- ?app_assoc. reflexivity.
Qed.



(** A file that cannot be opened ends [find_ids] before its first
    request. *)
Lemma find_ids_from_locked ds de out w t e :
  Py.slice10 (access_token (self w)) = Ok t ->
  open_error w out = Some e ->
  exists evs,
    find_ids_from ds de out w = mkRun (Raise e) w evs
    /\ Forall (fun ev => is_request ev = false) evs.
Proof.
  intros Ht Ho. unfold find_ids_from.
  stepping. rewrite Ht. stepping. cbv zeta. stepping.
  erewrite (bind_run_raise (open_w out));
    [| rewrite open_w_run, Ho; reflexivity].
  rewrite prepend_mkRun. eexists. split; [reflexivity |].
  repeat constructor.
Qed.

(** What a call of [find_ids] that returns has found. *)
Lemma find_ids_returns start_date end_date out w :
  value (find_ids start_date end_date out w) = Ok tt ->
  exists ds de de' t,
    datetime.strptime start_date = Some ds
    /\ datetime.strptime end_date = Some de
    /\ datetime.add_days de 1 = Some de'
    /\ Py.slice10 (access_token (self w)) = Ok t
    /\ open_error w out = None.
Proof.
  intros H.
  destruct (datetime.strptime start_date) as [ds |] eqn:Hs.
  2:{ unfold find_ids, strptime in H. rewrite Hs, bind_lift_raise in H.
      discriminate H. }
  destruct (datetime.strptime end_date) as [de |] eqn:He.
  2:{ unfold find_ids, strptime in H.
      rewrite Hs, bind_lift_ok, He, bind_lift_raise in H. discriminate H. }
  destruct (datetime.add_days de 1) as [de' |] eqn:Hadd.
  2:{ unfold find_ids, strptime, plus_days in H.
      rewrite Hs, bind_lift_ok, He, bind_lift_ok, Hadd, bind_lift_raise in H.
      discriminate H. }
  rewrite (find_ids_unfold _ _ _ ds de de' _ Hs He Hadd) in H.
  destruct (Py.slice10 (access_token (self w))) as [t | ex] eqn:Ht.
  - destruct (open_error w out) as [e |] eqn:Ho.
    + destruct (find_ids_from_locked ds de' out w t e Ht Ho) as (evs & E & _).
      rewrite E in H. discriminate H.
    + exists ds, de, de', t. auto.
  - unfold find_ids_from in H. rewrite bind_get_self, bind_print in H.
    cbv beta in H. rewrite Ht, bind_lift_raise in H. discriminate H.
Qed.


(** An output file in a directory that does not exist. *)
Example find_ids_missing_directory :
  let w := mkWorld [ok_reply (JObj [])] ∅ sample_finder 0
             {[ "missing_dir/out.csv" ]} in
  let r := find_ids (chars "2024-01-01") (chars "2024-01-02") "missing_dir/out.csv" w in
  value r = Raise OSError /\ after r = w
  /\ List.filter is_request (events r) = [].
Proof. cbn zeta. repeat split; vm_compute; reflexivity. Qed.

(** X12: when [find_ids] returns, the output file holds the time-range
    header and then the rows of this run, the number the run reports as
    found is the number of these rows, no other file has changed, and
    the session is the one the run started with: the time-range query
    never authenticates. *)
Theorem find_ids_reports_rows (start_date end_date : str) (output_file : string)
  (w : world) :
  let r := find_ids start_date end_date output_file w in
  value r = Ok tt ->
  exists rows evs,
    files (after r) !! output_file = Some (time_range_header :: rows)
    /\ events r
       = evs ++ [completed (Z.of_nat (length rows)); saved output_file]
    /\ (forall p, p <> output_file -> files (after r) !! p = files w !! p)
    /\ self (after r) = self w.
Proof.
  cbn zeta. intros Hok.
  destruct (find_ids_returns _ _ _ _ Hok)
    as (ds & de & de' & t & Hs & He & Hadd & Ht & Ho).
  rewrite (find_ids_unfold _ _ _ ds de de' _ Hs He Hadd).
  destruct (find_ids_from_opened ds de' output_file w t Ht Ho) as [evs E].
  rewrite E, after_prepend, events_prepend.
  destruct (find_ids_pages_run ds de' output_file w)
    as (rows & evs' & _ & Hrows & Hothers & Hself & Hev).
  cbn zeta in Hrows, Hothers, Hself, Hev.
  exists rows, (evs ++ evs'). rewrite Hev, app_assoc. auto.
Qed.

Lemma find_ids_reports_rows_sample :
  let w :=
    sample_world
      [page_reply [JObj [("conversationId", JStr "c1")]] None;
       ok_reply (JArr [JObj [("id", JStr "r1");
                             ("durationMilliseconds", JInt 61000)];
                       JObj [("id", JStr "r2")]])] ∅ in
  let r := find_ids (chars "2024-01-01") (chars "2024-01-02") "recording_ids.csv" w in
  files (after r) !! "recording_ids.csv"
  = Some [time_range_header;
          [CVal (JStr "c1"); CVal (JStr "r1"); CVal (JStr "N/A");
           CSeconds 61000; CVal (JStr "N/A")];
          [CVal (JStr "c1"); CVal (JStr "r2"); CVal (JStr "N/A");
           CSeconds 0; CVal (JStr "N/A")]]
  /\ In (completed 2) (events r).
Proof.
  cbn zeta.
  destruct (find_ids_reports_rows (chars "2024-01-01") (chars "2024-01-02")
              "recording_ids.csv"
              (sample_world
                 [page_reply [JObj [("conversationId", JStr "c1")]] None;
                  ok_reply (JArr [JObj [("id", JStr "r1");
                                        ("durationMilliseconds", JInt 61000)];
                                  JObj [("id", JStr "r2")]])] ∅)
              ltac:(vm_compute; reflexivity))
    as (rows & evs & Hf & Hev & _).
  split; [vm_compute; reflexivity |].
  rewrite Hev. apply in_or_app. right. left.
  assert (Hrows : length rows = 2%nat).
  { vm_compute in Hf. injection Hf as <-. reflexivity. }
  now rewrite Hrows.
Defined.

(** ** [find_ids]: what the reply to a detail request does *)




(** The page loop over such a reply: one query, one detail request,
    [Unexpected error], and the second conversation is never asked
    for. *)
Example find_ids_stops_at_object_reply :
  let w :=
    sample_world
      [page_reply [JObj [("conversationId", JStr "c1")];
                   JObj [("conversationId", JStr "c2")]] (Some "/page/2");
       ok_reply (JObj [("entities", JArr [JObj [("id", JStr "r1")]])]);
       ok_reply (JArr [JObj [("id", JStr "r2")]])] ∅ in
  let r := find_ids (chars "2024-01-01") (chars "2024-01-02") "recording_ids.csv" w in
  value r = Ok tt
  /\ files (after r) !! "recording_ids.csv" = Some [time_range_header]
  /\ length (List.filter is_request (events r)) = 2%nat
  /\ In (Print "Unexpected error: {str(e)}" [AExn AttributeError]) (events r)
  /\ In (completed 0) (events r).
Proof. cbn zeta. repeat split; vm_compute; auto 20. Qed.

(** ** [find_ids]: the row of a recording *)

(** X14: the row lines 120-127 write for a recording object: the
    conversation identifier, [id] and [startTime] as found or else the
    sentinel, [durationMilliseconds] (0 when absent) over 1000, and the
    [name] under [agent] or else the sentinel; the row goes to the end
    of the file and the counter goes up by one.  A duration that is no
    number, [null] included, raises [TypeError]; an integer whose
    quotient is beyond the floats, from [1000 * (2 ^ 1024 - 2 ^ 970)] on
    in absolute value, raises [OverflowError]; and an [agent] that is no
    object raises [AttributeError]; then nothing is written and nothing
    is counted. *)
Theorem time_range_row_fields (output_file : string) (conv_id : json)
  (members : list (string * json)) (w : world) :
  let field k := Py.assoc k members in
  let r := write_recording output_file conv_id (JObj members) w in
  let row_of secs :=
    match field "agent" with
    | None | Some (JObj _) =>
        r = mkRun (Ok tt)
              (mkWorld (net w)
                 (<[output_file :=
                      content w output_file
                      ++ [[CVal conv_id;
                           CVal (or_sentinel (field "id"));
                           CVal (or_sentinel (field "startTime"));
                           secs;
                           CVal (or_sentinel (sub (field "agent") "name"))]]
                   ]> (files w))
                 (self w) (total_recordings w + 1) (locked w))
              []
    | Some _ => r = mkRun (Raise AttributeError) w []
    end in
  match default (JInt 0) (field "durationMilliseconds") with
  | JInt z =>
      if Z.abs z <? 1000 * (2 ^ 1024 - 2 ^ 970) then row_of (CSeconds z)
      else r = mkRun (Raise OverflowError) w []
  | JBool b => row_of (CSeconds (if b then 1 else 0))
  | _ => r = mkRun (Raise TypeError) w []
  end.
Proof.
  cbn zeta. change (1000 * (2 ^ 1024 - 2 ^ 970)) with float_limit.
  unfold write_recording, or_sentinel, sentinel. cbn [Py.get].
  rewrite !bind_lift_ok.
  destruct (Py.assoc "durationMilliseconds" members)
    as [[| b | z | s | items | m] |];
    cbn [default from_option id div1000]; try reflexivity.
  all: try match goal with
           | |- context [ Z.abs ?z <? float_limit ] =>
               destruct (Z.abs z <? float_limit); [| reflexivity]
           end.
  all: rewrite !bind_lift_ok;
    (destruct (Py.assoc "agent" members) as [[| b' | z' | s' | items' | a] |];
     cbn [sub Py.get default from_option id]; try reflexivity;
     rewrite !bind_lift_ok;
     (erewrite bind_run_ok; [| apply writerow_run]);
     reflexivity).
Qed.

(** A duration of 10^312 milliseconds. *)
Example time_range_row_overflow :
  write_recording "recording_ids.csv" (JStr "c1")
    (JObj [("id", JStr "r1"); ("durationMilliseconds", JInt (10 ^ 312))])
    (sample_world [] ∅)
  = mkRun (Raise OverflowError) (sample_world [] ∅) [].
Proof. vm_compute. reflexivity. Qed.

(** A recording whose duration is [null] ends the page loop of
    [find_ids]; the rows written before it stay. *)
Example find_ids_null_duration :
  let w :=
    sample_world
      [page_reply [JObj [("conversationId", JStr "c1")]] None;
       ok_reply (JArr [JObj [("id", JStr "r1");
                             ("durationMilliseconds", JInt 61000)];
                       JObj [("id", JStr "r2");
                             ("durationMilliseconds", JNull)];
                       JObj [("id", JStr "r3")]])] ∅ in
  let r := find_ids (chars "2024-01-01") (chars "2024-01-02") "recording_ids.csv" w in
  files (after r) !! "recording_ids.csv"
  = Some [time_range_header;
          [CVal (JStr "c1"); CVal (JStr "r1"); CVal (JStr "N/A");
           CSeconds 61000; CVal (JStr "N/A")]]
  /\ In (Print "Unexpected error: {str(e)}" [AExn TypeError]) (events r)
  /\ In (completed 1) (events r).
Proof. cbn zeta. repeat split; vm_compute; auto 20. Qed.

(** ** [find_ids]: the page numbers of the queries *)

Definition is_fetching (ev : event) : bool :=
  match ev with
  | Print t _ => String.eqb t "Fetching page {page_count}..."
  | _ => false
  end.

(** The pages a run announces (line 96), in order. *)
Fixpoint page_announcements (evs : list event) : list Z :=
  match evs with
  | [] => []
  | Print t [AVal (JInt p)] :: rest =>
      if String.eqb t "Fetching page {page_count}..."
      then p :: page_announcements rest
      else page_announcements rest
  | _ :: rest => page_announcements rest
  end.

(** Neither a query nor the announcement of a page. *)
Definition plain (ev : event) : Prop :=
  is_query_post ev = false /\ is_fetching ev = false.

Lemma page_announcements_app evs evs' :
  page_announcements (evs ++ evs')
  = page_announcements evs ++ page_announcements evs'.
Proof.
  induction evs as [| ev evs IH]; [reflexivity |].
  cbn [app]. destruct ev as [m ep h p o | ms | lv t args | t args];
    cbn [page_announcements]; auto.
  destruct args as [| [[| | z | | |] |] [|]]; auto.
  destruct (String.eqb t _); cbn; now rewrite IH.
Qed.

Lemma plain_events evs :
  Forall plain evs -> query_posts evs = [] /\ page_announcements evs = [].
Proof.
  induction 1 as [| ev evs [Hq Hf] _ [IH1 IH2]]; [split; reflexivity |].
  destruct ev as [m ep h p o | ms | lv t args | t args]; cbn in *; auto.
  - destruct m; auto. destruct ep; auto. discriminate.
  - rewrite Hf. destruct args as [| [[| | z | | |] |] [|]]; auto.
Qed.

Lemma plain_process_conversation out conv :
  spec plain any (process_conversation out conv).
Proof.
  unfold process_conversation, write_recording.
  spec_simple; split; reflexivity.
Qed.

(** What a turn hands to the next one. *)
Definition next_turn (qbody : list (string * json)) (page : Z)
  (ctl : loop_ctl) : Prop :=
  match ctl with
  | Break => True
  | Continue body' page' =>
      body' = Py.assoc_set "pageNumber" (JInt page) qbody
      /\ page' = page + 1
  end.

Lemma plain_page_rest out qbody page r :
  spec plain (next_turn qbody page) (page_rest out qbody page r).
Proof.
  unfold page_rest.
  do 4 (apply (spec_bind _ any);
        [spec_simple; split; reflexivity | intros ? _]).
  apply (spec_bind _ any).
  { unfold response_json. apply spec_lift_any. }
  intros data _.
  do 2 (apply (spec_bind _ any); [spec_simple | intros ? _]).
  apply (spec_bind _ any).
  { apply spec_for_each. intros conv. apply plain_process_conversation. }
  intros _ _.
  apply (spec_bind _ any); [spec_simple | intros next_uri _].
  destruct (Py.truthy next_uri); cbn [negb]; apply spec_ret; cbn; auto.
Qed.

Lemma fetch_page_next out qbody page w :
  exists rest ctl,
    events (fetch_page out qbody page w)
    = fetching page :: query w qbody (reply w) :: rest
    /\ Forall plain rest
    /\ value (fetch_page out qbody page w) = Ok ctl
    /\ next_turn qbody page ctl.
Proof.
  rewrite fetch_page_unfold. destruct (reply w) as [| r] eqn:Er.
  - erewrite try_run_caught;
      [| apply bind_requests_fails; exact Er | reflexivity].
    eexists _, Break. cbn. repeat split. repeat constructor.
  - set (r0 := page_rest out qbody page r (consume w)).
    destruct (plain_page_rest out qbody page r (consume w)) as [Hplain Hq].
    fold r0 in Hplain, Hq.
    assert (Hc : bind (requests POST RecordingsQuery (headers (self w))
                         (Some (JObj qbody)))
                   (page_rest out qbody page) w
                 = mkRun (value r0) (after r0)
                     ([query w qbody (Replies r)] ++ events r0)).
    { rewrite (bind_requests_ok _ _ _ _ _ _ r Er). reflexivity. }
    destruct (value r0) as [ctl | e] eqn:Ev.
    + erewrite try_run_ok; [| exact Hc].
      exists (events r0), ctl. cbn. repeat split; auto.
    + erewrite try_run_caught; [| exact Hc | reflexivity].
      unfold page_failure.
      exists (events r0
              ++ [if is_request_exception e
                  then Print "Request failed: {str(e)}" [AExn e]
                  else Print "Unexpected error: {str(e)}" [AExn e]]), Break.
      destruct (is_request_exception e); rewrite bind_print;
        (split; [| split; [| split; [reflexivity | exact I]]]);
        try (apply Forall_app; split; [exact Hplain |];
             repeat constructor);
        cbn; now rewrite ?app_nil_r.
Qed.

Lemma assoc_set_same k v m : Py.assoc k (Py.assoc_set k v m) = Some v.
Proof.
  induction m as [| [k' v'] m IH]; cbn.
  - now rewrite String.eqb_refl.
  - destruct (String.eqb_spec k k') as [-> | Hne]; cbn.
    + now rewrite String.eqb_refl.
    + destruct (String.eqb_spec k k'); [contradiction | exact IH].
Qed.

Lemma one_turn_numbers qbody page w rest :
  Forall plain rest ->
  page_announcements
    ((fetching page :: query w qbody (reply w) :: rest) ++ [])
  = zrange page 1
  /\ map page_number_of
       (query_posts
          ((fetching page :: query w qbody (reply w) :: rest) ++ []))
     = Py.assoc "pageNumber" qbody
       :: map (fun p => Some (JInt p)) (zrange page 0).
Proof.
  intros Hplain. destruct (plain_events rest Hplain) as [Hq Hp].
  rewrite app_nil_r. unfold fetching, query.
  cbn [page_announcements query_posts map].
  rewrite String.eqb_refl, Hq, Hp, zrange_cons.
  split; reflexivity.
Qed.

Lemma page_loop_numbers fuel : forall out qbody page w,
  let evs := events (page_loop (S fuel) out qbody page w) in
  exists n,
    page_announcements evs = zrange page (S n)
    /\ map page_number_of (query_posts evs)
       = Py.assoc "pageNumber" qbody
         :: map (fun p => Some (JInt p)) (zrange page n).
Proof.
  induction fuel as [| fuel IH]; intros out qbody page w; cbn zeta.
  - cbn [page_loop]. rewrite events_bind.
    destruct (fetch_page_next out qbody page w)
      as (rest & ctl & Hev & Hplain & Hval & Hnext).
    rewrite Hval, Hev. exists 0%nat.
    destruct ctl as [| body' page']; cbn [ret events];
      now apply one_turn_numbers.
  - change (page_loop (S (S fuel)) out qbody page)
      with (ctl <- fetch_page out qbody page;;
            match ctl with
            | Break => ret true
            | Continue body' page' => page_loop (S fuel) out body' page'
            end).
    rewrite events_bind.
    destruct (fetch_page_next out qbody page w)
      as (rest & ctl & Hev & Hplain & Hval & Hnext).
    rewrite Hval, Hev.
    destruct ctl as [| body' page'].
    + exists 0%nat. cbn [ret events]. now apply one_turn_numbers.
    + destruct Hnext as [-> ->].
      destruct (IH out (Py.assoc_set "pageNumber" (JInt page) qbody)
                  (page + 1) (after (fetch_page out qbody page w)))
        as (n & Ha & Hn).
      cbn zeta in Ha, Hn. exists (S n).
      destruct (plain_events rest Hplain) as [Hq Hp].
      rewrite page_announcements_app, query_posts_app, map_app, Ha, Hn.
      unfold fetching, query. cbn [page_announcements query_posts map].
      rewrite String.eqb_refl, Hq, Hp, assoc_set_same. cbn [app map].
      rewrite (zrange_cons page (S n)), (zrange_cons page n).
      split; reflexivity.
Qed.

(** X15: the page loop as [find_ids] starts it announces the pages 1, 2,
    3, ... but its queries lag one behind: the first carries no
    [pageNumber], the second [pageNumber] 1, the third 2, and so on,
    because line 137 stores [page_count] before line 138 adds one to
    it.  So the second query asks for the first page again, and in a
    run of [n + 1] queries the page [n + 1] is announced but never
    asked for. *)
Theorem query_page_numbers (output_file : string) (start_dt end_dt : datetime.t)
  (w : world) :
  let evs :=
    events (page_loop (enough_fuel w) output_file
              (query_body start_dt end_dt) 1 w) in
  exists n,
    page_announcements evs = zrange 1 (S n)
    /\ map page_number_of (query_posts evs)
       = None :: map (fun p => Some (JInt p)) (zrange 1 n).
Proof.
  exact (page_loop_numbers (length (net w)) output_file
           (query_body start_dt end_dt) 1 w).
Qed.

(** ** [main]: failures are logged, and the first 800 identifiers are
       processed in order *)


(** A client identifier that is set but empty, and a log file that
    cannot be opened. *)
Example main_empty_client_id :
  main (fun _ _ => Ok []) (sample_read_csv []) (fun _ => Raise ValueError)
    false (<["GENESYS_CLIENT_ID" := ""]> sample_environ)
    (sample_world [token_reply] ∅)
  = mkRun (Ok tt) (sample_world [token_reply] ∅) [critical ValueError].
Proof. vm_compute. reflexivity. Qed.

Example main_log_file_locked :
  let w := mkWorld [token_reply] ∅ sample_finder 0
             {["genesys_retrieval.log"]} in
  main (fun _ _ => Ok []) (sample_read_csv []) (fun _ => Raise ValueError)
    false sample_environ w
  = mkRun (Raise OSError) w []
  /\ value (main (fun _ _ => Ok []) (sample_read_csv [])
              (fun _ => Raise ValueError) true sample_environ w)
     = Ok tt.
Proof. split; vm_compute; reflexivity. Qed.

(** The lines of a run when all sixteen readings of the table fail. *)
Example main_unreadable_table :
  let r := main (fun _ _ => Ok []) (fun _ _ _ => Raise ValueError)
             (fun _ => Raise ValueError) false sample_environ
             (sample_world [token_reply] ∅) in
  value r = Ok tt
  /\ length (List.filter (fun ev => match ev with
                                    | Print _ _ => true
                                    | _ => false
                                    end) (events r)) = 16%nat
  /\ last (events r) = Some (critical ValueError).
Proof. vm_compute. repeat split. Qed.

(** The identifiers a run announces, with their number and the total
    announced with them. *)
Fixpoint announced (evs : list event) : list (Z * Z * json) :=
  match evs with
  | [] => []
  | Log INFO t [AVal (JInt i); AVal (JInt n); AVal cid] :: rest =>
      if String.eqb t processing_template
      then (i, n, cid) :: announced rest
      else announced rest
  | _ :: rest => announced rest
  end.

Lemma announced_app evs evs' :
  announced (evs ++ evs') = announced evs ++ announced evs'.
Proof.
  induction evs as [| ev evs IH]; [reflexivity |].
  cbn [app]. destruct ev as [m ep h p o | ms | lv t args | t args];
    cbn [announced]; auto.
  destruct lv; auto.
  destruct args as [| [[| | i | | |] |] [| [[| | n | | |] |]
                     [| [cid |] [|]]]]; auto.
  destruct (t =? processing_template)%string; cbn; now rewrite IH.
Qed.

Lemma announced_quiet evs : Forall quiet evs -> announced evs = [].
Proof.
  induction 1 as [| ev evs Hev _ IH]; [reflexivity |].
  destruct ev as [m ep h p o | ms | lv t args | t args]; cbn [announced]; auto.
  cbn in Hev. destruct lv; auto.
  destruct args as [| [[| | i | | |] |] [| [[| | n | | |] |]
                     [| [cid |] [|]]]]; auto.
  destruct (String.eqb_spec t processing_template); [contradiction | auto].
Qed.

Lemma announced_cooldown i : announced (cooldown i) = [].
Proof. unfold cooldown. destruct (i mod 50 =? 0); reflexivity. Qed.

Lemma process_all_announced to_csv n ids : forall i results w,
  announced (events (process_all to_csv n i ids results w))
  = map (fun p => (fst p, n, snd p)) (combine (zrange i (length ids)) ids).
Proof.
  induction ids as [| cid ids IH]; intros i results w; [reflexivity |].
  cbn [process_all length]. rewrite events_bind.
  destruct (process_one_run to_csv n i cid results w)
    as (fetched & Hq & Hev & results1 & Hv).
  rewrite Hev, Hv, zrange_cons. cbn [combine map app fst snd].
  cbn [announced].
  replace (processing_template =? processing_template)%string with true
    by (symmetry; apply String.eqb_refl).
  rewrite !announced_app, (announced_quiet _ Hq), announced_cooldown, IH.
  reflexivity.
Qed.

(** X17: when the finder is set up and the identifiers are read, the run
    announces the first 800 of them, in their order, numbered from 1,
    each with the number of identifiers it will process, at most 800;
    identifiers past the 800th are never touched. *)
Theorem main_processes_first_800 (to_csv : json -> bool -> res (list row))
  (read_csv : string -> string -> string -> res frame)
  (read_excel : string -> res frame) (configured : bool)
  (environ : gmap string string) (id secret : string) (ids : list json)
  (w : world) :
  let env := default "mypurecloud.com" (environ !! "GENESYS_ENVIRONMENT") in
  let finder := init id secret env w in
  (if configured then None else open_error w "genesys_retrieval.log")
  = None ->
  environ !! "GENESYS_CLIENT_ID" = Some id -> id <> "" ->
  environ !! "GENESYS_CLIENT_SECRET" = Some secret -> secret <> "" ->
  value finder = Ok tt ->
  value (read_conversation_ids read_csv read_excel "call_ids.csv"
           (after finder)) = Ok ids ->
  let batch := take 800 ids in
  let n := length batch in
  announced (events (main to_csv read_csv read_excel configured environ w))
  = map (fun p => (fst p, Z.of_nat n, snd p)) (combine (zrange 1 n) batch)
  /\ n = Nat.min 800 (length ids).
Proof.
  intros env finder Hlog Hid Hid' Hsecret Hsecret' Hinit Hread batch n.
  pose proof (main_run to_csv read_csv read_excel configured environ w) as H.
  cbv zeta in H. unfold log_error in H. rewrite Hlog, Hid, Hsecret in H.
  cbn [set_and_not_empty default from_option Datatypes.id] in H.
  apply String.eqb_neq in Hid', Hsecret'. rewrite Hid', Hsecret' in H.
  cbn [negb orb] in H. fold env in H. fold finder in H.
  rewrite Hinit, Hread in H. destruct H as (results & _ & ->).
  cbn [events]. rewrite !announced_app.
  destruct (quiet_init id secret env w) as [Hq _].
  destruct (quiet_read_conversation_ids read_csv read_excel "call_ids.csv"
              (after finder)) as [Hq' _].
  fold finder in Hq.
  rewrite (announced_quiet _ Hq), (announced_quiet _ Hq').
  rewrite process_all_announced.
  cbn [app announced]. rewrite app_nil_r.
  split; [reflexivity |]. subst n batch. apply length_take.
Qed.

Lemma main_processes_first_800_sample :
  announced
    (events (main (fun _ _ => Ok [])
               (sample_read_csv
                  (JStr "a" :: JStr "b" :: repeat (JStr "c") 900))
               (fun _ => Raise ValueError) false sample_environ
               (sample_world [token_reply] ∅)))
  = map (fun p => (fst p, 800, snd p))
      (combine (zrange 1 800) (JStr "a" :: JStr "b" :: repeat (JStr "c") 798)).
Proof.
  exact (proj1 (main_processes_first_800 (fun _ _ => Ok [])
                  (sample_read_csv
                     (JStr "a" :: JStr "b" :: repeat (JStr "c") 900))
                  (fun _ => Raise ValueError) false sample_environ
                  "client" "secret"
                  (JStr "a" :: JStr "b" :: repeat (JStr "c") 900)
                  (sample_world [token_reply] ∅)
                  eq_refl eq_refl ltac:(discriminate) eq_refl
                  ltac:(discriminate) eq_refl eq_refl)).
Defined.

(** ** [main]: the files of a batch run *)

Lemma grows_process_all to_csv n ids : forall i results,
  steps (grows "recording_ids.csv") (process_all to_csv n i ids results).
Proof.
  assert (Hb : forall A B (c : M A) (k : A -> M B),
             steps (grows "recording_ids.csv") c ->
             (forall a, steps (grows "recording_ids.csv") (k a)) ->
             steps (grows "recording_ids.csv") (bind c k)).
  { intros A B. apply steps_bind. apply grows_trans. }
  assert (He : forall ev, steps (grows "recording_ids.csv") (emit ev)).
  { intros ev w. apply grows_refl. }
  assert (Hr : forall A (a : A), steps (grows "recording_ids.csv") (ret a)).
  { intros A a w. apply grows_refl. }
  induction ids as [| cid ids IH]; intros i results; cbn [process_all].
  - apply Hr.
  - apply Hb; [| intros results'; apply IH].
    unfold process_one. apply Hb; [apply He | intros _].
    apply steps_try; [apply grows_trans | |].
    + apply Hb.
      { intros w. rewrite dispatch_second. apply grows_find_recordings_2. }
      intros recordings. apply Hb.
      { destruct (Py.truthy recordings); [| apply Hr].
        apply Hb; [intros w; apply grows_refl | intros items; apply Hr]. }
      intros results'. apply Hb; [| intros _; apply Hr].
      destruct (i mod 50 =? 0); [| apply Hr].
      apply Hb; [apply He | intros _; apply He].
    + intros e. apply Hb; [apply He | intros _; apply Hr].
Qed.

(** X18: whatever happens in a batch run, [main] only adds to
    [recording_ids.csv]: the file keeps the rows it had, in place, a
    file that existed still exists, and no other table of the world
    changes.  (The records of the log are the [Log] events of the run;
    [files] does not hold them.) *)
Theorem main_only_appends (to_csv : json -> bool -> res (list row))
  (read_csv : string -> string -> string -> res frame)
  (read_excel : string -> res frame) (configured : bool)
  (environ : gmap string string) (w : world) :
  let w' := after (main to_csv read_csv read_excel configured environ w) in
  content w "recording_ids.csv" `prefix_of` content w' "recording_ids.csv"
  /\ (is_Some (files w !! "recording_ids.csv") ->
      is_Some (files w' !! "recording_ids.csv"))
  /\ (forall p, p <> "recording_ids.csv" -> files w' !! p = files w !! p).
Proof.
  cbn zeta.
  assert (H : grows "recording_ids.csv" w
                (after (main to_csv read_csv read_excel configured environ
                          w))).
  { pose proof (main_run to_csv read_csv read_excel configured environ w)
      as Hrun.
    cbv zeta in Hrun.
    destruct (log_error configured w) as [e |];
      [rewrite Hrun; apply grows_refl |].
    destruct (negb _ || negb _); [rewrite Hrun; apply grows_refl |].
    set (id := default "" (environ !! "GENESYS_CLIENT_ID")) in *.
    set (secret := default "" (environ !! "GENESYS_CLIENT_SECRET")) in *.
    set (env := default "mypurecloud.com"
                  (environ !! "GENESYS_ENVIRONMENT")) in *.
    assert (Hinit : grows "recording_ids.csv" w (after (init id secret env w))).
    { unfold init. apply steps_bind; [apply grows_trans | | ].
      - intros w0. apply grows_same_files. reflexivity.
      - intros _. apply steps_authenticate; grows_side. }
    destruct (value (init id secret env w)) as [[] | e].
    - destruct (value (read_conversation_ids _ _ _ _)) as [ids | e].
      + destruct Hrun as (results & _ & ->). cbn [after].
        eapply grows_trans; [exact Hinit | apply grows_process_all].
      + rewrite Hrun. exact Hinit.
    - rewrite Hrun. exact Hinit. }
  destruct H as (Ho & Hp & Hs). auto.
Qed.

(** * The functions the batch run and its callers use besides *)

(** ** [read_conversation_ids] (lines 340-408) *)

Section Reader.

Variable read_csv : string -> string -> string -> res frame.
Variable read_excel : string -> res frame.

(** *** The two loops as one scan *)

Definition read_ok (encoding delimiter : string) (df : frame) : list event :=
  [Print "Successfully read CSV with {encoding} encoding and '{delimiter}' delimiter"
     [AVal (JStr encoding); AVal (JStr delimiter)];
   Print "Available columns:" [AVal (column_list df)]].

Definition read_failed (encoding delimiter : string) (e : exn) : event :=
  Print "Failed to read CSV with {encoding} encoding and '{delimiter}' delimiter: {e}"
    [AVal (JStr encoding); AVal (JStr delimiter); AExn e].

(** The pairs of encoding and delimiter in turn, up to the first that
    [read_csv] accepts: what is printed, and the frame if there is
    one. *)
Fixpoint scan (file_path : string) (pairs : list (string * string))
  : list event * option frame :=
  match pairs with
  | [] => ([], None)
  | (encoding, delimiter) :: rest =>
      match read_csv file_path encoding delimiter with
      | Ok df => (read_ok encoding delimiter df, Some df)
      | Raise e =>
          let '(evs, found) := scan file_path rest in
          (read_failed encoding delimiter e :: evs, found)
      end
  end.

Lemma delimiter_loop_scan file_path encoding todo w :
  delimiter_loop read_csv file_path encoding todo w
  = mkRun (Ok (snd (scan file_path (map (pair encoding) todo)))) w
      (fst (scan file_path (map (pair encoding) todo))).
Proof.
  induction todo as [| delimiter rest IH]; [reflexivity |].
  cbn [delimiter_loop map scan].
  destruct (read_csv file_path encoding delimiter) as [df | e] eqn:E.
  - erewrite bind_run_ok; cycle 1.
    { eapply try_run_ok. rewrite bind_lift_ok, bind_print, bind_print.
      reflexivity. }
    reflexivity.
  - erewrite bind_run_ok; cycle 1.
    { erewrite try_run_caught;
        [| rewrite bind_lift_raise; reflexivity | reflexivity].
      rewrite bind_print. reflexivity. }
    cbv beta iota. cbn [prepend ret after events value app]. rewrite IH.
    destruct (scan file_path (map (pair encoding) rest)) as [evs found].
    reflexivity.
Qed.

Lemma scan_app file_path pairs pairs' :
  scan file_path (pairs ++ pairs')
  = match snd (scan file_path pairs) with
    | Some df => scan file_path pairs
    | None =>
        (fst (scan file_path pairs) ++ fst (scan file_path pairs'),
         snd (scan file_path pairs'))
    end.
Proof.
  induction pairs as [| [encoding delimiter] rest IH]; cbn [app scan].
  - now destruct (scan file_path pairs').
  - destruct (read_csv file_path encoding delimiter) as [df | e];
      [reflexivity |].
    rewrite IH. destruct (scan file_path rest) as [evs [df |]];
      [reflexivity |].
    cbn. now destruct (scan file_path pairs').
Qed.

Lemma encoding_loop_scan file_path todo w :
  encoding_loop read_csv file_path todo w
  = mkRun
      (match snd (scan file_path (list_prod todo delimiters)) with
       | Some df => Ok df
       | None => Raise ValueError
       end) w
      (fst (scan file_path (list_prod todo delimiters))).
Proof.
  induction todo as [| encoding rest IH]; [reflexivity |].
  cbn [encoding_loop list_prod]. rewrite scan_app.
  erewrite bind_run_ok; [| apply delimiter_loop_scan].
  destruct (scan file_path (map (pair encoding) delimiters))
    as [evs [df |]]; cbn [fst snd].
  - unfold ret, prepend. cbn. now rewrite app_nil_r.
  - cbv beta iota. rewrite IH. reflexivity.
Qed.

End Reader.

(** X19: for a path that ends in [.csv] the two loops try the sixteen pairs
    in the order utf-8, latin-1, iso-8859-1, cp1252, each with the
    delimiters comma, semicolon, tab and bar, and take the frame of the
    first pair [read_csv] accepts, printing one line for each pair that
    failed before; when all sixteen fail the call raises [ValueError].
    For [.xls] and [.xlsx] the frame is that of [read_excel], whose
    exception is passed on as it is; any other path, [.CSV] included,
    raises [ValueError] and nothing is read. *)
Theorem read_conversation_ids_frame
  (read_csv : string -> string -> string -> res frame)
  (read_excel : string -> res frame) (file_path : string) (w : world) :
  read_conversation_ids read_csv read_excel file_path w
  = (if endswith file_path ".csv" then
       let tried := scan read_csv file_path (list_prod encodings delimiters) in
       match snd tried with
       | Some df => prepend (fst tried) (select_ids df w)
       | None => mkRun (Raise ValueError) w (fst tried)
       end
     else if endswith file_path ".xls" || endswith file_path ".xlsx" then
       match read_excel file_path with
       | Ok df => select_ids df w
       | Raise e => mkRun (Raise e) w []
       end
     else mkRun (Raise ValueError) w [])
  /\ list_prod encodings delimiters
     = [("utf-8", ","); ("utf-8", ";"); ("utf-8", tab); ("utf-8", "|");
        ("latin-1", ","); ("latin-1", ";"); ("latin-1", tab);
        ("latin-1", "|");
        ("iso-8859-1", ","); ("iso-8859-1", ";"); ("iso-8859-1", tab);
        ("iso-8859-1", "|");
        ("cp1252", ","); ("cp1252", ";"); ("cp1252", tab); ("cp1252", "|")].
Proof.
  split; [| reflexivity].
  unfold read_conversation_ids.
  destruct (endswith file_path ".csv").
  - cbv zeta.
    pose proof (encoding_loop_scan read_csv file_path encodings w) as H.
    destruct (scan read_csv file_path (list_prod encodings delimiters))
      as [evs [df |]]; cbn [fst snd] in *.
    + erewrite bind_run_ok; [| exact H]. reflexivity.
    + erewrite bind_run_raise; [| exact H]. reflexivity.
  - destruct (endswith file_path ".xls" || endswith file_path ".xlsx").
    + destruct (read_excel file_path) as [df | e].
      * now rewrite bind_lift_ok.
      * now rewrite bind_lift_raise.
    + now rewrite bind_raise.
Qed.

(** The test of the extension tells upper case from lower case. *)
Example read_conversation_ids_upper_case
  (read_csv : string -> string -> string -> res frame)
  (read_excel : string -> res frame) (w : world) :
  read_conversation_ids read_csv read_excel "CALLS.CSV" w
  = mkRun (Raise ValueError) w [].
Proof. reflexivity. Qed.

(** *** The choice of the column *)

Lemma has_column_In df col : has_column df col = true <-> In col (columns df).
Proof.
  unfold has_column. rewrite existsb_exists. split.
  - intros (x & Hx & E). apply String.eqb_eq in E. now subst.
  - intros H. exists col. split; [exact H | apply String.eqb_refl].
Qed.

Lemma has_column_perm df df' col :
  Permutation df df' -> has_column df col = has_column df' col.
Proof.
  intros Hp. apply eq_true_iff_eq. rewrite !has_column_In.
  unfold columns. now rewrite Hp.
Qed.

Lemma column_perm df df' col :
  NoDup (columns df) -> Permutation df df' -> column df col = column df' col.
Proof.
  intros Hnd Hp. revert Hnd.
  induction Hp as [| [label values] l l' Hp IH
                  | [label values] [label' values'] l
                  | l l' l'' Hp1 IH1 Hp2 IH2]; intros Hnd.
  - reflexivity.
  - cbn in *. destruct (String.eqb col label); [reflexivity |].
    apply IH. now apply NoDup_cons_1_2 in Hnd.
  - cbn in *.
    destruct (String.eqb_spec col label') as [-> | H1];
      destruct (String.eqb_spec label' label) as [E | H2];
      try reflexivity.
    subst. apply NoDup_cons_1_1 in Hnd. exfalso. apply Hnd. now left.
  - rewrite IH1 by exact Hnd. apply IH2.
    unfold columns in *. now rewrite <- Hp1.
Qed.

Lemma find_ext_in {A} (f g : A -> bool) (l : list A) :
  (forall x, f x = g x) -> List.find f l = List.find g l.
Proof.
  intros H. induction l as [| x l IH]; [reflexivity |].
  cbn. rewrite H, IH. reflexivity.
Qed.

(** X20: the identifiers come from the first name of the list
    [conversation_id], [Call ID], [call_id], [CallID], [ID], [id],
    [Recording ID], [recording_id], [RecordingID] that labels a column,
    whatever else the frame holds: the order of the columns in the file
    does not matter, and a frame with none of these labels gives
    [ValueError]. *)
Theorem select_ids_by_priority (df : frame) (w : world) :
  NoDup (columns df) ->
  (forall df', Permutation df df' ->
     value (select_ids df' w) = value (select_ids df w))
  /\ match List.find (fun name => bool_decide (name ∈ columns df))
             id_column_variations with
     | Some name =>
         exists values, In (name, values) df
                        /\ value (select_ids df w) = Ok values
     | None => value (select_ids df w) = Raise ValueError
     end.
Proof.
  intros Hnd. split.
  - intros df' Hp. unfold select_ids. rewrite !bind_print, !value_prepend.
    rewrite (find_ext_in (has_column df') (has_column df))
      by (intros x; symmetry; now apply has_column_perm).
    destruct (List.find (has_column df) id_column_variations);
      [| reflexivity].
    cbn [lift value]. symmetry. now apply column_perm.
  - rewrite (find_ext_in _ (has_column df)); cycle 1.
    { intros x. apply eq_true_iff_eq.
      rewrite bool_decide_eq_true, has_column_In, list_elem_of_In.
      reflexivity. }
    unfold select_ids. rewrite bind_print, value_prepend.
    destruct (List.find (has_column df) id_column_variations) as [name |] eqn:E;
      [| reflexivity].
    apply find_some in E. destruct E as [_ Hin].
    apply has_column_In in Hin. cbn [lift value].
    clear Hnd. induction df as [| [label values] rest IH]; [destruct Hin |].
    cbn. destruct (String.eqb_spec name label) as [-> | Hne].
    + exists values. split; [now left | reflexivity].
    + destruct Hin as [E | Hin]; [cbn in E; congruence |].
      destruct (IH Hin) as (vs & Hvs & Hc). exists vs.
      split; [now right | exact Hc].
Qed.

Lemma select_ids_by_priority_sample :
  let df := [("Agent", [JStr "a1"; JStr "a2"]);
             ("ID", [JInt 1; JInt 2]);
             ("conversation_id", [JStr "c1"; JStr "c2"])] in
  value (select_ids
           [("conversation_id", [JStr "c1"; JStr "c2"]);
            ("ID", [JInt 1; JInt 2]); ("Agent", [JStr "a1"; JStr "a2"])]
           (sample_world [] ∅))
  = value (select_ids df (sample_world [] ∅))
  /\ value (select_ids df (sample_world [] ∅)) = Ok [JStr "c1"; JStr "c2"].
Proof.
  cbn zeta. split.
  - apply (proj1 (select_ids_by_priority
                    [("Agent", [JStr "a1"; JStr "a2"]);
                     ("ID", [JInt 1; JInt 2]);
                     ("conversation_id", [JStr "c1"; JStr "c2"])]
                    (sample_world [] ∅)
                    ltac:(apply NoDup_ListNoDup; cbn;
                          repeat (apply Stdlib.Lists.List.NoDup_cons;
                                  [cbn; intuition discriminate |]);
                          apply Stdlib.Lists.List.NoDup_nil))).
    apply Permutation_rev.
  - reflexivity.
Defined.

(** ** [check_recording_status] (lines 288-338) *)

(** The URL of line 301 is the conversation URL of line 270 continued
    by [/recordings/{recording_id}]: the address of the conversation
    whose identifier is this longer path. *)
Definition status_endpoint (conversation_id recording_id : string)
  : endpoint :=
  ConversationDetails
    (JStr (conversation_id +:+ "/recordings/" +:+ recording_id)).

(** [json.loads(response_text)] on the text of the response: the
    document, [JSONDecodeError] for a text that is not JSON, and the
    decoder's two limits. *)
Definition json_loads (r : response) : res json :=
  match body r with
  | Document j => Ok j
  | NotJSON => Raise JSONDecodeError
  | TooDeep => Raise RecursionError
  | TooLong => Raise ValueError
  end.

(** [except json.JSONDecodeError] (line 331): neither the plain
    [ValueError] of the digit limit nor [RecursionError] is one. *)
Definition is_json_decode_error (e : exn) : bool :=
  match e with JSONDecodeError => true | _ => false end.

(** Lines 317-334: the inner [try]. *)
Definition status_details (response : response) : M json :=
  try_except
    (let response_text := text response in
     print "Response Text: {response_text}" [AVal (JStr response_text)];;
     if negb (String.eqb response_text "") then
       response_json <- lift (json_loads response);;
       print "\nRecording Status Details:" [];;
       print "{json.dumps(response_json, indent=2)}" [AVal response_json];;
       ret response_json
     else
       print "Empty response text" [];;
       ret (JObj []))
    is_json_decode_error
    (fun json_err =>
       print "JSON Decoding Error: {json_err}" [AExn json_err];;
       print "Raw Response Text: {response_text}"
         [AVal (JStr (text response))];;
       ret (JObj [])).

(** The headers are built anew from the token (lines 304-307), not
    taken from the session. *)
Definition check_recording_status (conversation_id recording_id : string)
  : M json :=
  try_except
    (f <- get_self;;
     response <-
       requests GET (status_endpoint conversation_id recording_id)
         (access_token f) None;;
     print "Recording Status URL: {status_url}"
       [AVal (JStr (base_url f +:+ "/api/v2/conversations/"
                    +:+ conversation_id +:+ "/recordings/"
                    +:+ recording_id))];;
     print "Response Status Code: {response.status_code}"
       [AVal (JInt (status_code response))];;
     print "Response Headers: {response.headers}"
       [AVal (resp_headers response)];;
     status_details response)
    is_request_exception
    (fun e =>
       print "Error checking recording status: {str(e)}" [AExn e];;
       ret (JObj [])).






(** A text of a thousand opening brackets. *)
Example check_recording_status_too_deep :
  let resp := mkResponse 200 (JObj []) "[[[[" TooDeep in
  value (check_recording_status "c1" "r1" (sample_world [Replies resp] ∅))
  = Raise RecursionError.
Proof. vm_compute. reflexivity. Qed.
